(** * System Maintenance Toolkit: a shallow embedding of
      [system_maintenance_toolkit.py] and the properties of its task runner.

    The Python program drives three maintenance operations from a Tk window.
    Every method of [SystemMaintenanceToolkit] is embedded as a function in a
    state-and-exception monad over a record [World] holding what the program
    can change: the [self.loggers] dict, the handlers and files of the
    [logging] module, the GUI queue, the widgets, the Tk timers, the external
    commands launched and the directories swept by the disk cleanup.  What the
    program can only observe (the admin probe, the behaviour of external
    commands, the environment's paths) is the read-only record [Env].

    Idealisations, all on the environment side:
    - a log line is a pair (level, message); the [asctime] prefix is left out;
    - a character is a code point below 256;
    - the value and the maximum of a progress bar are the IEEE 754 doubles
      that Tk stores, and arithmetic on them is Python's float arithmetic;
    - the directories named by the cleanup paths do not lie inside one
      another;
    - one worker thread runs at a time, so the queue has one producer. *)

From Stdlib Require Import Ascii String ZArith PrimFloat Uint63.
From stdpp Require Import gmap strings list fin_maps pretty.

Local Open Scope string_scope.
Local Open Scope list_scope.

(** ** Python string helpers *)

Module Py.

(** [str.lower] on ASCII letters. *)
Definition lower_ascii (c : ascii) : ascii :=
  let n := nat_of_ascii c in
  if (65 <=? n)%nat && (n <=? 90)%nat then ascii_of_nat (n + 32) else c.

Fixpoint lower (s : string) : string :=
  match s with
  | EmptyString => EmptyString
  | String c r => String (lower_ascii c) (lower r)
  end.

(** [str.replace(a, b)] for one-character [a] and [b]. *)
Fixpoint replace (a b : ascii) (s : string) : string :=
  match s with
  | EmptyString => EmptyString
  | String c r => String (if Ascii.eqb c a then b else c) (replace a b r)
  end.

Definition LF : ascii := ascii_of_nat 10.
Definition nl : string := String LF EmptyString.

(** [str.isspace] of one character, which is what [str.strip()] removes:
    the code points 9 to 13, 28 to 31, 32, 133 and 160. *)
Definition is_space (c : ascii) : bool :=
  let n := nat_of_ascii c in
  ((9 <=? n)%nat && (n <=? 13)%nat)
  || ((28 <=? n)%nat && (n <=? 32)%nat)
  || (n =? 133)%nat || (n =? 160)%nat.

Fixpoint lstrip (s : string) : string :=
  match s with
  | EmptyString => EmptyString
  | String c r => if is_space c then lstrip r else s
  end.

Fixpoint rev_string (acc s : string) : string :=
  match s with
  | EmptyString => acc
  | String c r => rev_string (String c acc) r
  end.

Definition strip (s : string) : string :=
  rev_string EmptyString (lstrip (rev_string EmptyString (lstrip s))).

(** The line boundaries of [str.splitlines()]: line feed, vertical tab,
    form feed, carriage return, the file, group and record separators and
    next line; a carriage return followed by a line feed is one boundary. *)
Definition is_linebreak (c : ascii) : bool :=
  let n := nat_of_ascii c in
  ((10 <=? n)%nat && (n <=? 13)%nat)
  || ((28 <=? n)%nat && (n <=? 30)%nat)
  || (n =? 133)%nat.

Definition CR : ascii := ascii_of_nat 13.

Fixpoint splitlines_aux (cur : string) (s : string) : list string :=
  match s with
  | EmptyString =>
      match cur with
      | EmptyString => []
      | _ => [rev_string EmptyString cur]
      end
  | String c r =>
      if is_linebreak c
      then
        rev_string EmptyString cur ::
          splitlines_aux EmptyString
            (match r with
             | String c' r' => if Ascii.eqb c CR && Ascii.eqb c' LF then r' else r
             | EmptyString => r
             end)
      else splitlines_aux (String c cur) r
  end.

Definition splitlines (s : string) : list string :=
  splitlines_aux EmptyString s.

(** Truthiness of a string. *)
Definition truthy (s : string) : bool :=
  match s with EmptyString => false | _ => true end.

(** A dict that is iterated keeps insertion order: an association list. *)
Fixpoint dict_get {V} (d : list (string * V)) (k : string) : option V :=
  match d with
  | [] => None
  | (k', v) :: r => if String.eqb k' k then Some v else dict_get r k
  end.

Fixpoint dict_set {V} (d : list (string * V)) (k : string) (v : V)
  : list (string * V) :=
  match d with
  | [] => [(k, v)]
  | (k', v') :: r =>
      if String.eqb k' k then (k', v) :: r else (k', v') :: dict_set r k v
  end.

End Py.

(** ** Module-level constants *)

Definition SECTION_LOG_FILES : list (string * string) :=
  [ ("System Health Check", "system_health_check.log");
    ("Disk Cleanup", "disk_cleanup.log");
    ("Defragment and Optimize Drives", "defragment.log") ].

Definition COMMAND_LOG_FILES : list (string * string) :=
  [ ("checkhealth", "checkhealth.log");
    ("scanhealth", "scanhealth.log");
    ("Restorehealth", "Restorehealth.log");
    ("sfc_scannow", "sfc_scannow.log");
    ("AnalyzeComponentStore", "AnalyzeComponentStore.log");
    ("StartComponentCleanup", "StartComponentCleanup.log") ].

(** ** Data *)

(** [logging] levels with their numbers. *)
Inductive Level := DEBUG | INFO | WARNING | ERROR.

Definition levelno (l : Level) : nat :=
  match l with DEBUG => 10 | INFO => 20 | WARNING => 30 | ERROR => 40 end.

Definition LogRecord : Type := Level * string.

(** The three sections made by [create_section]; each owns one info panel
    ([<label>_info]) and one progress bar ([<label>_progress]). *)
Inductive Section_ := SystemHealthCheck | DiskCleanup | Defragment.

Record Widgets (A : Type) := mkWidgets {
  of_system_health_check : A;
  of_disk_cleanup : A;
  of_defragment_and_optimize_drives : A
}.
Arguments mkWidgets {A}.
Arguments of_system_health_check {A}.
Arguments of_disk_cleanup {A}.
Arguments of_defragment_and_optimize_drives {A}.

Definition wget {A} (s : Section_) (ws : Widgets A) : A :=
  match s with
  | SystemHealthCheck => of_system_health_check ws
  | DiskCleanup => of_disk_cleanup ws
  | Defragment => of_defragment_and_optimize_drives ws
  end.

Definition wset {A} (s : Section_) (a : A) (ws : Widgets A) : Widgets A :=
  match s with
  | SystemHealthCheck =>
      mkWidgets a (of_disk_cleanup ws) (of_defragment_and_optimize_drives ws)
  | DiskCleanup =>
      mkWidgets (of_system_health_check ws) a (of_defragment_and_optimize_drives ws)
  | Defragment =>
      mkWidgets (of_system_health_check ws) (of_disk_cleanup ws) a
  end.

(** An entry of the GUI queue: the pair [(func, args)]. *)
Inductive UIEvent :=
| Ev_update_info_panel (panel : Section_) (message : string)
| Ev_reset_progress_bar_with_delay (progress_bar : Section_) (delay : nat).

(** A callback registered with [root.after]. *)
Inductive Callback :=
| Cb_process_gui_queue
| Cb_progress_config_value_0 (progress_bar : Section_).

Inductive Thread := UIThread | WorkerThread.

(** A call into the Tk toolkit, recorded with the thread that makes it. *)
Inductive TkCall :=
| Tk_panel_delete_all (panel : Section_)
| Tk_panel_insert (panel : Section_) (text : string)
| Tk_progress_set_value (bar : Section_) (v : float)
| Tk_progress_set_maximum (bar : Section_) (v : float)
| Tk_update_idletasks
| Tk_after (delay : nat) (cb : Callback)
| Tk_messagebox (kind title text : string).

Inductive ConsoleLine :=
| Stdout (text : string)
| Stderr (r : LogRecord).

(** What deleting one directory entry does. *)
Inductive Removal :=
| Removed
| InUse                  (* PermissionError, errno EACCES, winerror 32 *)
| Denied                 (* any other PermissionError *)
| Fails (e : string).    (* any other OSError, with its text *)

(** A directory entry as [os.walk] sees it: a file, or a directory with its
    own entries; [Removal] is what [unlink] (or [rmdir], once the directory
    is empty) does to it. *)
#[local] Unset Elimination Schemes.
Inductive Node :=
| File (name : string) (r : Removal)
| Dir (name : string) (r : Removal) (entries : list Node).
#[local] Set Elimination Schemes.

(** ** The environment *)

Inductive Probe :=
| ProbeReturns (b : bool)
| ProbeRaises (e : string).

(** [subprocess.run(command, ..., timeout=3600)]. *)
Inductive RunOutcome :=
| Ran (returncode : Z) (stdout : string)
| TimeoutExpired
| RunRaises (e : string).

(** [subprocess.Popen(command, ...)]: a child that answers [None] to the
    first [alive_polls] calls of [poll()], or the one exception the loop
    catches. *)
Inductive PopenOutcome :=
| Spawned (alive_polls : nat) (returncode : Z) (stderr : string)
| CalledProcessError (e : string).

Record Env := mkEnv {
  IsUserAnAdmin : Probe;
  subprocess_run : string -> RunOutcome;
  subprocess_Popen : string -> PopenOutcome;
  getenv_TEMP : option string;
  expanduser : string -> string;
  (* os.path.exists(path) for a path that names no directory: a plain file *)
  plain_file : string -> bool
}.

(** ** The mutable world *)

Record World := mkWorld {
  self_loggers : list (string * string);        (* self.loggers: key -> logger *)
  logging_handlers : gmap string (list string); (* logger -> its open FileHandlers *)
  root_has_handlers : bool;                     (* logging.basicConfig() has run *)
  log_dir : gmap string (list LogRecord);       (* the files of LOG_DIR *)
  console : list ConsoleLine;
  gui_queue : list UIEvent;
  info_panel : Widgets string;
  progress_value : Widgets float;
  progress_maximum : Widgets float;
  timers : list (nat * Callback);
  tk_calls : list (Thread * TkCall);
  launched : list string;                       (* external commands started *)
  slept_ms : nat;                               (* time spent in time.sleep *)
  disk : gmap string (list Node)                (* directories, by path *)
}.

(** Field updates. *)
Definition with_self_loggers (x : list (string * string)) (w : World) : World :=
  mkWorld x (logging_handlers w) (root_has_handlers w) (log_dir w) (console w)
    (gui_queue w) (info_panel w) (progress_value w) (progress_maximum w)
    (timers w) (tk_calls w) (launched w) (slept_ms w) (disk w).
Definition with_logging_handlers (x : gmap string (list string)) (w : World) : World :=
  mkWorld (self_loggers w) x (root_has_handlers w) (log_dir w) (console w)
    (gui_queue w) (info_panel w) (progress_value w) (progress_maximum w)
    (timers w) (tk_calls w) (launched w) (slept_ms w) (disk w).
Definition with_root_has_handlers (x : bool) (w : World) : World :=
  mkWorld (self_loggers w) (logging_handlers w) x (log_dir w) (console w)
    (gui_queue w) (info_panel w) (progress_value w) (progress_maximum w)
    (timers w) (tk_calls w) (launched w) (slept_ms w) (disk w).
Definition with_log_dir (x : gmap string (list LogRecord)) (w : World) : World :=
  mkWorld (self_loggers w) (logging_handlers w) (root_has_handlers w) x
    (console w) (gui_queue w) (info_panel w) (progress_value w)
    (progress_maximum w) (timers w) (tk_calls w) (launched w) (slept_ms w)
    (disk w).
Definition with_console (x : list ConsoleLine) (w : World) : World :=
  mkWorld (self_loggers w) (logging_handlers w) (root_has_handlers w)
    (log_dir w) x (gui_queue w) (info_panel w) (progress_value w)
    (progress_maximum w) (timers w) (tk_calls w) (launched w) (slept_ms w)
    (disk w).
Definition with_gui_queue (x : list UIEvent) (w : World) : World :=
  mkWorld (self_loggers w) (logging_handlers w) (root_has_handlers w)
    (log_dir w) (console w) x (info_panel w) (progress_value w)
    (progress_maximum w) (timers w) (tk_calls w) (launched w) (slept_ms w)
    (disk w).
Definition with_info_panel (x : Widgets string) (w : World) : World :=
  mkWorld (self_loggers w) (logging_handlers w) (root_has_handlers w)
    (log_dir w) (console w) (gui_queue w) x (progress_value w)
    (progress_maximum w) (timers w) (tk_calls w) (launched w) (slept_ms w)
    (disk w).
Definition with_progress_value (x : Widgets float) (w : World) : World :=
  mkWorld (self_loggers w) (logging_handlers w) (root_has_handlers w)
    (log_dir w) (console w) (gui_queue w) (info_panel w) x
    (progress_maximum w) (timers w) (tk_calls w) (launched w) (slept_ms w)
    (disk w).
Definition with_progress_maximum (x : Widgets float) (w : World) : World :=
  mkWorld (self_loggers w) (logging_handlers w) (root_has_handlers w)
    (log_dir w) (console w) (gui_queue w) (info_panel w) (progress_value w) x
    (timers w) (tk_calls w) (launched w) (slept_ms w) (disk w).
Definition with_timers (x : list (nat * Callback)) (w : World) : World :=
  mkWorld (self_loggers w) (logging_handlers w) (root_has_handlers w)
    (log_dir w) (console w) (gui_queue w) (info_panel w) (progress_value w)
    (progress_maximum w) x (tk_calls w) (launched w) (slept_ms w) (disk w).
Definition with_tk_calls (x : list (Thread * TkCall)) (w : World) : World :=
  mkWorld (self_loggers w) (logging_handlers w) (root_has_handlers w)
    (log_dir w) (console w) (gui_queue w) (info_panel w) (progress_value w)
    (progress_maximum w) (timers w) x (launched w) (slept_ms w) (disk w).
Definition with_launched (x : list string) (w : World) : World :=
  mkWorld (self_loggers w) (logging_handlers w) (root_has_handlers w)
    (log_dir w) (console w) (gui_queue w) (info_panel w) (progress_value w)
    (progress_maximum w) (timers w) (tk_calls w) x (slept_ms w) (disk w).
Definition with_slept_ms (x : nat) (w : World) : World :=
  mkWorld (self_loggers w) (logging_handlers w) (root_has_handlers w)
    (log_dir w) (console w) (gui_queue w) (info_panel w) (progress_value w)
    (progress_maximum w) (timers w) (tk_calls w) (launched w) x (disk w).
Definition with_disk (x : gmap string (list Node)) (w : World) : World :=
  mkWorld (self_loggers w) (logging_handlers w) (root_has_handlers w)
    (log_dir w) (console w) (gui_queue w) (info_panel w) (progress_value w)
    (progress_maximum w) (timers w) (tk_calls w) (launched w) (slept_ms w) x.

(** ** The monad: state [World], exceptions that leave a method *)

Inductive Exn := KeyError (key : string).

Inductive Outcome (A : Type) :=
| Returns (a : A)
| Raises (e : Exn).
Arguments Returns {A}.
Arguments Raises {A}.

Definition M (A : Type) : Type := World -> Outcome A * World.

Definition ret {A} (a : A) : M A := fun w => (Returns a, w).

Definition bind {A B} (m : M A) (k : A -> M B) : M B :=
  fun w =>
    match m w with
    | (Returns a, w') => k a w'
    | (Raises e, w') => (Raises e, w')
    end.

Definition raise {A} (e : Exn) : M A := fun w => (Raises e, w).
Definition get_world : M World := fun w => (Returns w, w).
Definition modify (f : World -> World) : M unit := fun w => (Returns tt, f w).

Declare Scope py_scope.
Delimit Scope py_scope with py.
Notation "x <- m ;; k" := (bind m (fun x => k))
  (at level 100, m at next level, right associativity) : py_scope.
Notation "'let*' pat := m 'in' k" := (bind m (fun x => let 'pat := x in k))
  (at level 100, pat pattern, m at next level, right associativity) : py_scope.
Notation "m ;; k" := (bind m (fun _ => k))
  (at level 100, right associativity) : py_scope.
Local Open Scope py_scope.

(** [for x in l: body(x)]. *)
Fixpoint for_each {A} (body : A -> M unit) (l : list A) : M unit :=
  match l with
  | [] => ret tt
  | x :: r => body x ;; for_each body r
  end.

(** The state a run ends in, and how it ends. *)
Definition exec {A} (m : M A) (w : World) : World := snd (m w).
Definition outcome {A} (m : M A) (w : World) : Outcome A := fst (m w).

(** [d[key]] on [self.loggers]. *)
Definition self_loggers_item (key : string) : M string :=
  w <- get_world ;;
  match Py.dict_get (self_loggers w) key with
  | Some logger => ret logger
  | None => raise (KeyError key)
  end.

(** ** The [logging] module *)

Definition handlers_of (logger : string) (w : World) : list string :=
  default [] (logging_handlers w !! logger).

(** A [FileHandler] appends the formatted record to its open file. *)
Definition write_line (r : LogRecord) (w : World) (file : string) : World :=
  with_log_dir (alter (fun content => content ++ [r]) file (log_dir w)) w.

Definition to_stderr (r : LogRecord) (w : World) : World :=
  with_console (console w ++ [Stderr r]) w.

(** [logger.debug/info/warning/error(msg)] on a logger made by [get_logger]:
    its level is [INFO]; the record goes to each of its handlers, then to the
    root logger's stream handler when [basicConfig] has installed one, and to
    [logging.lastResort] (level [WARNING]) when no handler was found at all. *)
Definition emit (logger : string) (lvl : Level) (msg : string) (w : World) : World :=
  if (levelno lvl <? levelno INFO)%nat then w
  else
    let hs := handlers_of logger w in
    let w1 := foldl (write_line (lvl, msg)) w hs in
    if root_has_handlers w1 then to_stderr (lvl, msg) w1
    else
      match hs with
      | [] => if (levelno WARNING <=? levelno lvl)%nat
              then to_stderr (lvl, msg) w1 else w1
      | _ :: _ => w1
      end.

Definition Logger_log (logger : string) (lvl : Level) (msg : string) : M unit :=
  modify (emit logger lvl msg).

(** Module-level [logging.error(msg)]: configures the root logger on first
    use, then writes to standard error. *)
Definition logging_error (msg : string) : M unit :=
  modify (fun w => to_stderr (ERROR, msg) (with_root_has_handlers true w)).

(** [logging.FileHandler(os.path.join(LOG_DIR, log_file))]: opens the file
    for appending, creating it when it is missing. *)
Definition FileHandler (log_file : string) : M string :=
  modify (fun w =>
    match log_dir w !! log_file with
    | Some _ => w
    | None => with_log_dir (<[log_file := []]> (log_dir w)) w
    end) ;;
  ret log_file.

Definition addHandler (logger fh : string) : M unit :=
  modify (fun w =>
    with_logging_handlers
      (<[logger := handlers_of logger w ++ [fh]]> (logging_handlers w)) w).

Fixpoint remove_first (x : string) (l : list string) : list string :=
  match l with
  | [] => []
  | y :: r => if String.eqb y x then r else y :: remove_first x r
  end.

Definition removeHandler (logger handler : string) : M unit :=
  modify (fun w =>
    with_logging_handlers
      (<[logger := remove_first handler (handlers_of logger w)]>
         (logging_handlers w)) w).

Definition get_logger (name log_file : string) : M string :=
  w <- get_world ;;
  match handlers_of name w with
  | [] => fh <- FileHandler log_file ;; addHandler name fh ;; ret name
  | _ :: _ => ret name
  end.

(** A file of the log directory is held open while some handler on it is
    attached; on Windows [os.remove] of such a file raises. *)
Definition is_open (file : string) (w : World) : bool :=
  bool_decide (map_Exists (fun _ hs => file ∈ hs) (logging_handlers w)).

Definition print (text : string) : M unit :=
  modify (fun w => with_console (console w ++ [Stdout text]) w).

(** ** Tk calls *)

Definition tk (t : Thread) (c : TkCall) : M unit :=
  modify (fun w => with_tk_calls (tk_calls w ++ [(t, c)]) w).

Definition panel_delete_all (t : Thread) (panel : Section_) : M unit :=
  tk t (Tk_panel_delete_all panel) ;;
  modify (fun w => with_info_panel (wset panel "" (info_panel w)) w).

Definition panel_insert_end (t : Thread) (panel : Section_) (text : string) : M unit :=
  tk t (Tk_panel_insert panel text) ;;
  modify (fun w =>
    with_info_panel (wset panel (wget panel (info_panel w) +:+ text) (info_panel w)) w).

Definition progress_set_value (t : Thread) (bar : Section_) (v : float) : M unit :=
  tk t (Tk_progress_set_value bar v) ;;
  modify (fun w => with_progress_value (wset bar v (progress_value w)) w).

Definition progress_set_maximum (t : Thread) (bar : Section_) (v : float) : M unit :=
  tk t (Tk_progress_set_maximum bar v) ;;
  modify (fun w => with_progress_maximum (wset bar v (progress_maximum w)) w).

Definition update_idletasks (t : Thread) : M unit := tk t Tk_update_idletasks.

Definition root_after (t : Thread) (delay : nat) (cb : Callback) : M unit :=
  tk t (Tk_after delay cb) ;;
  modify (fun w => with_timers (timers w ++ [(delay, cb)]) w).

Definition messagebox (t : Thread) (kind title text : string) : M unit :=
  tk t (Tk_messagebox kind title text).

Definition gui_queue_put (ev : UIEvent) : M unit :=
  modify (fun w => with_gui_queue (gui_queue w ++ [ev]) w).

(** ** The class [SystemMaintenanceToolkit]

    Every method takes the thread [t] it runs on: the buttons made by
    [create_section] start their command on a new worker thread, the
    "Clear Logs" button and the [after] callbacks run on the Tk thread. *)

Section Toolkit.

Variable env : Env.

Definition is_admin : M bool :=
  match IsUserAnAdmin env with
  | ProbeReturns b => ret b
  | ProbeRaises e => logging_error ("Admin check failed: " +:+ e) ;; ret false
  end.

Definition self_loggers_setitem (key logger : string) : M unit :=
  modify (fun w => with_self_loggers (Py.dict_set (self_loggers w) key logger) w).

Definition initialize_loggers : M unit :=
  modify (with_self_loggers []) ;;
  for_each (fun '(section, log_file) =>
    let logger_name :=
      if String.eqb section "Defragment and Optimize Drives"
      then "defragment"
      else Py.replace " " "_" (Py.lower section) in
    logger <- get_logger logger_name log_file ;;
    self_loggers_setitem logger_name logger ;;
    print ("Initialized logger: " +:+ logger_name)) SECTION_LOG_FILES ;;
  for_each (fun '(command, log_file) =>
    let logger_name := Py.replace "/" "_" (Py.lower command) in
    logger <- get_logger logger_name log_file ;;
    self_loggers_setitem logger_name logger ;;
    print ("Initialized logger: " +:+ logger_name)) COMMAND_LOG_FILES ;;
  logger <- get_logger "error_logger" "error.log" ;;
  self_loggers_setitem "error_logger" logger ;;
  print "Initialized error_logger".

(** The text of the [PermissionError] that [os.remove] raises on a file
    that is still open. *)
Definition sharing_violation (log_file : string) : string :=
  "[WinError 32] The process cannot access the file because it is being used by another process: '"
  +:+ log_file +:+ "'".

(** Step 1 of [clear_all_logs]: close and remove all FileHandlers.  Every
    handler in the program is a [FileHandler]; closing one and taking it off
    its logger is what releases the file. *)
Definition remove_file_handlers : M unit :=
  w <- get_world ;;
  for_each (fun '(logger_name, logger) =>
    w <- get_world ;;
    let handlers_to_remove := handlers_of logger w in
    for_each (fun handler =>
      removeHandler logger handler ;;
      error_logger <- self_loggers_item "error_logger" ;;
      Logger_log error_logger DEBUG
        ("Removed handler <FileHandler " +:+ handler +:+ " (INFO)> from logger '"
         +:+ logger_name +:+ "'")) handlers_to_remove) (self_loggers w).

(** Step 2, for one entry of [os.listdir(LOG_DIR)]. *)
Definition delete_log_file (log_file : string) : M unit :=
  w <- get_world ;;
  if is_open log_file w
  then
    error_logger <- self_loggers_item "error_logger" ;;
    Logger_log error_logger ERROR
      ("Error clearing log file " +:+ log_file +:+ ": " +:+ sharing_violation log_file)
  else
    modify (fun w => with_log_dir (delete log_file (log_dir w)) w) ;;
    error_logger <- self_loggers_item "error_logger" ;;
    Logger_log error_logger INFO ("Cleared log file: " +:+ log_file).

Definition delete_log_files : M unit :=
  w <- get_world ;;
  for_each delete_log_file (map fst (map_to_list (log_dir w))).

Definition clear_all_logs (t : Thread) : M unit :=
  remove_file_handlers ;;
  delete_log_files ;;
  (* Step 3: reinitialize the loggers *)
  initialize_loggers ;;
  messagebox t "showinfo" "Logs Cleared" "All log files have been cleared.".

Definition thread_safe_update_info_panel (panel : Section_) (message : string) : M unit :=
  gui_queue_put (Ev_update_info_panel panel message).

Definition update_info_panel (t : Thread) (panel : Section_) (message : string) : M unit :=
  panel_insert_end t panel (message +:+ Py.nl +:+ Py.nl).

Definition reset_progress_bar_with_delay (t : Thread) (progress_bar : Section_)
    (delay : nat) : M unit :=
  root_after t delay (Cb_progress_config_value_0 progress_bar).

Definition clear_info_panel (t : Thread) (panel : Section_) : M unit :=
  panel_delete_all t panel.

(** The call [func] makes on its [args], for an entry taken from the queue. *)
Definition call_event (t : Thread) (ev : UIEvent) : M unit :=
  match ev with
  | Ev_update_info_panel panel message => update_info_panel t panel message
  | Ev_reset_progress_bar_with_delay bar delay =>
      reset_progress_bar_with_delay t bar delay
  end.

(** [while not self.gui_queue.empty(): ...]; no entry puts a new entry on
    the queue, so the length of the queue bounds the iterations. *)
Fixpoint drain (fuel : nat) : M unit :=
  match fuel with
  | O => ret tt
  | S fuel' =>
      w <- get_world ;;
      match gui_queue w with
      | [] => ret tt
      | ev :: rest =>
          modify (with_gui_queue rest) ;;
          call_event UIThread ev ;;
          drain fuel'
      end
  end.

Definition process_gui_queue : M unit :=
  w <- get_world ;;
  drain (length (gui_queue w)) ;;
  root_after UIThread 100 Cb_process_gui_queue.

(** The Tk main loop running the [i]-th pending [after] callback. *)
Definition run_callback (cb : Callback) : M unit :=
  match cb with
  | Cb_process_gui_queue => process_gui_queue
  | Cb_progress_config_value_0 bar => progress_set_value UIThread bar 0
  end.

Definition mainloop_fire (i : nat) : M unit :=
  w <- get_world ;;
  match timers w !! i with
  | None => ret tt
  | Some (_, cb) =>
      modify (fun w => with_timers (take i (timers w) ++ drop (S i) (timers w)) w) ;;
      run_callback cb
  end.

(** The class defines [ensure_admin] twice with the same body; the second
    definition is the one in force. *)
Definition ensure_admin : M bool :=
  admin <- is_admin ;;
  if negb admin
  then
    error_logger <- self_loggers_item "error_logger" ;;
    Logger_log error_logger ERROR
      "Admin privileges are required to perform this operation." ;;
    let message :=
      "Admin privileges are required to perform this operation." +:+ Py.nl
      +:+ "Please restart the program as an administrator." in
    thread_safe_update_info_panel SystemHealthCheck message ;;
    ret false
  else ret true.

(** [enumerate(l, start)]. *)
Fixpoint enumerate {A} (start : nat) (l : list A) : list (nat * A) :=
  match l with
  | [] => []
  | x :: r => (start, x) :: enumerate (S start) r
  end.

Definition popen (command : string) : M PopenOutcome :=
  modify (fun w => with_launched (launched w ++ [command]) w) ;;
  ret (subprocess_Popen env command).

Definition run (command : string) : M RunOutcome :=
  modify (fun w => with_launched (launched w ++ [command]) w) ;;
  ret (subprocess_run env command).

Definition sleep (ms : nat) : M unit :=
  modify (fun w => with_slept_ms (slept_ms w + ms) w).

(** *** Defragment and optimize drives *)

Definition drives : list string := ["C:"; "D:"].

(** A Python [int] handed to Tk as the value of a bar; the conversion is
    exact below 2^53, and the program's values are at most 200. *)
Definition float_of_nat (n : nat) : float :=
  PrimFloat.of_uint63 (Uint63.of_Z (Z.of_nat n)).
Arguments float_of_nat : simpl never.

(** [for step in range(steps)]: [alive] counts the calls of [proc.poll()]
    that still answer [None]. *)
Fixpoint poll_loop (t : Thread) (logger : string) (i : nat) (drive : string)
    (steps : nat) (range : list nat) (alive : nat) : M unit :=
  match range with
  | [] => ret tt
  | step :: range' =>
      match alive with
      | O => ret tt                      (* proc.poll() is not None: break *)
      | S alive' =>
          sleep 100 ;;
          progress_set_value t Defragment (float_of_nat ((i * 100) + (step + 1))) ;;
          let message :=
            "Defragmenting " +:+ drive +:+ ": Step " +:+ pretty (step + 1)
            +:+ "/" +:+ pretty steps in
          thread_safe_update_info_panel Defragment message ;;
          Logger_log logger INFO message ;;
          update_idletasks t ;;
          poll_loop t logger i drive steps range' alive'
      end
  end.

Definition defragment_drive (t : Thread) (logger : string)
    (i_drive : nat * string) : M unit :=
  let '(i, drive) := i_drive in
  let command := "defrag " +:+ drive +:+ " /OPTIMIZE" in
  proc <- popen command ;;
  match proc with
  | Spawned alive returncode stderr =>
      let steps := 100 in
      poll_loop t logger i drive steps (seq 0 steps) alive ;;
      (* stdout, stderr = proc.communicate() *)
      if (returncode =? 0)%Z
      then
        let success_message := "Optimized drive: " +:+ drive in
        thread_safe_update_info_panel Defragment success_message ;;
        Logger_log logger INFO success_message
      else
        let error_message :=
          "Failed to optimize drive " +:+ drive +:+ ": " +:+ stderr in
        thread_safe_update_info_panel Defragment error_message ;;
        Logger_log logger ERROR error_message
  | CalledProcessError e =>
      let error_message := "Failed to optimize drive " +:+ drive +:+ ": " +:+ e in
      thread_safe_update_info_panel Defragment error_message ;;
      Logger_log logger ERROR error_message
  end.

Definition defragment_drives (t : Thread) : M unit :=
  w <- get_world ;;
  match Py.dict_get (self_loggers w) "defragment" with
  | None => messagebox t "showerror" "Logger Error" "Defragment logger not found."
  | Some logger =>
      let info_panel := Defragment in
      clear_info_panel t info_panel ;;
      thread_safe_update_info_panel info_panel
        "Initialized Defragment and Optimize Drives" ;;
      let progress := Defragment in
      progress_set_maximum t progress (float_of_nat (length drives * 100)) ;;
      Logger_log logger INFO "Starting Defragmentation and Optimization" ;;
      for_each (defragment_drive t logger) (enumerate 0 drives) ;;
      Logger_log logger INFO "Defragmentation and Optimization Completed" ;;
      thread_safe_update_info_panel info_panel
        "Defragmentation and optimization completed." ;;
      (* Set progress to maximum *)
      progress_set_value t progress 100 ;;
      update_idletasks t ;;
      gui_queue_put (Ev_reset_progress_bar_with_delay progress 1000)
  end.

(** *** Disk cleanup *)

Record Tally := mkTally {
  deleted_files : list string;
  in_use_files : list string;
  permission_denied_files : list string
}.

Definition cleanup_paths : list (option string) :=
  [ getenv_TEMP env;
    Some (expanduser env "~\AppData\Local\Temp");
    Some (expanduser env "~\AppData\Local\Microsoft\Windows\History") ].

(** [str(Path(root_dir) / name)]. *)
Definition join_path (root_dir name : string) : string :=
  root_dir +:+ "\" +:+ name.

(** One [try: ... except PermissionError ... except OSError ...] of the
    sweep: [what] is "file" or "directory", [r] is what the removal did. *)
Definition record_removal (logger what path : string) (r : Removal)
    (tl : Tally) : M Tally :=
  match r with
  | Removed =>
      Logger_log logger INFO ("Deleted " +:+ what +:+ ": " +:+ path) ;;
      ret (mkTally (deleted_files tl ++ [path]) (in_use_files tl)
             (permission_denied_files tl))
  | InUse =>
      thread_safe_update_info_panel DiskCleanup
        ("In use by another program: " +:+ path +:+ Py.nl) ;;
      Logger_log logger WARNING ("In use by another program: " +:+ path) ;;
      ret (mkTally (deleted_files tl) (in_use_files tl ++ [path])
             (permission_denied_files tl))
  | Denied =>
      thread_safe_update_info_panel DiskCleanup
        ("Permission denied for " +:+ path +:+ Py.nl) ;;
      Logger_log logger ERROR ("Permission denied for " +:+ path) ;;
      ret (mkTally (deleted_files tl) (in_use_files tl)
             (permission_denied_files tl ++ [path]))
  | Fails e =>
      thread_safe_update_info_panel DiskCleanup
        ("Error deleting " +:+ path +:+ ": " +:+ e +:+ Py.nl) ;;
      Logger_log logger ERROR ("Error deleting " +:+ path +:+ ": " +:+ e) ;;
      ret tl
  end.

Definition is_removed (r : Removal) : bool :=
  match r with Removed => true | _ => false end.

(** [for name in files: (Path(root_dir) / name).unlink()]; returns the
    entries left in [root_dir]. *)
Fixpoint unlink_files (logger root_dir : string) (entries : list Node)
    (tl : Tally) : M (list Node * Tally) :=
  match entries with
  | [] => ret ([], tl)
  | File name r :: rest =>
      tl' <- record_removal logger "file" (join_path root_dir name) r tl ;;
      let* (rest', tl'') := unlink_files logger root_dir rest tl' in
      ret (if is_removed r then rest' else File name r :: rest', tl'')
  | Dir name r sub :: rest =>
      let* (rest', tl') := unlink_files logger root_dir rest tl in
      ret (Dir name r sub :: rest', tl')
  end.

Definition directory_not_empty (path : string) : string :=
  "[WinError 145] The directory is not empty: '" +:+ path +:+ "'".

(** What [rmdir] does to a directory holding [sub]. *)
Definition rmdir_result (path : string) (r : Removal) (sub : list Node) : Removal :=
  match sub with
  | [] => r
  | _ :: _ => Fails (directory_not_empty path)
  end.

(** [for name in dirs: (Path(root_dir) / name).rmdir()]. *)
Fixpoint rmdir_dirs (logger root_dir : string) (entries : list Node)
    (tl : Tally) : M (list Node * Tally) :=
  match entries with
  | [] => ret ([], tl)
  | File name r :: rest =>
      let* (rest', tl') := rmdir_dirs logger root_dir rest tl in
      ret (File name r :: rest', tl')
  | Dir name r sub :: rest =>
      let r' := rmdir_result (join_path root_dir name) r sub in
      tl' <- record_removal logger "directory" (join_path root_dir name) r' tl ;;
      let* (rest', tl'') := rmdir_dirs logger root_dir rest tl' in
      ret (if is_removed r' then rest' else Dir name r sub :: rest', tl'')
  end.

(** [for root_dir, dirs, files in os.walk(path, topdown=False)]: the
    sub-directories of [root_dir] are swept first, in the order listed,
    then the loop body runs on [root_dir] itself. *)
Fixpoint sweep_node (logger root_dir : string) (n : Node) (tl : Tally)
    : M (Node * Tally) :=
  match n with
  | File name r => ret (File name r, tl)
  | Dir name r sub =>
      let here := join_path root_dir name in
      let* (sub1, tl1) :=
        (fix sweep_all (l : list Node) (tl : Tally) : M (list Node * Tally) :=
           match l with
           | [] => ret ([], tl)
           | c :: cs =>
               let* (c', tl') := sweep_node logger here c tl in
               let* (cs', tl'') := sweep_all cs tl' in
               ret (c' :: cs', tl'')
           end) sub tl in
      let* (sub2, tl2) := unlink_files logger here sub1 tl1 in
      let* (sub3, tl3) := rmdir_dirs logger here sub2 tl2 in
      ret (Dir name r sub3, tl3)
  end.

Fixpoint sweep_nodes (logger root_dir : string) (l : list Node) (tl : Tally)
    : M (list Node * Tally) :=
  match l with
  | [] => ret ([], tl)
  | c :: cs =>
      let* (c', tl') := sweep_node logger root_dir c tl in
      let* (cs', tl'') := sweep_nodes logger root_dir cs tl' in
      ret (c' :: cs', tl'')
  end.

Definition sweep_path (logger : string) (tl : Tally) (path : option string)
    : M Tally :=
  w <- get_world ;;
  match path with
  | Some p =>
      match Py.truthy p, disk w !! p with
      | true, Some entries =>
          let* (e1, tl1) := sweep_nodes logger p entries tl in
          let* (e2, tl2) := unlink_files logger p e1 tl1 in
          let* (e3, tl3) := rmdir_dirs logger p e2 tl2 in
          modify (fun w => with_disk (<[p := e3]> (disk w)) w) ;;
          ret tl3
      | true, None =>
          if plain_file env p
          then ret tl    (* the path exists; os.walk of a plain file yields nothing *)
          else
            thread_safe_update_info_panel DiskCleanup
              ("Path not found or invalid: " +:+ p +:+ Py.nl) ;;
            Logger_log logger WARNING ("Path not found or invalid: " +:+ p) ;;
            ret tl
      | false, _ =>
          thread_safe_update_info_panel DiskCleanup
            ("Path not found or invalid: " +:+ p +:+ Py.nl) ;;
          Logger_log logger WARNING ("Path not found or invalid: " +:+ p) ;;
          ret tl
      end
  | None =>
      thread_safe_update_info_panel DiskCleanup
        ("Path not found or invalid: None" +:+ Py.nl) ;;
      Logger_log logger WARNING "Path not found or invalid: None" ;;
      ret tl
  end.

Fixpoint sweep_paths (logger : string) (tl : Tally) (paths : list (option string))
    : M Tally :=
  match paths with
  | [] => ret tl
  | path :: rest =>
      tl' <- sweep_path logger tl path ;;
      sweep_paths logger tl' rest
  end.

Definition completion_message (tl : Tally) : string :=
  "Disk cleanup completed" +:+ Py.nl
  +:+ "Deleted: " +:+ pretty (length (deleted_files tl)) +:+ Py.nl
  +:+ "In Use: " +:+ pretty (length (in_use_files tl)) +:+ Py.nl
  +:+ "Permission Denied: " +:+ pretty (length (permission_denied_files tl)).

Definition disk_cleanup (t : Thread) : M unit :=
  admin <- ensure_admin ;;
  if negb admin then ret tt
  else
    logger <- self_loggers_item "disk_cleanup" ;;
    clear_info_panel t DiskCleanup ;;
    thread_safe_update_info_panel DiskCleanup ("Starting Disk Cleanup..." +:+ Py.nl) ;;
    tl <- sweep_paths logger (mkTally [] [] []) cleanup_paths ;;
    Logger_log logger INFO "Disk Cleanup Completed" ;;
    Logger_log logger INFO
      ("Deleted Files: " +:+ pretty (length (deleted_files tl))) ;;
    Logger_log logger INFO
      ("In Use Files: " +:+ pretty (length (in_use_files tl))) ;;
    Logger_log logger INFO
      ("Permission Denied Files: " +:+ pretty (length (permission_denied_files tl))) ;;
    thread_safe_update_info_panel DiskCleanup (completion_message tl) ;;
    (* Set progress to maximum *)
    progress_set_value t DiskCleanup 100 ;;
    update_idletasks t ;;
    gui_queue_put (Ev_reset_progress_bar_with_delay DiskCleanup 1000).

(** *** System health check *)

Definition commands : list (string * string) :=
  [ ("checkhealth", "Dism.exe /online /Cleanup-Image /checkhealth");
    ("scanhealth", "Dism.exe /online /Cleanup-Image /scanhealth");
    ("Restorehealth", "Dism.exe /online /Cleanup-Image /Restorehealth");
    ("sfc_scannow", "sfc /scannow");
    ("AnalyzeComponentStore", "Dism.exe /Online /Cleanup-Image /AnalyzeComponentStore");
    ("StartComponentCleanup", "Dism.exe /Online /Cleanup-Image /StartComponentCleanup") ].

(** The dict display [loggers = { ... }]: its values are looked up in
    [self.loggers], in the order written. *)
Definition command_loggers : M (list (string * string)) :=
  l1 <- self_loggers_item "checkhealth" ;;
  l2 <- self_loggers_item "scanhealth" ;;
  l3 <- self_loggers_item "restorehealth" ;;
  l4 <- self_loggers_item "sfc_scannow" ;;
  l5 <- self_loggers_item "analyzeComponentStore" ;;
  l6 <- self_loggers_item "StartComponentCleanup" ;;
  ret [ ("checkhealth", l1); ("scanhealth", l2); ("Restorehealth", l3);
        ("sfc_scannow", l4); ("AnalyzeComponentStore", l5);
        ("StartComponentCleanup", l6) ].

Inductive LoopExit := Continue | Break.

(** The [finally] clause of the loop body. *)
Definition advance_progress (t : Thread) (progress_increment : float) : M unit :=
  w <- get_world ;;
  progress_set_value t SystemHealthCheck
    (wget SystemHealthCheck (progress_value w) + progress_increment)%float ;;
  update_idletasks t.

(** One turn of [for i, (command_name, command) in enumerate(...)]. *)
Definition health_check_step (t : Thread) (loggers : list (string * string))
    (total : nat) (progress_increment : float) (i : nat)
    (command_name command : string) : M LoopExit :=
  thread_safe_update_info_panel SystemHealthCheck
    ("Executing command " +:+ pretty i +:+ "/" +:+ pretty total +:+ ": " +:+ command) ;;
  error_logger <- self_loggers_item "error_logger" ;;
  let logger := default error_logger (Py.dict_get loggers command_name) in
  process <- run command ;;
  match process with
  | Ran returncode stdout =>
      (if Py.truthy stdout
       then for_each (fun line => Logger_log logger INFO (Py.strip line))
              (Py.splitlines stdout)
       else ret tt) ;;
      (if (returncode =? 0)%Z
       then
         let success_message := "Command " +:+ pretty i +:+ " completed successfully." in
         thread_safe_update_info_panel SystemHealthCheck success_message ;;
         Logger_log logger INFO success_message
       else
         let error_message :=
           "Command " +:+ pretty i +:+ " failed with error code: " +:+ pretty returncode in
         thread_safe_update_info_panel SystemHealthCheck error_message ;;
         Logger_log logger ERROR error_message) ;;
      advance_progress t progress_increment ;;
      ret Continue
  | TimeoutExpired =>
      let error_message := "Command " +:+ pretty i +:+ " timed out." in
      thread_safe_update_info_panel SystemHealthCheck error_message ;;
      Logger_log logger ERROR error_message ;;
      advance_progress t progress_increment ;;
      ret Break                          (* stop execution if a timeout occurs *)
  | RunRaises e =>
      let error_message := "Error executing command " +:+ pretty i +:+ ": " +:+ e in
      thread_safe_update_info_panel SystemHealthCheck error_message ;;
      Logger_log logger ERROR error_message ;;
      advance_progress t progress_increment ;;
      ret Break                          (* stop execution if an error occurs *)
  end.

Fixpoint health_check_loop (t : Thread) (loggers : list (string * string))
    (total : nat) (progress_increment : float)
    (steps : list (nat * (string * string))) : M unit :=
  match steps with
  | [] => ret tt
  | (i, (command_name, command)) :: rest =>
      e <- health_check_step t loggers total progress_increment i command_name command ;;
      match e with
      | Continue => health_check_loop t loggers total progress_increment rest
      | Break => ret tt
      end
  end.

Definition start_health_check (t : Thread) : M unit :=
  admin <- ensure_admin ;;
  if negb admin then ret tt
  else
    loggers <- command_loggers ;;
    let progress_increment := (100 / float_of_nat (length commands))%float in
    clear_info_panel t SystemHealthCheck ;;
    thread_safe_update_info_panel SystemHealthCheck
      "Initializing System Health Check..." ;;
    health_check_loop t loggers (length commands) progress_increment
      (enumerate 1 commands) ;;
    thread_safe_update_info_panel SystemHealthCheck "System Health Check completed." ;;
    (* Set progress to maximum *)
    progress_set_value t SystemHealthCheck 100 ;;
    update_idletasks t ;;
    gui_queue_put (Ev_reset_progress_bar_with_delay SystemHealthCheck 1000).

(** *** Start-up *)

(** The part of [__init__] that touches the modelled state: the queue, the
    first [after] tick and the loggers; a new progress bar has value 0 and
    maximum 100, a new info panel is empty. *)
Definition init : M unit :=
  modify (with_gui_queue []) ;;
  root_after UIThread 100 Cb_process_gui_queue ;;
  initialize_loggers.

(** A button made by [create_section]:
    [threading.Thread(target=command).start()]. *)
Definition press (command : Thread -> M unit) : M unit := command WorkerThread.

End Toolkit.

(** The world at program start, on the directories [d]: no logger has a
    handler yet and the log directory is empty. *)
Definition blank (d : gmap string (list Node)) : World :=
  mkWorld [] ∅ false ∅ [] []
    (mkWidgets "" "" "") (mkWidgets 0%float 0%float 0%float)
    (mkWidgets 100%float 100%float 100%float)
    [] [] [] 0 d.

Definition boot (d : gmap string (list Node)) : World :=
  exec init (blank d).

(** The dict [self.loggers] and the handler table that [initialize_loggers]
    builds, and the files those handlers hold open. *)
Definition app_loggers : list (string * string) :=
  Eval vm_compute in self_loggers (boot ∅).

Definition app_handlers : list (string * string) :=
  Eval vm_compute in
    map (fun '(k, _) => (k, default "" (head (handlers_of k (boot ∅))))) app_loggers.

(** A world the program can be in between two user actions: [self.loggers]
    and the handlers are as [initialize_loggers] leaves them, and the file of
    every handler exists. *)
Record wf (w : World) : Prop := mkWf {
  wf_loggers : self_loggers w = app_loggers;
  wf_handlers : logging_handlers w = logging_handlers (boot ∅);
  wf_files : ∀ name file, (name, file) ∈ app_handlers → is_Some (log_dir w !! file)
}.

(** * Properties *)

(** Projections of updated worlds. *)
Ltac project :=
  cbn [self_loggers logging_handlers root_has_handlers log_dir console
       gui_queue info_panel progress_value progress_maximum timers
       tk_calls launched slept_ms disk fst snd
       with_tk_calls with_console with_log_dir with_logging_handlers
       with_self_loggers with_gui_queue with_launched with_disk
       with_info_panel with_progress_value with_progress_maximum
       with_timers with_slept_ms with_root_has_handlers].


Lemma wf_boot d : wf (boot d).
Proof.
  split.
  - reflexivity.
  - reflexivity.
  - intros name file Hin.
    assert (Hall : Forall (fun p => is_Some (log_dir (boot d) !! p.2)) app_handlers).
    { unfold app_handlers. repeat constructor; vm_compute; eauto. }
    rewrite Forall_forall in Hall. apply (Hall _ Hin).
Qed.

Lemma bind_returns {A B} (m : M A) (k : A -> M B) w a w1 :
  m w = (Returns a, w1) -> bind m k w = k a w1.
Proof. intros H. unfold bind. by rewrite H. Qed.

(** ** What a log call changes *)

Definition append_to (r : LogRecord) (files : list string)
    (d : gmap string (list LogRecord)) : gmap string (list LogRecord) :=
  foldl (fun d file => alter (fun content => content ++ [r]) file d) d files.

(** The files after [Logger_log]: the record is appended to the file of
    each handler when the level passes, nothing else changes. *)
Definition emit_log_dir (lvl : Level) (msg : string) (hs : list string)
    (d : gmap string (list LogRecord)) : gmap string (list LogRecord) :=
  if (levelno lvl <? levelno INFO)%nat then d else append_to (lvl, msg) hs d.

(** The console after [Logger_log]. *)
Definition emit_console (lvl : Level) (msg : string) (hs : list string)
    (root : bool) (c : list ConsoleLine) : list ConsoleLine :=
  if (levelno lvl <? levelno INFO)%nat then c
  else if root then c ++ [Stderr (lvl, msg)]
  else match hs with
       | [] => if (levelno WARNING <=? levelno lvl)%nat
               then c ++ [Stderr (lvl, msg)] else c
       | _ :: _ => c
       end.

Lemma with_log_dir_id w : with_log_dir (log_dir w) w = w.
Proof. by destruct w. Qed.

Lemma with_console_id w : with_console (console w) w = w.
Proof. by destruct w. Qed.

Lemma write_lines r hs w :
  foldl (write_line r) w hs = with_log_dir (append_to r hs (log_dir w)) w.
Proof.
  revert w. induction hs as [|h hs IH]; intros w; simpl.
  - by rewrite with_log_dir_id.
  - rewrite IH. reflexivity.
Qed.

Lemma emit_eq logger lvl msg w :
  emit logger lvl msg w =
    with_console
      (emit_console lvl msg (handlers_of logger w) (root_has_handlers w) (console w))
      (with_log_dir
         (emit_log_dir lvl msg (handlers_of logger w) (log_dir w)) w).
Proof.
  unfold emit, emit_console, emit_log_dir.
  destruct lvl; simpl; try (by destruct w);
    rewrite write_lines; simpl;
    destruct (root_has_handlers w); try reflexivity;
    destruct (handlers_of logger w); try reflexivity; by destruct w.
Qed.

#[global] Opaque emit.

(** A log call touches the files and the console only. *)
Lemma emit_frame logger lvl msg w :
  self_loggers (emit logger lvl msg w) = self_loggers w /\
  logging_handlers (emit logger lvl msg w) = logging_handlers w /\
  root_has_handlers (emit logger lvl msg w) = root_has_handlers w /\
  gui_queue (emit logger lvl msg w) = gui_queue w /\
  info_panel (emit logger lvl msg w) = info_panel w /\
  progress_value (emit logger lvl msg w) = progress_value w /\
  progress_maximum (emit logger lvl msg w) = progress_maximum w /\
  timers (emit logger lvl msg w) = timers w /\
  tk_calls (emit logger lvl msg w) = tk_calls w /\
  launched (emit logger lvl msg w) = launched w /\
  slept_ms (emit logger lvl msg w) = slept_ms w /\
  disk (emit logger lvl msg w) = disk w.
Proof. rewrite emit_eq. simpl. repeat split. Qed.

Lemma emit_self_loggers l v m w : self_loggers (emit l v m w) = self_loggers w.
Proof. apply emit_frame. Qed.
Lemma emit_logging_handlers l v m w : logging_handlers (emit l v m w) = logging_handlers w.
Proof. apply emit_frame. Qed.
Lemma emit_root_has_handlers l v m w : root_has_handlers (emit l v m w) = root_has_handlers w.
Proof. apply emit_frame. Qed.
Lemma emit_gui_queue l v m w : gui_queue (emit l v m w) = gui_queue w.
Proof. apply emit_frame. Qed.
Lemma emit_info_panel l v m w : info_panel (emit l v m w) = info_panel w.
Proof. apply emit_frame. Qed.
Lemma emit_progress_value l v m w : progress_value (emit l v m w) = progress_value w.
Proof. apply emit_frame. Qed.
Lemma emit_progress_maximum l v m w : progress_maximum (emit l v m w) = progress_maximum w.
Proof. apply emit_frame. Qed.
Lemma emit_timers l v m w : timers (emit l v m w) = timers w.
Proof. apply emit_frame. Qed.
Lemma emit_tk_calls l v m w : tk_calls (emit l v m w) = tk_calls w.
Proof. apply emit_frame. Qed.
Lemma emit_launched l v m w : launched (emit l v m w) = launched w.
Proof. apply emit_frame. Qed.
Lemma emit_slept_ms l v m w : slept_ms (emit l v m w) = slept_ms w.
Proof. apply emit_frame. Qed.
Lemma emit_disk l v m w : disk (emit l v m w) = disk w.
Proof. apply emit_frame. Qed.
Lemma emit_handlers_of l v m w k : handlers_of k (emit l v m w) = handlers_of k w.
Proof. unfold handlers_of. by rewrite emit_logging_handlers. Qed.

Create Rewrite HintDb world.
#[global] Hint Rewrite emit_self_loggers emit_logging_handlers emit_root_has_handlers
  emit_gui_queue emit_info_panel emit_progress_value emit_progress_maximum
  emit_timers emit_tk_calls emit_launched emit_slept_ms emit_disk
  emit_handlers_of : world.

(** ** Well-formed worlds *)

Lemma app_handlers_table :
  Forall (fun p => default [] (logging_handlers (boot ∅) !! p.1) = [p.2]) app_handlers.
Proof. unfold app_handlers. repeat constructor. Qed.

Lemma handlers_of_wf w name file :
  wf w -> (name, file) ∈ app_handlers -> handlers_of name w = [file].
Proof.
  intros Hwf Hin. unfold handlers_of. rewrite (wf_handlers _ Hwf).
  pose proof app_handlers_table as Hall. rewrite Forall_forall in Hall.
  apply (Hall _ Hin).
Qed.

Lemma app_loggers_error_logger :
  Py.dict_get app_loggers "error_logger" = Some "error_logger".
Proof. reflexivity. Qed.

Lemma error_logger_handler : ("error_logger", "error.log") ∈ app_handlers.
Proof. unfold app_handlers. repeat constructor. Qed.

Lemma disk_cleanup_handler : ("disk_cleanup", "disk_cleanup.log") ∈ app_handlers.
Proof. unfold app_handlers. repeat constructor. Qed.

(** What the probe leaves behind: nothing, or the root logger's complaint. *)
Definition probed (env : Env) (w : World) : World :=
  match IsUserAnAdmin env with
  | ProbeReturns _ => w
  | ProbeRaises e =>
      to_stderr (ERROR, "Admin check failed: " +:+ e) (with_root_has_handlers true w)
  end.

Definition admin (env : Env) : bool :=
  match IsUserAnAdmin env with
  | ProbeReturns b => b
  | ProbeRaises _ => false
  end.

Lemma is_admin_eq env w : is_admin env w = (Returns (admin env), probed env w).
Proof. unfold is_admin, admin, probed. by destruct (IsUserAnAdmin env). Qed.

Lemma wf_probed env w : wf w -> wf (probed env w).
Proof.
  intros [H1 H2 H3]. unfold probed.
  destruct (IsUserAnAdmin env); split; simpl; auto.
Qed.

(** The world a denied run ends in. *)
Definition denied (env : Env) (w : World) : World :=
  let w0 := probed env w in
  with_gui_queue
    (gui_queue w0
     ++ [Ev_update_info_panel SystemHealthCheck
           ("Admin privileges are required to perform this operation." +:+ Py.nl
            +:+ "Please restart the program as an administrator.")])
    (emit "error_logger" ERROR
       "Admin privileges are required to perform this operation." w0).

Lemma ensure_admin_eq env w :
  wf w ->
  ensure_admin env w =
    if admin env then (Returns true, probed env w)
    else (Returns false, denied env w).
Proof.
  intros Hwf. unfold ensure_admin, bind. rewrite is_admin_eq.
  destruct (admin env); simpl; [reflexivity|].
  unfold self_loggers_item, bind, get_world.
  rewrite (wf_loggers _ (wf_probed env _ Hwf)), app_loggers_error_logger.
  simpl. unfold denied. by autorewrite with world.
Qed.

(** A user without administrative rights, on a machine whose three cleanup
    paths name two directories. *)
Definition plain_user : Env :=
  mkEnv (ProbeReturns false)
    (fun _ => Ran 0 "")
    (fun _ => Spawned 3 0 "")
    (Some "C:\Users\u\AppData\Local\Temp")
    (fun p => "C:\Users\u" +:+ substring 1 (String.length p) p)
    (fun _ => false).

(** The same machine when the probe itself fails: [ctypes.windll] is
    missing, [is_admin] logs the exception and answers [False]. *)
Definition probe_fails : Env :=
  mkEnv (ProbeRaises "module 'ctypes' has no attribute 'windll'")
    (fun _ => Ran 0 "")
    (fun _ => Spawned 3 0 "")
    (Some "C:\Users\u\AppData\Local\Temp")
    (fun p => "C:\Users\u" +:+ substring 1 (String.length p) p)
    (fun _ => false).

Definition temp_dir : gmap string (list Node) :=
  {[ "C:\Users\u\AppData\Local\Temp" :=
       [ File "a.tmp" Removed; File "b.tmp" Removed; File "c.tmp" Removed;
         File "locked.tmp" InUse; File "secret.tmp" Denied ] ]}.


Lemma denied_fields env w :
  wf w -> admin env = false ->
  let w' := denied env w in
  let raised :=
    match IsUserAnAdmin env with
    | ProbeRaises e => [Stderr (ERROR, "Admin check failed: " +:+ e)]
    | ProbeReturns _ => []
    end in
  disk w' = disk w /\
  launched w' = launched w /\
  tk_calls w' = tk_calls w /\
  info_panel w' = info_panel w /\
  progress_value w' = progress_value w /\
  progress_maximum w' = progress_maximum w /\
  timers w' = timers w /\
  slept_ms w' = slept_ms w /\
  self_loggers w' = self_loggers w /\
  logging_handlers w' = logging_handlers w /\
  gui_queue w' =
    gui_queue w
    ++ [Ev_update_info_panel SystemHealthCheck
          ("Admin privileges are required to perform this operation." +:+ Py.nl
           +:+ "Please restart the program as an administrator.")] /\
  log_dir w' =
    alter (fun content =>
             content
             ++ [(ERROR, "Admin privileges are required to perform this operation.")])
      "error.log" (log_dir w) /\
  root_has_handlers w' =
    match IsUserAnAdmin env with
    | ProbeRaises _ => true
    | ProbeReturns _ => root_has_handlers w
    end /\
  console w' =
    console w ++ raised
    ++ (if root_has_handlers w'
        then [Stderr (ERROR, "Admin privileges are required to perform this operation.")]
        else []).
Proof.
  intros Hwf Hadm w' raised. subst w' raised.
  assert (Hh : handlers_of "error_logger" (probed env w) = ["error.log"]).
  { apply handlers_of_wf; [by apply wf_probed | apply error_logger_handler]. }
  unfold denied. rewrite emit_eq, Hh. unfold probed.
  destruct (IsUserAnAdmin env) as [b|e]; project.
  - destruct (root_has_handlers w);
      cbn [emit_console emit_log_dir levelno Nat.ltb Nat.leb append_to foldl];
      rewrite ?app_nil_r; by repeat split.
  - cbn [emit_console emit_log_dir levelno Nat.ltb Nat.leb append_to foldl to_stderr
         console root_has_handlers with_console with_root_has_handlers].
    rewrite <- app_assoc. by repeat split.
Qed.

(** C1, as amended.  When [is_admin()] answers false, whether the probe
    said so or raised, disk cleanup and the system health check both return
    right after the privilege check and do the same thing.  No directory entry is removed, no
    external command is started, no widget is touched, no timer is set and no
    time is spent sleeping; [self.loggers] and the handlers are as before.
    What the run does is this and nothing else: it appends one [ERROR] record,
    "Admin privileges are required to perform this operation.", to
    [error.log] and to no other file; it queues one entry for the System
    Health Check panel, the same sentence followed by "Please restart the
    program as an administrator."; when the probe raised, [is_admin] writes
    "Admin check failed: ..." to standard error and leaves the root logger
    with a handler; and whenever the root logger has a handler the [ERROR]
    record is echoed on standard error. *)
Theorem denied_run_aborts_before_any_step env t w :
  wf w ->
  outcome (is_admin env) w = Returns false ->
  let w' := exec (disk_cleanup env t) w in
  let raised :=
    match IsUserAnAdmin env with
    | ProbeRaises e => [Stderr (ERROR, "Admin check failed: " +:+ e)]
    | ProbeReturns _ => []
    end in
  outcome (disk_cleanup env t) w = Returns tt /\
  start_health_check env t w = disk_cleanup env t w /\
  disk w' = disk w /\
  launched w' = launched w /\
  tk_calls w' = tk_calls w /\
  info_panel w' = info_panel w /\
  progress_value w' = progress_value w /\
  progress_maximum w' = progress_maximum w /\
  timers w' = timers w /\
  slept_ms w' = slept_ms w /\
  self_loggers w' = self_loggers w /\
  logging_handlers w' = logging_handlers w /\
  gui_queue w' =
    gui_queue w
    ++ [Ev_update_info_panel SystemHealthCheck
          ("Admin privileges are required to perform this operation." +:+ Py.nl
           +:+ "Please restart the program as an administrator.")] /\
  log_dir w' =
    alter (fun content =>
             content
             ++ [(ERROR, "Admin privileges are required to perform this operation.")])
      "error.log" (log_dir w) /\
  root_has_handlers w' =
    match IsUserAnAdmin env with
    | ProbeRaises _ => true
    | ProbeReturns _ => root_has_handlers w
    end /\
  console w' =
    console w ++ raised
    ++ (if root_has_handlers w'
        then [Stderr (ERROR, "Admin privileges are required to perform this operation.")]
        else []).
Proof.
  intros Hwf Hden w' raised.
  assert (Hadm : admin env = false).
  { unfold outcome in Hden. rewrite is_admin_eq in Hden. simpl in Hden. congruence. }
  assert (Hdc : disk_cleanup env t w = (Returns tt, denied env w)).
  { unfold disk_cleanup, bind. rewrite ensure_admin_eq, Hadm by done. reflexivity. }
  assert (Hhc : start_health_check env t w = (Returns tt, denied env w)).
  { unfold start_health_check, bind. rewrite ensure_admin_eq, Hadm by done. reflexivity. }
  subst w' raised. unfold outcome, exec. rewrite Hhc, Hdc. cbn [fst snd].
  split; [reflexivity|]. split; [reflexivity|].
  exact (denied_fields env w Hwf Hadm).
Qed.

Lemma denied_run_aborts_witness :
  wf (boot temp_dir) /\
  outcome (is_admin plain_user) (boot temp_dir) = Returns false /\
  outcome (disk_cleanup plain_user WorkerThread) (boot temp_dir) = Returns tt /\
  disk (exec (disk_cleanup plain_user WorkerThread) (boot temp_dir))
    = disk (boot temp_dir) /\
  launched (exec (disk_cleanup plain_user WorkerThread) (boot temp_dir))
    = launched (boot temp_dir) /\
  console (exec (disk_cleanup plain_user WorkerThread) (boot temp_dir))
    = console (boot temp_dir) ++ [] ++ [].
Proof.
  assert (Hden : outcome (is_admin plain_user) (boot temp_dir) = Returns false)
    by reflexivity.
  pose proof (denied_run_aborts_before_any_step plain_user WorkerThread
                (boot temp_dir) (wf_boot temp_dir) Hden) as H.
  cbv zeta in H.
  destruct H as (H1 & _ & H3 & H4 & _ & _ & _ & _ & _ & _ & _ & _ & _ & _ & H15 & H16).
  split; [apply wf_boot|]. split; [exact Hden|].
  split; [exact H1|]. split; [exact H3|]. split; [exact H4|].
  rewrite H16, H15. reflexivity.
Defined.

(** C1, the claim as written, fails when the probe raises.  [is_admin]
    answers [False], the run is denied, and besides the record in
    [error.log] and the queued message the run has written two records to
    standard error, and it has installed a handler on the root logger, so
    every later record of every logger is echoed there too. *)
Lemma denied_run_with_failing_probe_does_more :
  let w := boot temp_dir in
  let w' := exec (disk_cleanup probe_fails WorkerThread) w in
  wf w /\
  outcome (is_admin probe_fails) w = Returns false /\
  outcome (disk_cleanup probe_fails WorkerThread) w = Returns tt /\
  console w' =
    console w
    ++ [ Stderr (ERROR, "Admin check failed: module 'ctypes' has no attribute 'windll'");
         Stderr (ERROR, "Admin privileges are required to perform this operation.") ] /\
  console w' <> console w /\
  root_has_handlers w = false /\
  root_has_handlers w' = true.
Proof.
  intros w w'.
  assert (Hwf : wf w) by apply wf_boot.
  assert (Hadm : admin probe_fails = false) by reflexivity.
  assert (E : w' = denied probe_fails w).
  { subst w'. unfold exec, disk_cleanup, bind. by rewrite ensure_admin_eq, Hadm. }
  pose proof (denied_fields probe_fails w Hwf Hadm) as H. cbv zeta in H.
  destruct H as (_ & _ & _ & _ & _ & _ & _ & _ & _ & _ & _ & _ & H13 & H14).
  rewrite <- E in H13, H14.
  assert (Hc : console w' =
    console w
    ++ [ Stderr (ERROR, "Admin check failed: module 'ctypes' has no attribute 'windll'");
         Stderr (ERROR, "Admin privileges are required to perform this operation.") ]).
  { rewrite H14, H13. reflexivity. }
  split; [exact Hwf|]. split; [reflexivity|].
  split; [unfold outcome, disk_cleanup, bind; by rewrite ensure_admin_eq, Hadm|].
  split; [exact Hc|]. split; [|split; [reflexivity | exact H13]].
  rewrite Hc. intros Heq. apply (f_equal length) in Heq.
  rewrite length_app in Heq. simpl in Heq. lia.
Qed.

(** ** Draining the queue *)

(** The world after the entries [q] were taken from the queue and called,
    oldest first. *)
Fixpoint drained (q : list UIEvent) (w : World) : World :=
  match q with
  | [] => w
  | ev :: rest =>
      drained rest (exec (call_event UIThread ev) (with_gui_queue rest w))
  end.

Definition tk_call_of (ev : UIEvent) : TkCall :=
  match ev with
  | Ev_update_info_panel panel message =>
      Tk_panel_insert panel (message +:+ Py.nl +:+ Py.nl)
  | Ev_reset_progress_bar_with_delay bar delay =>
      Tk_after delay (Cb_progress_config_value_0 bar)
  end.

Definition show (p : Widgets string) (ev : UIEvent) : Widgets string :=
  match ev with
  | Ev_update_info_panel panel message =>
      wset panel (wget panel p +:+ (message +:+ Py.nl +:+ Py.nl)) p
  | Ev_reset_progress_bar_with_delay _ _ => p
  end.

Definition timer_of (ev : UIEvent) : list (nat * Callback) :=
  match ev with
  | Ev_update_info_panel _ _ => []
  | Ev_reset_progress_bar_with_delay bar delay =>
      [(delay, Cb_progress_config_value_0 bar)]
  end.

Lemma call_event_returns t ev w : outcome (call_event t ev) w = Returns tt.
Proof. by destruct ev. Qed.

Lemma call_event_queue t ev w :
  gui_queue (exec (call_event t ev) w) = gui_queue w.
Proof. by destruct ev. Qed.

Lemma drain_eq fuel w :
  length (gui_queue w) <= fuel ->
  drain fuel w = (Returns tt, drained (gui_queue w) w).
Proof.
  revert w. induction fuel as [|fuel IH]; intros w Hlen.
  - destruct (gui_queue w) eqn:E; simpl in *; [|lia]. reflexivity.
  - simpl. unfold bind at 1. unfold get_world at 1.
    destruct (gui_queue w) as [|ev rest] eqn:E; [reflexivity|].
    simpl drained. unfold bind, modify, exec.
    pose proof (call_event_returns UIThread ev (with_gui_queue rest w)) as Hr.
    pose proof (call_event_queue UIThread ev (with_gui_queue rest w)) as Hq.
    unfold outcome, exec in Hr, Hq.
    destruct (call_event UIThread ev (with_gui_queue rest w)) as [o w1]; simpl in *.
    subst o. rewrite IH; rewrite Hq; [reflexivity | lia].
Qed.

(** Everything a drain does, field by field: the queue is emptied, the
    calls are made on the Tk thread in queue order, panels and timers
    follow, nothing else moves. *)
Lemma drained_fields q w :
  gui_queue w = q ->
  gui_queue (drained q w) = [] /\
  tk_calls (drained q w) = tk_calls w ++ map (fun ev => (UIThread, tk_call_of ev)) q /\
  info_panel (drained q w) = foldl show (info_panel w) q /\
  timers (drained q w) = timers w ++ concat (map timer_of q) /\
  progress_value (drained q w) = progress_value w /\
  progress_maximum (drained q w) = progress_maximum w /\
  log_dir (drained q w) = log_dir w /\
  console (drained q w) = console w /\
  launched (drained q w) = launched w /\
  disk (drained q w) = disk w /\
  self_loggers (drained q w) = self_loggers w /\
  logging_handlers (drained q w) = logging_handlers w.
Proof.
  revert w. induction q as [|ev rest IH]; intros w Hq.
  - simpl. rewrite !app_nil_r. by repeat split.
  - simpl.
    destruct (IH (exec (call_event UIThread ev) (with_gui_queue rest w)))
      as (H1 & H2 & H3 & H4 & H5 & H6 & H7 & H8 & H9 & H10 & H11 & H12).
    { by rewrite call_event_queue. }
    rewrite H1, H2, H3, H4, H5, H6, H7, H8, H9, H10, H11, H12.
    destruct ev; simpl; rewrite <- ?app_assoc; by repeat split.
Qed.

Lemma process_gui_queue_eq w :
  process_gui_queue w =
    (Returns tt,
     exec (root_after UIThread 100 Cb_process_gui_queue) (drained (gui_queue w) w)).
Proof.
  unfold process_gui_queue, bind at 1. unfold get_world at 1.
  unfold bind. rewrite drain_eq by done. reflexivity.
Qed.

Lemma process_gui_queue_panels w :
  info_panel (exec process_gui_queue w) = foldl show (info_panel w) (gui_queue w).
Proof.
  unfold exec. rewrite process_gui_queue_eq. simpl.
  by destruct (drained_fields (gui_queue w) w eq_refl) as (_ & _ & -> & _).
Qed.

(** C10. A failed privilege check always addresses its message to the System
    Health Check panel.  A denied disk cleanup (and a denied health check
    alike) queues exactly one entry, for that panel, and leaves every panel
    as it was; once the Tk thread has drained the queue, the Disk Cleanup and
    Defragment panels read what they would have read without the run, and
    the System Health Check panel reads the same followed by the message and
    a blank line. *)
Theorem denial_is_shown_in_health_check_panel env t w :
  wf w ->
  outcome (is_admin env) w = Returns false ->
  let w' := exec (disk_cleanup env t) w in
  let message :=
    "Admin privileges are required to perform this operation." +:+ Py.nl
    +:+ "Please restart the program as an administrator." in
  gui_queue w' = gui_queue w ++ [Ev_update_info_panel SystemHealthCheck message] /\
  gui_queue (exec (start_health_check env t) w) = gui_queue w' /\
  info_panel w' = info_panel w /\
  let seen := info_panel (exec process_gui_queue w') in
  let otherwise := info_panel (exec process_gui_queue w) in
  wget DiskCleanup seen = wget DiskCleanup otherwise /\
  wget Defragment seen = wget Defragment otherwise /\
  wget SystemHealthCheck seen =
    wget SystemHealthCheck otherwise +:+ (message +:+ Py.nl +:+ Py.nl).
Proof.
  intros Hwf Hden w' message.
  assert (Hadm : admin env = false).
  { unfold outcome in Hden. rewrite is_admin_eq in Hden. simpl in Hden. congruence. }
  assert (Hw' : w' = denied env w).
  { subst w'. unfold exec, disk_cleanup, bind.
    by rewrite ensure_admin_eq, Hadm. }
  assert (Hhc : exec (start_health_check env t) w = denied env w).
  { unfold exec, start_health_check, bind. by rewrite ensure_admin_eq, Hadm. }
  assert (Hq : gui_queue (denied env w) =
               gui_queue w ++ [Ev_update_info_panel SystemHealthCheck message]).
  { unfold denied, probed. destruct (IsUserAnAdmin env); simpl; reflexivity. }
  assert (Hp : info_panel (denied env w) = info_panel w).
  { unfold denied, probed.
    destruct (IsUserAnAdmin env); simpl; by autorewrite with world. }
  rewrite Hhc, Hw'. split; [exact Hq|]. split; [reflexivity|]. split; [exact Hp|].
  intros seen otherwise. subst seen otherwise.
  rewrite !process_gui_queue_panels, Hq, Hp, foldl_app. simpl.
  generalize (foldl show (info_panel w) (gui_queue w)). intros p.
  by destruct p.
Qed.

Lemma denial_is_shown_witness :
  wf (boot temp_dir) /\
  outcome (is_admin plain_user) (boot temp_dir) = Returns false /\
  gui_queue (exec (disk_cleanup plain_user WorkerThread) (boot temp_dir))
    = gui_queue (boot temp_dir)
      ++ [Ev_update_info_panel SystemHealthCheck
            ("Admin privileges are required to perform this operation." +:+ Py.nl
             +:+ "Please restart the program as an administrator.")] /\
  wget DiskCleanup
    (info_panel (exec process_gui_queue
                   (exec (disk_cleanup plain_user WorkerThread) (boot temp_dir))))
    = wget DiskCleanup (info_panel (exec process_gui_queue (boot temp_dir))).
Proof.
  assert (Hden : outcome (is_admin plain_user) (boot temp_dir) = Returns false)
    by reflexivity.
  pose proof (denial_is_shown_in_health_check_panel plain_user WorkerThread
                (boot temp_dir) (wf_boot temp_dir) Hden) as H.
  cbv zeta in H. destruct H as (H1 & _ & _ & H4 & _).
  split; [apply wf_boot|]. split; [exact Hden|].
  split; [exact H1 | exact H4].
Defined.

(** ** The system health check stops at its dict of loggers *)

(** [initialize_loggers] files the command loggers under lower-cased keys;
    two of the keys written in [start_health_check] are not among them. *)
Lemma app_loggers_keys :
  Py.dict_get app_loggers "analyzecomponentstore" = Some "analyzecomponentstore" /\
  Py.dict_get app_loggers "startcomponentcleanup" = Some "startcomponentcleanup" /\
  Py.dict_get app_loggers "analyzeComponentStore" = None /\
  Py.dict_get app_loggers "StartComponentCleanup" = None.
Proof. by repeat split. Qed.

Lemma probed_admin env w : admin env = true -> probed env w = w.
Proof. unfold admin, probed. by destruct (IsUserAnAdmin env). Qed.

Lemma self_loggers_item_wf key w :
  wf w ->
  self_loggers_item key w =
    (match Py.dict_get app_loggers key with
     | Some logger => Returns logger
     | None => Raises (KeyError key)
     end, w).
Proof.
  intros Hwf. unfold self_loggers_item, bind, get_world.
  rewrite (wf_loggers _ Hwf). by destruct (Py.dict_get app_loggers key).
Qed.

Lemma command_loggers_raises w :
  wf w -> command_loggers w = (Raises (KeyError "analyzeComponentStore"), w).
Proof.
  intros Hwf. unfold command_loggers, bind.
  repeat (rewrite self_loggers_item_wf by done; simpl). reflexivity.
Qed.

Lemma start_health_check_admin env t w :
  wf w -> admin env = true ->
  start_health_check env t w = (Raises (KeyError "analyzeComponentStore"), w).
Proof.
  intros Hwf Hadm. unfold start_health_check, bind.
  rewrite ensure_admin_eq, Hadm, probed_admin by done. simpl.
  by rewrite command_loggers_raises.
Qed.

(** C3 (the code departs from the claim). With administrative rights the
    health check leaves through [KeyError 'analyzeComponentStore'] while it
    builds its dict of loggers, whatever the six commands would return: no
    command is run, no entry is queued for the panel, no progress is made
    and no log file is written, so in particular a run whose fourth command
    would exit with status 1 delivers none of the six events. *)
Theorem health_check_raises_before_first_command env t w :
  wf w ->
  outcome (is_admin env) w = Returns true ->
  let w' := exec (start_health_check env t) w in
  outcome (start_health_check env t) w = Raises (KeyError "analyzeComponentStore") /\
  launched w' = launched w /\
  gui_queue w' = gui_queue w /\
  log_dir w' = log_dir w /\
  progress_value w' = progress_value w /\
  tk_calls w' = tk_calls w.
Proof.
  intros Hwf Hadm w'. subst w'. unfold outcome, exec in *.
  rewrite is_admin_eq in Hadm. simpl in Hadm.
  rewrite start_health_check_admin by (done || congruence).
  by repeat split.
Qed.

(** An administrator whose fourth command, [sfc /scannow], exits with
    status 1 while the other five succeed. *)
Definition fourth_fails : Env :=
  mkEnv (ProbeReturns true)
    (fun c => if String.eqb c "sfc /scannow"
              then Ran 1 "Windows Resource Protection could not perform the requested operation."
              else Ran 0 "The operation completed successfully.")
    (fun _ => Spawned 3 0 "")
    (Some "C:\Users\u\AppData\Local\Temp")
    (fun p => "C:\Users\u" +:+ substring 1 (String.length p) p)
    (fun _ => false).

Lemma health_check_raises_witness :
  wf (boot ∅) /\
  outcome (is_admin fourth_fails) (boot ∅) = Returns true /\
  outcome (start_health_check fourth_fails WorkerThread) (boot ∅)
    = Raises (KeyError "analyzeComponentStore") /\
  launched (exec (start_health_check fourth_fails WorkerThread) (boot ∅)) = [] /\
  gui_queue (exec (start_health_check fourth_fails WorkerThread) (boot ∅)) = [].
Proof.
  pose proof (health_check_raises_before_first_command fourth_fails WorkerThread
                (boot ∅) (wf_boot ∅) eq_refl) as (H1 & H2 & H3 & _).
  split; [apply wf_boot|]. split; [reflexivity|].
  split; [exact H1|]. split; [exact H2 | exact H3].
Defined.

(** C2 (the code departs from the claim). With administrative rights, a
    health check whose [k]-th command would time out does not attempt steps
    1..[k]: the run has already left through the [KeyError] of its dict of
    loggers, so no command is started and nothing is written to the log
    file of step [k], nor to any other. *)
Theorem timeout_step_is_never_attempted env t w k name command :
  wf w ->
  outcome (is_admin env) w = Returns true ->
  enumerate 1 commands !! k = Some (S k, (name, command)) ->
  subprocess_run env command = TimeoutExpired ->
  let w' := exec (start_health_check env t) w in
  outcome (start_health_check env t) w = Raises (KeyError "analyzeComponentStore") /\
  launched w' = launched w /\
  (command ∉ drop (length (launched w)) (launched w')) /\
  log_dir w' = log_dir w /\
  gui_queue w' = gui_queue w.
Proof.
  intros Hwf Hadm _ _ w'. subst w'. unfold outcome, exec in *.
  rewrite is_admin_eq in Hadm. simpl in Hadm.
  rewrite start_health_check_admin by (done || congruence). simpl.
  rewrite drop_all. repeat split; try done. apply not_elem_of_nil.
Qed.

(** An administrator whose second command, the [scanhealth] scan, runs into
    the one-hour timeout. *)
Definition second_times_out : Env :=
  mkEnv (ProbeReturns true)
    (fun c => if String.eqb c "Dism.exe /online /Cleanup-Image /scanhealth"
              then TimeoutExpired
              else Ran 0 "The operation completed successfully.")
    (fun _ => Spawned 3 0 "")
    (Some "C:\Users\u\AppData\Local\Temp")
    (fun p => "C:\Users\u" +:+ substring 1 (String.length p) p)
    (fun _ => false).

Lemma timeout_step_witness :
  wf (boot ∅) /\
  outcome (is_admin second_times_out) (boot ∅) = Returns true /\
  subprocess_run second_times_out "Dism.exe /online /Cleanup-Image /scanhealth"
    = TimeoutExpired /\
  outcome (start_health_check second_times_out WorkerThread) (boot ∅)
    = Raises (KeyError "analyzeComponentStore") /\
  launched (exec (start_health_check second_times_out WorkerThread) (boot ∅)) = [].
Proof.
  pose proof (timeout_step_is_never_attempted second_times_out WorkerThread
                (boot ∅) 1 "scanhealth" "Dism.exe /online /Cleanup-Image /scanhealth"
                (wf_boot ∅) eq_refl eq_refl eq_refl) as (H1 & H2 & _).
  split; [apply wf_boot|]. split; [reflexivity|]. split; [reflexivity|].
  split; [exact H1 | exact H2].
Defined.

(** ** Defragment: what one drive does *)

Definition step_message (drive : string) (steps step : nat) : string :=
  "Defragmenting " +:+ drive +:+ ": Step " +:+ pretty (step + 1)
  +:+ "/" +:+ pretty steps.

(** One turn of the polling loop that found the child alive. *)
Definition polled_once (t : Thread) (logger : string) (i : nat) (drive : string)
    (steps : nat) (w : World) (step : nat) : World :=
  exec (sleep 100 ;;
        progress_set_value t Defragment (float_of_nat ((i * 100) + (step + 1))) ;;
        thread_safe_update_info_panel Defragment (step_message drive steps step) ;;
        Logger_log logger INFO (step_message drive steps step) ;;
        update_idletasks t) w.

Lemma poll_loop_eq t logger i drive steps range alive w :
  poll_loop t logger i drive steps range alive w =
    (Returns tt, foldl (polled_once t logger i drive steps) w (take alive range)).
Proof.
  revert alive w. induction range as [|step range IH]; intros alive w.
  - by destruct alive.
  - destruct alive as [|alive]; [reflexivity|].
    simpl. rewrite <- IH. reflexivity.
Qed.

Lemma wset_wset {A} s (a b : A) ws : wset s a (wset s b ws) = wset s a ws.
Proof. by destruct s. Qed.

Lemma wget_wset {A} s (a : A) ws : wget s (wset s a ws) = a.
Proof. by destruct s. Qed.

Lemma wget_wset_ne {A} s s' (a : A) ws : s <> s' -> wget s' (wset s a ws) = wget s' ws.
Proof. by destruct s, s'. Qed.

Ltac fields := repeat (progress (simpl; autorewrite with world)).

(** The polling loop, field by field, over the turns [done] it made. *)
Lemma polled_fields t logger i drive steps done w :
  let w' := foldl (polled_once t logger i drive steps) w done in
  gui_queue w' =
    gui_queue w ++
    map (fun step => Ev_update_info_panel Defragment (step_message drive steps step)) done /\
  tk_calls w' =
    tk_calls w ++
    flat_map (fun step =>
      [ (t, Tk_progress_set_value Defragment (float_of_nat ((i * 100) + (step + 1))));
        (t, Tk_update_idletasks) ]) done /\
  slept_ms w' = slept_ms w + 100 * length done /\
  progress_value w' =
    match last done with
    | Some step => wset Defragment (float_of_nat ((i * 100) + (step + 1))) (progress_value w)
    | None => progress_value w
    end /\
  log_dir w' =
    foldl (fun d step =>
             emit_log_dir INFO (step_message drive steps step) (handlers_of logger w) d)
      (log_dir w) done /\
  launched w' = launched w /\
  progress_maximum w' = progress_maximum w /\
  info_panel w' = info_panel w /\
  timers w' = timers w /\
  disk w' = disk w /\
  self_loggers w' = self_loggers w /\
  logging_handlers w' = logging_handlers w.
Proof.
  revert w. induction done as [|step done IH]; intros w.
  - simpl. rewrite !app_nil_r, Nat.add_0_r. by repeat split.
  - simpl foldl. intros w'.
    destruct (IH (polled_once t logger i drive steps w step))
      as (H1 & H2 & H3 & H4 & H5 & H6 & H7 & H8 & H9 & H10 & H11 & H12).
    subst w'. rewrite H1, H2, H3, H4, H5, H6, H7, H8, H9, H10, H11, H12.
    unfold polled_once, exec.
    fields. rewrite emit_eq. fields.
    rewrite <- !app_assoc. simpl.
    repeat split; try reflexivity.
    + lia.
    + rewrite last_cons. by destruct (last done).
Qed.

Definition defrag_command (drive : string) : string :=
  "defrag " +:+ drive +:+ " /OPTIMIZE".

(** The number of turns the polling loop makes on a child. *)
Definition live_polls (proc : PopenOutcome) : nat :=
  match proc with
  | Spawned alive _ _ => alive `min` 100
  | CalledProcessError _ => 0
  end.

(** The level and text of the line that closes a drive. *)
Definition verdict (drive : string) (proc : PopenOutcome) : Level * string :=
  match proc with
  | Spawned _ returncode stderr =>
      if (returncode =? 0)%Z
      then (INFO, "Optimized drive: " +:+ drive)
      else (ERROR, "Failed to optimize drive " +:+ drive +:+ ": " +:+ stderr)
  | CalledProcessError e =>
      (ERROR, "Failed to optimize drive " +:+ drive +:+ ": " +:+ e)
  end.

Definition drive_done (env : Env) (t : Thread) (logger : string) (i : nat)
    (drive : string) (w : World) : World :=
  let proc := subprocess_Popen env (defrag_command drive) in
  let w1 := with_launched (launched w ++ [defrag_command drive]) w in
  let w2 := foldl (polled_once t logger i drive 100) w1 (seq 0 (live_polls proc)) in
  emit logger (verdict drive proc).1 (verdict drive proc).2
    (with_gui_queue
       (gui_queue w2 ++ [Ev_update_info_panel Defragment (verdict drive proc).2]) w2).

Lemma defragment_drive_eq env t logger i drive w :
  defragment_drive env t logger (i, drive) w =
    (Returns tt, drive_done env t logger i drive w).
Proof.
  unfold defragment_drive, drive_done, popen, bind, modify, ret.
  fold (defrag_command drive).
  destruct (subprocess_Popen env (defrag_command drive)) as [alive rc err|e];
    cbn -[poll_loop seq Nat.min].
  - rewrite poll_loop_eq, take_seq.
    by destruct (rc =? 0)%Z.
  - reflexivity.
Qed.

Definition drive_events (env : Env) (drive : string) : list UIEvent :=
  let proc := subprocess_Popen env (defrag_command drive) in
  map (fun step => Ev_update_info_panel Defragment (step_message drive 100 step))
    (seq 0 (live_polls proc))
  ++ [Ev_update_info_panel Defragment (verdict drive proc).2].

Definition drive_calls (env : Env) (t : Thread) (i : nat) (drive : string)
    : list (Thread * TkCall) :=
  flat_map (fun step =>
    [ (t, Tk_progress_set_value Defragment (float_of_nat ((i * 100) + (step + 1))));
      (t, Tk_update_idletasks) ])
    (seq 0 (live_polls (subprocess_Popen env (defrag_command drive)))).

Lemma drive_done_fields env t logger i drive w :
  let w' := drive_done env t logger i drive w in
  let proc := subprocess_Popen env (defrag_command drive) in
  gui_queue w' = gui_queue w ++ drive_events env drive /\
  tk_calls w' = tk_calls w ++ drive_calls env t i drive /\
  launched w' = launched w ++ [defrag_command drive] /\
  slept_ms w' = slept_ms w + 100 * live_polls proc /\
  progress_value w' =
    match live_polls proc with
    | O => progress_value w
    | S n => wset Defragment (float_of_nat ((i * 100) + (n + 1))) (progress_value w)
    end /\
  progress_maximum w' = progress_maximum w /\
  info_panel w' = info_panel w /\
  timers w' = timers w /\
  disk w' = disk w /\
  self_loggers w' = self_loggers w /\
  logging_handlers w' = logging_handlers w.
Proof.
  intros w' proc. subst w'. unfold drive_done. fold proc.
  set (w1 := with_launched (launched w ++ [defrag_command drive]) w).
  destruct (polled_fields t logger i drive 100 (seq 0 (live_polls proc)) w1)
    as (H1 & H2 & H3 & H4 & H5 & H6 & H7 & H8 & H9 & H10 & H11 & H12).
  fields. rewrite H1, H2, H3, H4, H6, H7, H8, H9, H10, H11, H12.
  unfold drive_events, drive_calls. fold proc.
  rewrite length_seq, <- app_assoc. subst w1. simpl.
  repeat split; try reflexivity.
  destruct (live_polls proc) as [|n]; [reflexivity|].
  by rewrite seq_S, last_snoc.
Qed.

(** ** Defragment: the whole run *)

Definition defrag_prelude (t : Thread) (w : World) : World :=
  exec (clear_info_panel t Defragment ;;
        thread_safe_update_info_panel Defragment
          "Initialized Defragment and Optimize Drives" ;;
        progress_set_maximum t Defragment (float_of_nat (length drives * 100)) ;;
        Logger_log "defragment" INFO "Starting Defragmentation and Optimization") w.

Definition defrag_epilogue (t : Thread) (w : World) : World :=
  exec (Logger_log "defragment" INFO "Defragmentation and Optimization Completed" ;;
        thread_safe_update_info_panel Defragment
          "Defragmentation and optimization completed." ;;
        progress_set_value t Defragment 100 ;;
        update_idletasks t ;;
        gui_queue_put (Ev_reset_progress_bar_with_delay Defragment 1000)) w.

Definition defragmented (env : Env) (t : Thread) (w : World) : World :=
  defrag_epilogue t
    (drive_done env t "defragment" 1 "D:"
       (drive_done env t "defragment" 0 "C:" (defrag_prelude t w))).

#[global] Opaque defragment_drive.

Lemma run_eq (m : M unit) w :
  outcome m w = Returns tt -> m w = (Returns tt, exec m w).
Proof. unfold outcome, exec. destruct (m w) as [o w1]. simpl. by intros ->. Qed.

Lemma seq4 {B} (a b c d : M unit) (k : M B) w :
  outcome (a ;; b ;; c ;; d) w = Returns tt ->
  (a ;; b ;; c ;; d ;; k) w = k (exec (a ;; b ;; c ;; d) w).
Proof.
  unfold outcome, exec, bind.
  destruct (a w) as [[[]|e1] w1]; simpl; [|discriminate].
  destruct (b w1) as [[[]|e2] w2]; simpl; [|discriminate].
  destruct (c w2) as [[[]|e3] w3]; simpl; [|discriminate].
  destruct (d w3) as [[[]|e4] w4]; simpl; [reflexivity|discriminate].
Qed.

Lemma defragment_drives_eq env t w :
  wf w -> defragment_drives env t w = (Returns tt, defragmented env t w).
Proof.
  intros Hwf. unfold defragment_drives.
  rewrite (bind_returns get_world _ w w w eq_refl), (wf_loggers _ Hwf).
  change (Py.dict_get app_loggers "defragment") with (Some "defragment").
  cbv beta iota zeta.
  rewrite seq4 by reflexivity. fold (defrag_prelude t w).
  change (enumerate 0 drives) with [(0, "C:"); (1, "D:")]. unfold for_each.
  erewrite bind_returns;
    [| erewrite bind_returns by apply defragment_drive_eq;
       erewrite bind_returns by apply defragment_drive_eq; reflexivity ].
  rewrite run_eq by reflexivity. reflexivity.
Qed.

Lemma defragmented_fields env t w :
  let w' := defragmented env t w in
  gui_queue w' =
    gui_queue w
    ++ [Ev_update_info_panel Defragment "Initialized Defragment and Optimize Drives"]
    ++ drive_events env "C:" ++ drive_events env "D:"
    ++ [ Ev_update_info_panel Defragment "Defragmentation and optimization completed.";
         Ev_reset_progress_bar_with_delay Defragment 1000 ] /\
  tk_calls w' =
    tk_calls w
    ++ [ (t, Tk_panel_delete_all Defragment);
         (t, Tk_progress_set_maximum Defragment 200) ]
    ++ drive_calls env t 0 "C:" ++ drive_calls env t 1 "D:"
    ++ [ (t, Tk_progress_set_value Defragment 100); (t, Tk_update_idletasks) ] /\
  launched w' = launched w ++ [defrag_command "C:"; defrag_command "D:"] /\
  slept_ms w' =
    slept_ms w
    + 100 * live_polls (subprocess_Popen env (defrag_command "C:"))
    + 100 * live_polls (subprocess_Popen env (defrag_command "D:")) /\
  progress_value w' = wset Defragment 100%float (progress_value w) /\
  progress_maximum w' = wset Defragment 200%float (progress_maximum w) /\
  info_panel w' = wset Defragment "" (info_panel w) /\
  timers w' = timers w /\
  disk w' = disk w /\
  self_loggers w' = self_loggers w /\
  logging_handlers w' = logging_handlers w.
Proof.
  intros w'. subst w'. unfold defragmented.
  set (w1 := defrag_prelude t w).
  set (w2 := drive_done env t "defragment" 0 "C:" w1).
  set (w3 := drive_done env t "defragment" 1 "D:" w2).
  destruct (drive_done_fields env t "defragment" 1 "D:" w2)
    as (D1 & D2 & D3 & D4 & D5 & D6 & D7 & D8 & D9 & D10 & D11).
  destruct (drive_done_fields env t "defragment" 0 "C:" w1)
    as (C1 & C2 & C3 & C4 & C5 & C6 & C7 & C8 & C9 & C10 & C11).
  fold w3 in D1, D2, D3, D4, D5, D6, D7, D8, D9, D10, D11.
  fold w2 in C1, C2, C3, C4, C5, C6, C7, C8, C9, C10, C11.
  unfold defrag_epilogue, exec. fields.
  rewrite D1, D2, D3, D4, D6, D7, D8, D9, D10, D11.
  rewrite C1, C2, C3, C4, C6, C7, C8, C9, C10, C11.
  subst w1. unfold defrag_prelude, exec. fields.
  rewrite <- !app_assoc. simpl.
  repeat split; try reflexivity.
  rewrite D5, C5.
  assert (Hp : progress_value (defrag_prelude t w) = progress_value w).
  { unfold defrag_prelude, exec. by fields. }
  rewrite Hp.
  by destruct (live_polls _), (live_polls _).
Qed.

(** The same machine with another answer of the admin probe. *)
Definition with_probe (p : Probe) (env : Env) : Env :=
  mkEnv p (subprocess_run env) (subprocess_Popen env) (getenv_TEMP env)
    (expanduser env) (plain_file env).

Definition targets (ev : UIEvent) : Section_ :=
  match ev with
  | Ev_update_info_panel panel _ => panel
  | Ev_reset_progress_bar_with_delay bar _ => bar
  end.

Lemma drive_events_target env drive :
  Forall (fun ev => targets ev = Defragment) (drive_events env drive).
Proof.
  unfold drive_events. apply Forall_app. split.
  - apply Forall_map. by apply Forall_true.
  - by repeat constructor.
Qed.

(** C9. Defragment-and-optimize never consults the privilege gate.  For
    every answer [p] of the admin probe the run is the same one: it returns
    normally, starts [defrag C: /OPTIMIZE] and [defrag D: /OPTIMIZE] in that
    order, queues its own completion line and the progress reset last, and
    every entry it queues is addressed to the Defragment section, so the
    privilege-denial message is not among them. *)
Theorem defragment_ignores_privilege env p t w :
  wf w ->
  let w' := exec (defragment_drives (with_probe p env) t) w in
  defragment_drives (with_probe p env) t w = defragment_drives env t w /\
  outcome (defragment_drives (with_probe p env) t) w = Returns tt /\
  launched w' = launched w ++ ["defrag C: /OPTIMIZE"; "defrag D: /OPTIMIZE"] /\
  (exists evs,
     gui_queue w' =
       gui_queue w ++ evs
       ++ [ Ev_update_info_panel Defragment "Defragmentation and optimization completed.";
            Ev_reset_progress_bar_with_delay Defragment 1000 ] /\
     Forall (fun ev => targets ev = Defragment) evs /\
     Ev_update_info_panel SystemHealthCheck
       ("Admin privileges are required to perform this operation." +:+ Py.nl
        +:+ "Please restart the program as an administrator.") ∉ evs).
Proof.
  intros Hwf w'. subst w'. unfold outcome, exec.
  rewrite !defragment_drives_eq by done. cbn [fst snd].
  destruct (defragmented_fields (with_probe p env) t w) as (H1 & _ & H3 & _).
  split; [reflexivity|]. split; [reflexivity|]. split; [exact H3|].
  exists ([Ev_update_info_panel Defragment "Initialized Defragment and Optimize Drives"]
          ++ drive_events (with_probe p env) "C:" ++ drive_events (with_probe p env) "D:").
  assert (Hall : Forall (fun ev => targets ev = Defragment)
            ([Ev_update_info_panel Defragment "Initialized Defragment and Optimize Drives"]
             ++ drive_events (with_probe p env) "C:"
             ++ drive_events (with_probe p env) "D:")).
  { apply Forall_app. split; [by repeat constructor|].
    apply Forall_app. split; apply drive_events_target. }
  split; [|split; [exact Hall|]].
  - rewrite H1. by rewrite <- !app_assoc.
  - intros Hin. rewrite Forall_forall in Hall. by apply Hall in Hin.
Qed.

Lemma defragment_ignores_privilege_witness :
  wf (boot ∅) /\
  outcome (defragment_drives (with_probe (ProbeReturns false) fourth_fails) WorkerThread)
    (boot ∅) = Returns tt /\
  launched (exec (defragment_drives (with_probe (ProbeReturns false) fourth_fails)
                    WorkerThread) (boot ∅))
    = ["defrag C: /OPTIMIZE"; "defrag D: /OPTIMIZE"].
Proof.
  pose proof (defragment_ignores_privilege fourth_fails (ProbeReturns false)
                WorkerThread (boot ∅) (wf_boot ∅)) as (_ & H2 & H3 & _).
  split; [apply wf_boot|]. split; [exact H2 | exact H3].
Defined.


(** A machine on which [defrag C:] is gone after three polls with exit status 5. *)
Definition short_defrag : Env :=
  mkEnv (ProbeReturns true) (fun _ => Ran 0 "")
    (fun c => if String.eqb c "defrag C: /OPTIMIZE"
              then Spawned 3 5 "Access is denied."
              else Spawned 250 0 "")
    None
    (fun p => "C:\Users\u" +:+ substring 1 (String.length p) p)
    (fun _ => false).


(** ** Which thread touches the widgets *)

(** The Tk thread's side: one tick of [process_gui_queue] takes every queued
    entry, oldest first, makes its call on the Tk thread, leaves the queue
    empty and books the next tick 100 ms later. *)
Lemma process_gui_queue_fifo w :
  let w' := exec process_gui_queue w in
  outcome process_gui_queue w = Returns tt /\
  gui_queue w' = [] /\
  tk_calls w' =
    tk_calls w
    ++ map (fun ev => (UIThread, tk_call_of ev)) (gui_queue w)
    ++ [(UIThread, Tk_after 100 Cb_process_gui_queue)] /\
  timers w' =
    timers w ++ concat (map timer_of (gui_queue w)) ++ [(100, Cb_process_gui_queue)].
Proof.
  intros w'. subst w'. unfold outcome, exec. rewrite process_gui_queue_eq.
  destruct (drained_fields (gui_queue w) w eq_refl) as (H1 & H2 & _ & H4 & _).
  simpl. rewrite H1, H2, H4, <- !app_assoc. by repeat split.
Qed.

(** C4 (the code departs from the claim). A defragment run started from its
    button runs on a worker thread, and that thread itself empties the info
    panel, sets the bar's maximum and value and calls [update_idletasks]:
    the calls below are made by [WorkerThread], and the panel and the bar
    have changed before the Tk thread has taken anything from the queue. *)
Theorem worker_thread_mutates_widgets env w :
  wf w ->
  let w' := exec (press (defragment_drives env)) w in
  tk_calls w' =
    tk_calls w
    ++ [ (WorkerThread, Tk_panel_delete_all Defragment);
         (WorkerThread, Tk_progress_set_maximum Defragment 200) ]
    ++ drive_calls env WorkerThread 0 "C:" ++ drive_calls env WorkerThread 1 "D:"
    ++ [ (WorkerThread, Tk_progress_set_value Defragment 100);
         (WorkerThread, Tk_update_idletasks) ] /\
  ~ Forall (fun c => c.1 = UIThread) (drop (length (tk_calls w)) (tk_calls w')) /\
  info_panel w' = wset Defragment "" (info_panel w) /\
  progress_value w' = wset Defragment 100%float (progress_value w) /\
  progress_maximum w' = wset Defragment 200%float (progress_maximum w) /\
  gui_queue w <> gui_queue w'.
Proof.
  intros Hwf w'. subst w'. unfold press, exec.
  rewrite defragment_drives_eq by done. cbn [fst snd].
  destruct (defragmented_fields env WorkerThread w)
    as (H1 & H2 & _ & _ & H5 & H6 & H7 & _).
  rewrite H1, H2, H5, H6, H7.
  split; [reflexivity|]. split; [|split; [reflexivity|split; [reflexivity|split; [reflexivity|]]]].
  - rewrite drop_app_length. simpl. intros Hall.
    apply Forall_cons in Hall as [Hhd _]. discriminate Hhd.
  - intros Heq. apply (f_equal length) in Heq.
    rewrite !length_app in Heq. simpl in Heq. lia.
Qed.

Lemma worker_thread_mutates_witness :
  wf (boot ∅) /\
  tk_calls (exec (press (defragment_drives short_defrag)) (boot ∅)) !! 1
    = Some (WorkerThread, Tk_panel_delete_all Defragment) /\
  wget Defragment (progress_maximum (exec (press (defragment_drives short_defrag)) (boot ∅)))
    = 200%float.
Proof.
  pose proof (worker_thread_mutates_widgets short_defrag (boot ∅) (wf_boot ∅))
    as (H1 & _ & _ & _ & H5 & _).
  split; [apply wf_boot|]. split.
  - rewrite H1. reflexivity.
  - rewrite H5. reflexivity.
Defined.

(** ** Where the Defragment bar ends *)

(** The values a thread gave to the bar of a section, in order. *)
Definition values_set (bar : Section_) (calls : list (Thread * TkCall)) : list float :=
  omap (fun c =>
          match c.2 with
          | Tk_progress_set_value b v =>
              match bar, b with
              | SystemHealthCheck, SystemHealthCheck
              | DiskCleanup, DiskCleanup
              | Defragment, Defragment => Some v
              | _, _ => None
              end
          | _ => None
          end) calls.

(** C7 (the code departs from the claim). A defragment run sets the
    maximum of its bar to 200, one hundred steps for each of the two drives,
    and under the comment "Set progress to maximum" it sets the value to
    100: from any world of the program and whatever the [defrag] children do,
    the run returns with the bar at 100 of 200, below its maximum, and the
    reset to 0 after 1000 ms is the last entry it queues. *)
Theorem defragment_ends_at_half_of_its_maximum env t w :
  wf w ->
  let w' := exec (defragment_drives env t) w in
  outcome (defragment_drives env t) w = Returns tt /\
  wget Defragment (progress_maximum w') = 200%float /\
  wget Defragment (progress_value w') = 100%float /\
  (wget Defragment (progress_value w') <? wget Defragment (progress_maximum w'))%float
    = true /\
  last (values_set Defragment (tk_calls w')) = Some 100%float /\
  last (gui_queue w') = Some (Ev_reset_progress_bar_with_delay Defragment 1000).
Proof.
  intros Hwf w'. subst w'. unfold outcome, exec.
  rewrite defragment_drives_eq by done. cbn [fst snd].
  destruct (defragmented_fields env t w) as (H1 & H2 & _ & _ & H5 & H6 & _).
  rewrite H1, H2, H5, H6, !wget_wset.
  split; [reflexivity|]. split; [reflexivity|]. split; [reflexivity|].
  split; [reflexivity|]. split.
  - unfold values_set. rewrite !app_assoc, omap_app.
    match goal with
    | |- last (?l ++ ?r) = _ => change r with [100%float]
    end.
    by rewrite last_snoc.
  - rewrite !app_assoc, last_app. reflexivity.
Qed.

(** A machine on which both [defrag] children outlive the hundred polls. *)
Definition long_defrag : Env :=
  mkEnv (ProbeReturns true) (fun _ => Ran 0 "")
    (fun _ => Spawned 250 0 "")
    None
    (fun p => "C:\Users\u" +:+ substring 1 (String.length p) p)
    (fun _ => false).

(** On that machine the bar is at 200, all of its maximum, while the run is
    still going, and is then lowered to 100. *)
Lemma defragment_ends_at_half_witness :
  let w' := exec (defragment_drives long_defrag WorkerThread) (boot ∅) in
  wf (boot ∅) /\
  wget Defragment (progress_maximum w') = 200%float /\
  wget Defragment (progress_value w') = 100%float /\
  drop 198 (values_set Defragment (tk_calls w')) = [199%float; 200%float; 100%float].
Proof.
  intros w'.
  pose proof (defragment_ends_at_half_of_its_maximum long_defrag WorkerThread
                (boot ∅) (wf_boot ∅)) as H.
  cbv zeta in H. destruct H as (_ & H2 & H3 & _).
  split; [apply wf_boot|]. split; [exact H2|]. split; [exact H3|].
  subst w'. unfold exec. rewrite defragment_drives_eq by apply wf_boot. cbn [snd].
  destruct (defragmented_fields long_defrag WorkerThread (boot ∅)) as (_ & -> & _).
  by vm_compute.
Defined.

(** ** Disk cleanup: one removal *)

Definition removal_line (what path : string) (r : Removal) : LogRecord :=
  match r with
  | Removed => (INFO, "Deleted " +:+ what +:+ ": " +:+ path)
  | InUse => (WARNING, "In use by another program: " +:+ path)
  | Denied => (ERROR, "Permission denied for " +:+ path)
  | Fails e => (ERROR, "Error deleting " +:+ path +:+ ": " +:+ e)
  end.

Definition removal_event (path : string) (r : Removal) : list UIEvent :=
  match r with
  | Removed => []
  | InUse =>
      [Ev_update_info_panel DiskCleanup ("In use by another program: " +:+ path +:+ Py.nl)]
  | Denied =>
      [Ev_update_info_panel DiskCleanup ("Permission denied for " +:+ path +:+ Py.nl)]
  | Fails e =>
      [Ev_update_info_panel DiskCleanup ("Error deleting " +:+ path +:+ ": " +:+ e +:+ Py.nl)]
  end.

Definition tallied (path : string) (r : Removal) (tl : Tally) : Tally :=
  match r with
  | Removed =>
      mkTally (deleted_files tl ++ [path]) (in_use_files tl) (permission_denied_files tl)
  | InUse =>
      mkTally (deleted_files tl) (in_use_files tl ++ [path]) (permission_denied_files tl)
  | Denied =>
      mkTally (deleted_files tl) (in_use_files tl) (permission_denied_files tl ++ [path])
  | Fails _ => tl
  end.

(** The world after one removal was attempted and written down. *)
Definition noted (logger what path : string) (r : Removal) (w : World) : World :=
  emit logger (removal_line what path r).1 (removal_line what path r).2
    (with_gui_queue (gui_queue w ++ removal_event path r) w).

Lemma with_gui_queue_id w : with_gui_queue (gui_queue w) w = w.
Proof. by destruct w. Qed.

Lemma record_removal_eq logger what path r tl w :
  record_removal logger what path r tl w =
    (Returns (tallied path r tl), noted logger what path r w).
Proof.
  unfold noted. destruct r; simpl; try reflexivity.
  by rewrite app_nil_r, with_gui_queue_id.
Qed.

(** What a sweep may change besides the log files, the console and the
    swept directories: it queues entries for the Disk Cleanup panel. *)
Record sweeps_only (w w' : World) : Prop := mkSweepsOnly {
  so_queue : exists evs,
    gui_queue w' = gui_queue w ++ evs /\
    Forall (fun ev => exists m, ev = Ev_update_info_panel DiskCleanup m) evs;
  so_tk_calls : tk_calls w' = tk_calls w;
  so_progress_value : progress_value w' = progress_value w;
  so_progress_maximum : progress_maximum w' = progress_maximum w;
  so_info_panel : info_panel w' = info_panel w;
  so_timers : timers w' = timers w;
  so_launched : launched w' = launched w;
  so_slept_ms : slept_ms w' = slept_ms w;
  so_self_loggers : self_loggers w' = self_loggers w;
  so_logging_handlers : logging_handlers w' = logging_handlers w
}.

Lemma sweeps_only_refl w : sweeps_only w w.
Proof. split; try reflexivity. exists []. by rewrite app_nil_r. Qed.

Lemma sweeps_only_trans w1 w2 w3 :
  sweeps_only w1 w2 -> sweeps_only w2 w3 -> sweeps_only w1 w3.
Proof.
  intros [(e1 & Q1 & F1) ? ? ? ? ? ? ? ? ?] [(e2 & Q2 & F2) ? ? ? ? ? ? ? ? ?].
  split; try congruence.
  exists (e1 ++ e2). split.
  - by rewrite Q2, Q1, app_assoc.
  - by apply Forall_app.
Qed.

Lemma sweeps_only_emit logger lvl msg w : sweeps_only w (emit logger lvl msg w).
Proof.
  split; autorewrite with world; try reflexivity.
  exists []. by rewrite app_nil_r.
Qed.

Lemma sweeps_only_put m w :
  sweeps_only w (with_gui_queue (gui_queue w ++ [Ev_update_info_panel DiskCleanup m]) w).
Proof.
  split; try reflexivity.
  exists [Ev_update_info_panel DiskCleanup m]. split; [reflexivity|].
  repeat constructor. by exists m.
Qed.

Lemma sweeps_only_disk d w : sweeps_only w (with_disk d w).
Proof. split; try reflexivity. exists []. by rewrite app_nil_r. Qed.

Lemma sweeps_only_noted logger what path r w :
  sweeps_only w (noted logger what path r w).
Proof.
  unfold noted. eapply sweeps_only_trans; [|apply sweeps_only_emit].
  destruct r; simpl; try apply sweeps_only_put.
  rewrite app_nil_r, with_gui_queue_id. apply sweeps_only_refl.
Qed.

(** A command that returns and changes nothing but what a sweep may. *)
Definition sweeps {A} (m : M A) : Prop :=
  forall w, exists a w', m w = (Returns a, w') /\ sweeps_only w w'.

Lemma sweeps_ret {A} (a : A) : sweeps (ret a).
Proof. intros w. exists a, w. split; [reflexivity | apply sweeps_only_refl]. Qed.

Lemma sweeps_bind {A B} (m : M A) (k : A -> M B) :
  sweeps m -> (forall a, sweeps (k a)) -> sweeps (bind m k).
Proof.
  intros Hm Hk w. destruct (Hm w) as (a & w1 & E1 & S1).
  destruct (Hk a w1) as (b & w2 & E2 & S2).
  exists b, w2. split.
  - by rewrite (bind_returns _ _ _ _ _ E1).
  - by eapply sweeps_only_trans.
Qed.

Lemma sweeps_record_removal logger what path r tl :
  sweeps (record_removal logger what path r tl).
Proof.
  intros w. eexists _, _. split; [apply record_removal_eq|].
  apply sweeps_only_noted.
Qed.

Lemma sweeps_unlink_files logger root_dir entries tl :
  sweeps (unlink_files logger root_dir entries tl).
Proof.
  revert tl. induction entries as [|[name r|name r sub] rest IH]; intros tl; simpl.
  - apply sweeps_ret.
  - apply sweeps_bind; [apply sweeps_record_removal|]. intros tl'.
    apply sweeps_bind; [apply IH|]. intros [rest' tl'']. apply sweeps_ret.
  - apply sweeps_bind; [apply IH|]. intros [rest' tl']. apply sweeps_ret.
Qed.

Lemma sweeps_rmdir_dirs logger root_dir entries tl :
  sweeps (rmdir_dirs logger root_dir entries tl).
Proof.
  revert tl. induction entries as [|[name r|name r sub] rest IH]; intros tl; simpl.
  - apply sweeps_ret.
  - apply sweeps_bind; [apply IH|]. intros [rest' tl']. apply sweeps_ret.
  - apply sweeps_bind; [apply sweeps_record_removal|]. intros tl'.
    apply sweeps_bind; [apply IH|]. intros [rest' tl'']. apply sweeps_ret.
Qed.

(** Induction on directory trees. *)
Fixpoint Node_tree_ind (P : Node -> Prop)
    (HF : forall name r, P (File name r))
    (HD : forall name r sub, Forall P sub -> P (Dir name r sub))
    (n : Node) : P n :=
  match n with
  | File name r => HF name r
  | Dir name r sub =>
      HD name r sub
        ((fix all (l : list Node) : Forall P l :=
            match l with
            | [] => List.Forall_nil P
            | c :: cs => @List.Forall_cons _ P c cs (Node_tree_ind P HF HD c) (all cs)
            end) sub)
  end.

Lemma sweeps_sweep_node logger n :
  forall root_dir tl, sweeps (sweep_node logger root_dir n tl).
Proof.
  induction n as [name r|name r sub IH] using Node_tree_ind; intros root_dir tl.
  - apply sweeps_ret.
  - simpl. apply sweeps_bind.
    + generalize tl. clear tl.
      induction IH as [|c cs Hc _ IHcs]; intros tl; [apply sweeps_ret|].
      apply sweeps_bind; [apply Hc|]. intros [c' tl'].
      apply sweeps_bind; [apply IHcs|]. intros [cs' tl'']. apply sweeps_ret.
    + intros [sub1 tl1]. apply sweeps_bind; [apply sweeps_unlink_files|].
      intros [sub2 tl2]. apply sweeps_bind; [apply sweeps_rmdir_dirs|].
      intros [sub3 tl3]. apply sweeps_ret.
Qed.

Lemma sweeps_sweep_nodes logger root_dir l tl :
  sweeps (sweep_nodes logger root_dir l tl).
Proof.
  revert tl. induction l as [|c cs IH]; intros tl; simpl; [apply sweeps_ret|].
  apply sweeps_bind; [apply sweeps_sweep_node|]. intros [c' tl'].
  apply sweeps_bind; [apply IH|]. intros [cs' tl'']. apply sweeps_ret.
Qed.

Lemma sweeps_log logger lvl msg : sweeps (Logger_log logger lvl msg).
Proof.
  intros w. exists tt, (emit logger lvl msg w).
  split; [reflexivity | apply sweeps_only_emit].
Qed.

Lemma sweeps_tell m : sweeps (thread_safe_update_info_panel DiskCleanup m).
Proof. intros w. eexists _, _. split; [reflexivity | apply sweeps_only_put]. Qed.

Lemma sweeps_sweep_path env logger tl path : sweeps (sweep_path env logger tl path).
Proof.
  intros w. unfold sweep_path. rewrite (bind_returns get_world _ w w w eq_refl).
  assert (Hmiss : forall text1 text2,
    sweeps (thread_safe_update_info_panel DiskCleanup text1 ;;
            Logger_log logger WARNING text2 ;; ret tl)).
  { intros. apply sweeps_bind; [apply sweeps_tell|]. intros _.
    apply sweeps_bind; [apply sweeps_log|]. intros _. apply sweeps_ret. }
  destruct path as [p|]; [|apply Hmiss].
  destruct (Py.truthy p); [|apply Hmiss].
  destruct (disk w !! p) as [entries|];
    [|destruct (plain_file env p); [apply sweeps_ret | apply Hmiss]].
  revert w. apply sweeps_bind; [apply sweeps_sweep_nodes|]. intros [e1 tl1].
  apply sweeps_bind; [apply sweeps_unlink_files|]. intros [e2 tl2].
  apply sweeps_bind; [apply sweeps_rmdir_dirs|]. intros [e3 tl3].
  apply sweeps_bind; [|intros _; apply sweeps_ret].
  intros w. eexists _, _. split; [reflexivity | apply sweeps_only_disk].
Qed.

Lemma sweeps_sweep_paths env logger paths tl :
  sweeps (sweep_paths env logger tl paths).
Proof.
  revert tl. induction paths as [|path rest IH]; intros tl; simpl.
  - apply sweeps_ret.
  - apply sweeps_bind; [apply sweeps_sweep_path | intros tl'; apply IH].
Qed.

(** ** Disk cleanup: the whole run *)

Definition cleanup_prelude (t : Thread) (w : World) : World :=
  exec (clear_info_panel t DiskCleanup ;;
        thread_safe_update_info_panel DiskCleanup ("Starting Disk Cleanup..." +:+ Py.nl)) w.

Definition cleanup_epilogue (t : Thread) (tl : Tally) (w : World) : World :=
  exec (Logger_log "disk_cleanup" INFO "Disk Cleanup Completed" ;;
        Logger_log "disk_cleanup" INFO
          ("Deleted Files: " +:+ pretty (length (deleted_files tl))) ;;
        Logger_log "disk_cleanup" INFO
          ("In Use Files: " +:+ pretty (length (in_use_files tl))) ;;
        Logger_log "disk_cleanup" INFO
          ("Permission Denied Files: " +:+ pretty (length (permission_denied_files tl))) ;;
        thread_safe_update_info_panel DiskCleanup (completion_message tl) ;;
        progress_set_value t DiskCleanup 100 ;;
        update_idletasks t ;;
        gui_queue_put (Ev_reset_progress_bar_with_delay DiskCleanup 1000)) w.

(** With administrative rights the run is: prelude, sweep of the three
    paths, epilogue on the tallies of the sweep. *)
Lemma disk_cleanup_admin env t w :
  wf w -> admin env = true ->
  exists tl w2,
    sweep_paths env "disk_cleanup" (mkTally [] [] []) (cleanup_paths env)
      (cleanup_prelude t w) = (Returns tl, w2) /\
    sweeps_only (cleanup_prelude t w) w2 /\
    disk_cleanup env t w = (Returns tt, cleanup_epilogue t tl w2).
Proof.
  intros Hwf Hadm.
  destruct (sweeps_sweep_paths env "disk_cleanup" (cleanup_paths env) (mkTally [] [] [])
              (cleanup_prelude t w)) as (tl & w2 & E & S).
  exists tl, w2. split; [exact E|]. split; [exact S|].
  unfold disk_cleanup.
  rewrite (bind_returns _ _ w true w)
    by (by rewrite ensure_admin_eq, Hadm, probed_admin).
  cbn [negb].
  rewrite (bind_returns _ _ w "disk_cleanup" w)
    by (by rewrite self_loggers_item_wf).
  rewrite (bind_returns _ _ w tt (exec (clear_info_panel t DiskCleanup) w)) by reflexivity.
  rewrite (bind_returns _ _ _ tt (cleanup_prelude t w)) by reflexivity.
  rewrite (bind_returns _ _ _ _ _ E).
  reflexivity.
Qed.

(** What every administrator's disk cleanup does to the widgets, whatever
    the directories hold: the worker empties the panel at the start and sets
    the bar to 100 at the end, and nothing in between. *)
Lemma disk_cleanup_widgets env t w :
  wf w -> admin env = true ->
  let w' := exec (disk_cleanup env t) w in
  outcome (disk_cleanup env t) w = Returns tt /\
  tk_calls w' =
    tk_calls w
    ++ [ (t, Tk_panel_delete_all DiskCleanup);
         (t, Tk_progress_set_value DiskCleanup 100);
         (t, Tk_update_idletasks) ] /\
  progress_value w' = wset DiskCleanup 100%float (progress_value w) /\
  progress_maximum w' = progress_maximum w /\
  launched w' = launched w /\
  timers w' = timers w /\
  last (gui_queue w') = Some (Ev_reset_progress_bar_with_delay DiskCleanup 1000).
Proof.
  intros Hwf Hadm w'. subst w'.
  destruct (disk_cleanup_admin env t w Hwf Hadm) as (tl & w2 & _ & S & E).
  unfold outcome, exec. rewrite E. cbn [fst snd].
  destruct S as [_ S1 S2 S3 _ S5 S6 _ _ _].
  unfold cleanup_epilogue, exec. fields.
  rewrite S1, S2, S3, S5, S6. unfold cleanup_prelude, exec. fields.
  rewrite last_snoc, <- !app_assoc. by repeat split.
Qed.

(** ** Log files as they grow *)

Definition logged (file : string) (lines : list LogRecord)
    (d : gmap string (list LogRecord)) : gmap string (list LogRecord) :=
  alter (fun content => content ++ lines) file d.

Lemma logged_nil file (d : gmap string (list LogRecord)) : logged file [] d = d.
Proof. apply alter_id. intros x _. apply app_nil_r. Qed.

Lemma logged_logged file l1 l2 (d : gmap string (list LogRecord)) :
  logged file l2 (logged file l1 d) = logged file (l1 ++ l2) d.
Proof.
  apply map_eq. intros i. unfold logged.
  destruct (decide (file = i)) as [->|Hne].
  - rewrite !lookup_alter_eq. destruct (d !! i); simpl; [|reflexivity].
    by rewrite app_assoc.
  - by rewrite !lookup_alter_ne.
Qed.

Lemma lookup_logged file lines (d : gmap string (list LogRecord)) :
  logged file lines d !! file = (fun content => content ++ lines) <$> d !! file.
Proof. apply lookup_alter_eq. Qed.

Lemma lookup_logged_ne file file' lines (d : gmap string (list LogRecord)) :
  file <> file' -> logged file lines d !! file' = d !! file'.
Proof. intros. by apply lookup_alter_ne. Qed.

Lemma log_dir_emit logger file lvl msg w :
  handlers_of logger w = [file] ->
  lvl <> DEBUG ->
  log_dir (emit logger lvl msg w) = logged file [(lvl, msg)] (log_dir w).
Proof.
  intros Hh Hlvl. rewrite emit_eq, Hh. simpl.
  unfold emit_log_dir. by destruct lvl.
Qed.


(** ** Disk cleanup of a directory that holds files only *)





























(** An administrator whose [TEMP] is the default one, the very directory
    that [~\AppData\Local\Temp] expands to. *)
Definition administrator : Env :=
  mkEnv (ProbeReturns true) (fun _ => Ran 0 "") (fun _ => Spawned 3 0 "")
    (Some "C:\Users\u\AppData\Local\Temp")
    (fun p => "C:\Users\u" +:+ substring 1 (String.length p) p)
    (fun _ => false).




(** ** Clearing the logs *)

Lemma self_loggers_item_eq key logger w :
  Py.dict_get (self_loggers w) key = Some logger ->
  self_loggers_item key w = (Returns logger, w).
Proof.
  intros H. unfold self_loggers_item.
  rewrite (bind_returns get_world _ w w w eq_refl), H. reflexivity.
Qed.

(** The handler table once every logger has lost its handler. *)
Definition no_handlers : gmap string (list string) :=
  Eval vm_compute in logging_handlers (exec remove_file_handlers (boot ∅)).

Definition init_output : list ConsoleLine :=
  Eval vm_compute in console (exec initialize_loggers (blank ∅)).

Lemma remove_file_handlers_wf w :
  wf w ->
  remove_file_handlers w = (Returns tt, with_logging_handlers no_handlers w).
Proof.
  intros [H1 H2 _]. destruct w. simpl in H1, H2. subst.
  vm_compute. reflexivity.
Qed.

Lemma no_handlers_empty k hs : no_handlers !! k = Some hs -> hs = [].
Proof.
  revert k hs. change (map_Forall (fun _ hs => hs = []) no_handlers).
  apply (bool_decide_unpack _). vm_compute. exact I.
Qed.

Lemma is_open_no_handlers file w :
  logging_handlers w = no_handlers -> is_open file w = false.
Proof.
  intros Hh. unfold is_open. apply bool_decide_eq_false.
  intros (k & hs & Hk & Hin). rewrite Hh in Hk.
  apply no_handlers_empty in Hk. subst hs. by apply not_elem_of_nil in Hin.
Qed.

Lemma handlers_of_no_handlers k w :
  logging_handlers w = no_handlers -> handlers_of k w = [].
Proof.
  intros Hh. unfold handlers_of. rewrite Hh.
  destruct (no_handlers !! k) as [hs|] eqn:E; [|reflexivity].
  by apply no_handlers_empty in E.
Qed.

(** With no handler left, a log call can only reach the console. *)
Lemma emit_no_handlers logger lvl msg w :
  logging_handlers w = no_handlers ->
  exists c, emit logger lvl msg w = with_console c w.
Proof.
  intros Hh. rewrite emit_eq, (handlers_of_no_handlers _ _ Hh).
  exists (emit_console lvl msg [] (root_has_handlers w) (console w)).
  unfold emit_log_dir. destruct lvl; simpl; by destruct w.
Qed.

Lemma delete_log_file_released file w :
  self_loggers w = app_loggers ->
  logging_handlers w = no_handlers ->
  exists c,
    delete_log_file file w =
      (Returns tt, with_console c (with_log_dir (delete file (log_dir w)) w)).
Proof.
  intros Hs Hh. unfold delete_log_file.
  rewrite (bind_returns get_world _ w w w eq_refl), (is_open_no_handlers _ _ Hh).
  rewrite (bind_returns _ _ w tt (with_log_dir (delete file (log_dir w)) w))
    by reflexivity.
  rewrite (bind_returns _ _ _ "error_logger"
             (with_log_dir (delete file (log_dir w)) w))
    by (apply self_loggers_item_eq; simpl; by rewrite Hs).
  destruct (emit_no_handlers "error_logger" INFO ("Cleared log file: " +:+ file)
              (with_log_dir (delete file (log_dir w)) w) Hh) as [c Hc].
  exists c. unfold Logger_log, modify. by rewrite Hc.
Qed.

Lemma for_each_delete_log_file files w :
  self_loggers w = app_loggers ->
  logging_handlers w = no_handlers ->
  exists c,
    for_each delete_log_file files w =
      (Returns tt,
       with_console c
         (with_log_dir (foldl (fun d f => delete f d) (log_dir w) files) w)).
Proof.
  revert w. induction files as [|f files IH]; intros w Hs Hh.
  - exists (console w). simpl. unfold ret. by destruct w.
  - destruct (delete_log_file_released f w Hs Hh) as [c1 E1].
    simpl. rewrite (bind_returns _ _ _ _ _ E1).
    destruct (IH (with_console c1 (with_log_dir (delete f (log_dir w)) w)) Hs Hh)
      as [c2 E2].
    rewrite E2. exists c2. by destruct w.
Qed.

Lemma delete_all_keys {A} (d : gmap string A) :
  foldl (fun d f => delete f d) d (map fst (map_to_list d)) = ∅.
Proof.
  assert (Hgen : forall (files : list string) (m : gmap string A) k,
            foldl (fun d f => delete f d) m files !! k =
              if bool_decide (k ∈ files) then None else m !! k).
  { induction files as [|f files IH]; intros m k; simpl; [reflexivity|].
    rewrite IH. destruct (decide (k = f)) as [->|Hne].
    - rewrite lookup_delete_eq. rewrite (bool_decide_eq_true_2 (f ∈ f :: files)).
      + by destruct (bool_decide (f ∈ files)).
      + by left.
    - rewrite lookup_delete_ne by done.
      destruct (bool_decide (k ∈ files)) eqn:E.
      + apply bool_decide_eq_true in E.
        rewrite (bool_decide_eq_true_2 (k ∈ f :: files)); [done | by right].
      + apply bool_decide_eq_false in E.
        rewrite (bool_decide_eq_false_2 (k ∈ f :: files)); [done|].
        intros [?|?]%elem_of_cons; done. }
  apply map_eq. intros k. rewrite Hgen, lookup_empty.
  destruct (d !! k) as [x|] eqn:E; [|by destruct (bool_decide _)].
  rewrite bool_decide_eq_true_2; [done|].
  apply list_elem_of_fmap. exists (k, x). split; [done|].
  by apply elem_of_map_to_list.
Qed.

Lemma delete_log_files_released w :
  self_loggers w = app_loggers ->
  logging_handlers w = no_handlers ->
  exists c, delete_log_files w = (Returns tt, with_console c (with_log_dir ∅ w)).
Proof.
  intros Hs Hh. unfold delete_log_files.
  rewrite (bind_returns get_world _ w w w eq_refl).
  destruct (for_each_delete_log_file (map fst (map_to_list (log_dir w))) w Hs Hh)
    as [c E].
  exists c. by rewrite E, delete_all_keys.
Qed.

(** Step 3 on released, deleted logs: every logger gets a new handler on a
    new, empty file. *)
Lemma initialize_loggers_fresh w :
  logging_handlers w = no_handlers ->
  log_dir w = ∅ ->
  initialize_loggers w =
    (Returns tt,
     with_console (foldl (fun c l => c ++ [l]) (console w) init_output)
       (with_log_dir (log_dir (boot ∅))
          (with_logging_handlers (logging_handlers (boot ∅))
             (with_self_loggers app_loggers w)))).
Proof.
  intros Hh Hd. destruct w. simpl in Hh, Hd. subst.
  vm_compute. reflexivity.
Qed.

Lemma world_eq (w1 w2 : World) :
  self_loggers w1 = self_loggers w2 ->
  logging_handlers w1 = logging_handlers w2 ->
  root_has_handlers w1 = root_has_handlers w2 ->
  log_dir w1 = log_dir w2 ->
  console w1 = console w2 ->
  gui_queue w1 = gui_queue w2 ->
  info_panel w1 = info_panel w2 ->
  progress_value w1 = progress_value w2 ->
  progress_maximum w1 = progress_maximum w2 ->
  timers w1 = timers w2 ->
  tk_calls w1 = tk_calls w2 ->
  launched w1 = launched w2 ->
  slept_ms w1 = slept_ms w2 ->
  disk w1 = disk w2 ->
  w1 = w2.
Proof. destruct w1, w2. simpl. intros. by subst. Qed.

Lemma clear_all_logs_wf t w :
  wf w ->
  exists c,
    clear_all_logs t w =
      (Returns tt,
       with_tk_calls
         (tk_calls w
          ++ [(t, Tk_messagebox "showinfo" "Logs Cleared" "All log files have been cleared.")])
         (with_console c (with_log_dir (log_dir (boot ∅)) w))).
Proof.
  intros Hwf. unfold clear_all_logs.
  rewrite (bind_returns _ _ _ _ _ (remove_file_handlers_wf w Hwf)).
  destruct (delete_log_files_released (with_logging_handlers no_handlers w))
    as [c1 E1]; [apply (wf_loggers _ Hwf) | reflexivity |].
  rewrite (bind_returns _ _ _ _ _ E1).
  rewrite (bind_returns _ _ _ _ _
             (initialize_loggers_fresh
                (with_console c1 (with_log_dir ∅ (with_logging_handlers no_handlers w)))
                eq_refl eq_refl)).
  exists (foldl (fun c l => c ++ [l]) c1 init_output).
  unfold messagebox, tk, modify. f_equal.
  destruct Hwf as [H1 H2 _]. revert H2.
  generalize (logging_handlers (boot ∅)), (log_dir (boot ∅)). intros H L H2.
  apply world_eq; cbn [self_loggers logging_handlers root_has_handlers log_dir console
                       gui_queue info_panel progress_value progress_maximum timers
                       tk_calls launched slept_ms disk
                       with_tk_calls with_console with_log_dir with_logging_handlers
                       with_self_loggers];
    try reflexivity; by symmetry.
Qed.

Lemma fresh_files :
  Forall (fun p => log_dir (boot ∅) !! p.2 = Some []) app_handlers.
Proof. unfold app_handlers. repeat constructor. Qed.

(** After [clear_all_logs], field by field. *)
Lemma clear_all_logs_fields t w :
  wf w ->
  outcome (clear_all_logs t) w = Returns tt /\
  self_loggers (exec (clear_all_logs t) w) = self_loggers w /\
  logging_handlers (exec (clear_all_logs t) w) = logging_handlers w /\
  log_dir (exec (clear_all_logs t) w) = log_dir (boot ∅) /\
  tk_calls (exec (clear_all_logs t) w) =
    tk_calls w
    ++ [(t, Tk_messagebox "showinfo" "Logs Cleared" "All log files have been cleared.")] /\
  gui_queue (exec (clear_all_logs t) w) = gui_queue w /\
  disk (exec (clear_all_logs t) w) = disk w /\
  launched (exec (clear_all_logs t) w) = launched w.
Proof.
  intros Hwf. destruct (clear_all_logs_wf t w Hwf) as [c E].
  unfold outcome, exec. rewrite E. clear E.
  generalize (log_dir (boot ∅)). intros L. project. by repeat split.
Qed.

Lemma wf_cleared t w : wf w -> wf (exec (clear_all_logs t) w).
Proof.
  intros Hwf.
  destruct (clear_all_logs_fields t w Hwf) as (_ & F1 & F2 & F3 & _).
  destruct Hwf as [H1 H2 _].
  split.
  - by rewrite F1.
  - by rewrite F2.
  - intros name file Hin. rewrite F3.
    pose proof fresh_files as Hall. rewrite Forall_forall in Hall.
    specialize (Hall _ Hin). cbn [snd] in Hall. rewrite Hall. eauto.
Qed.

Lemma fresh_log_dir_empty f content :
  log_dir (boot ∅) !! f = Some content -> content = [].
Proof.
  revert f content.
  change (map_Forall (fun _ content => content = []) (log_dir (boot ∅))).
  apply (bool_decide_unpack _). vm_compute. exact I.
Qed.

Lemma exec_Logger_log logger lvl msg w :
  exec (Logger_log logger lvl msg) w = emit logger lvl msg w.
Proof. reflexivity. Qed.

(** C5, as amended. Clear, then write.  From any world the program can be
    in, for every channel (a logger of [self.loggers] with its file) and
    every log call at level [INFO] or above: [clear_all_logs]
    returns, having taken every handler off its logger before any file was
    removed, so no removal fails; every file of the log directory is then
    empty and the channel has a handler again; the write returns and the
    channel's file holds exactly the record just written. *)
Theorem clear_then_write_leaves_only_the_new_record t w name file lvl msg :
  wf w ->
  (name, file) ∈ app_handlers ->
  lvl <> DEBUG ->
  let w1 := exec (clear_all_logs t) w in
  let w2 := exec (Logger_log name lvl msg) w1 in
  outcome (clear_all_logs t) w = Returns tt /\
  (forall f content, log_dir w1 !! f = Some content -> content = []) /\
  log_dir w1 !! file = Some [] /\
  handlers_of name w1 = [file] /\
  outcome (Logger_log name lvl msg) w1 = Returns tt /\
  log_dir w2 !! file = Some [(lvl, msg)] /\
  wf w2.
Proof.
  intros Hwf Hin Hlvl w1 w2.
  assert (Hwf1 : wf w1) by (by apply wf_cleared).
  destruct (clear_all_logs_fields t w Hwf) as (F0 & _ & _ & F3 & _).
  fold w1 in F3.
  assert (Hfile : log_dir w1 !! file = Some []).
  { rewrite F3. pose proof fresh_files as Hall. rewrite Forall_forall in Hall.
    specialize (Hall _ Hin). by cbn [snd] in Hall. }
  assert (Hh : handlers_of name w1 = [file]) by (by apply handlers_of_wf).
  assert (Hw2 : log_dir w2 = logged file [(lvl, msg)] (log_dir w1)).
  { subst w2. rewrite exec_Logger_log. by apply log_dir_emit. }
  split; [exact F0|].
  split; [intros f content; rewrite F3; apply fresh_log_dir_empty|].
  split; [exact Hfile|]. split; [exact Hh|]. split; [reflexivity|].
  split; [by rewrite Hw2, lookup_logged, Hfile|].
  destruct Hwf1 as [H1 H2 H3].
  split.
  - subst w2. rewrite exec_Logger_log. by autorewrite with world.
  - subst w2. rewrite exec_Logger_log. by autorewrite with world.
  - intros n f Hnf. destruct (H3 n f Hnf) as [old Hold].
    rewrite Hw2.
    destruct (decide (file = f)) as [->|Hne].
    + rewrite lookup_logged, Hold. eauto.
    + rewrite lookup_logged_ne by done. eauto.
Qed.

(** Log calls and queue entries keep a world well formed. *)
Lemma append_to_is_Some r hs (d : gmap string (list LogRecord)) f :
  is_Some (d !! f) -> is_Some (append_to r hs d !! f).
Proof.
  revert d. induction hs as [|h hs IH]; intros d Hd; [exact Hd|].
  simpl. apply IH. destruct Hd as [x Hx].
  destruct (decide (h = f)) as [->|Hne].
  - rewrite lookup_alter_eq, Hx. eauto.
  - rewrite lookup_alter_ne by done. eauto.
Qed.

Lemma wf_emit logger lvl msg w : wf w -> wf (emit logger lvl msg w).
Proof.
  intros [H1 H2 H3]. split; autorewrite with world; [done | done |].
  intros name file Hin. rewrite emit_eq. project.
  unfold emit_log_dir. destruct (levelno lvl <? levelno INFO)%nat.
  - by apply (H3 name).
  - apply append_to_is_Some. by apply (H3 name).
Qed.

Lemma wf_with_gui_queue q w : wf w -> wf (with_gui_queue q w).
Proof. intros [H1 H2 H3]. by split. Qed.

Lemma wf_denied env w : wf w -> wf (denied env w).
Proof.
  intros Hwf. unfold denied.
  by apply wf_with_gui_queue, wf_emit, wf_probed.
Qed.

Lemma disk_cleanup_denied env t w :
  wf w -> admin env = false -> exec (disk_cleanup env t) w = denied env w.
Proof.
  intros Hwf Hadm. unfold exec, disk_cleanup, bind.
  by rewrite ensure_admin_eq, Hadm.
Qed.

(** A world in which the logs already hold records, reached by a denied
    disk cleanup after start-up. *)
Lemma clear_then_write_witness :
  let w := exec (disk_cleanup plain_user WorkerThread) (boot temp_dir) in
  wf w /\
  log_dir w !! "error.log"
    = Some [(ERROR, "Admin privileges are required to perform this operation.")] /\
  log_dir (exec (Logger_log "error_logger" WARNING "after the clear")
             (exec (clear_all_logs UIThread) w)) !! "error.log"
    = Some [(WARNING, "after the clear")].
Proof.
  intros w.
  assert (Hw : w = denied plain_user (boot temp_dir)).
  { apply disk_cleanup_denied; [apply wf_boot | reflexivity]. }
  assert (Hwf : wf w).
  { rewrite Hw. apply wf_denied, wf_boot. }
  split; [exact Hwf|]. split; [by vm_compute|].
  pose proof (clear_then_write_leaves_only_the_new_record UIThread w
                "error_logger" "error.log" WARNING "after the clear"
                Hwf error_logger_handler) as H.
  apply H. discriminate.
Defined.

Lemma emit_debug logger msg w : emit logger DEBUG msg w = w.
Proof.
  rewrite emit_eq. unfold emit_console, emit_log_dir.
  cbn [levelno Nat.ltb Nat.leb]. by rewrite with_log_dir_id, with_console_id.
Qed.

(** C5, the claim as written, fails for a write below the level of the
    logger.  Every logger of the program is made with level [INFO], and the
    program itself writes at [DEBUG] (in [clear_all_logs]).  After a clear,
    a [debug] call on the error logger returns, and [error.log] is empty: it
    does not hold what was written. *)
Lemma debug_write_after_clear_is_dropped :
  let w1 := exec (clear_all_logs UIThread) (boot ∅) in
  let w2 :=
    exec (Logger_log "error_logger" DEBUG "Removed handler from logger 'defragment'")
      w1 in
  wf (boot ∅) /\
  outcome (clear_all_logs UIThread) (boot ∅) = Returns tt /\
  outcome (Logger_log "error_logger" DEBUG "Removed handler from logger 'defragment'") w1
    = Returns tt /\
  log_dir w2 !! "error.log" = Some [] /\
  log_dir w2 !! "error.log"
    <> Some [(DEBUG, "Removed handler from logger 'defragment'")].
Proof.
  intros w1 w2.
  destruct (clear_all_logs_fields UIThread (boot ∅) (wf_boot ∅)) as (F0 & _ & _ & F3 & _).
  fold w1 in F3.
  assert (Hd : log_dir w2 !! "error.log" = Some []).
  { subst w2. rewrite exec_Logger_log, emit_debug, F3.
    pose proof fresh_files as Hall. rewrite Forall_forall in Hall.
    apply (Hall _ error_logger_handler). }
  split; [apply wf_boot|]. split; [exact F0|]. split; [reflexivity|].
  split; [exact Hd|].
  intros Hx. pose proof (eq_trans (eq_sym Hd) Hx) as Hy. discriminate Hy.
Qed.

(** A file that is still held open survives step 2: this is why step 1
    comes first. *)
Lemma is_open_wf w name file :
  wf w -> (name, file) ∈ app_handlers -> is_open file w = true.
Proof.
  intros Hwf Hin. unfold is_open. rewrite (wf_handlers _ Hwf).
  assert (Hall : Forall (fun p =>
            bool_decide (map_Exists (fun _ hs => p.2 ∈ hs) (logging_handlers (boot ∅)))
              = true) app_handlers).
  { unfold app_handlers. repeat constructor. }
  rewrite Forall_forall in Hall. apply (Hall _ Hin).
Qed.

Lemma held_file_survives w name file :
  wf w -> (name, file) ∈ app_handlers ->
  is_Some (log_dir (exec (delete_log_file file) w) !! file).
Proof.
  intros Hwf Hin. unfold exec, delete_log_file.
  rewrite (bind_returns get_world _ w w w eq_refl), (is_open_wf w name file) by done.
  rewrite (bind_returns _ _ _ "error_logger" w)
    by (apply self_loggers_item_eq; by rewrite (wf_loggers _ Hwf)).
  unfold Logger_log, modify. simpl.
  rewrite (log_dir_emit "error_logger" "error.log");
    [| by apply handlers_of_wf, error_logger_handler | done].
  destruct (wf_files _ Hwf name file Hin) as [old Hold].
  destruct (decide ("error.log" = file)) as [<-|Hne].
  - rewrite lookup_logged, Hold. eauto.
  - rewrite lookup_logged_ne by done. eauto.
Qed.

(** ** The loop of the health check, taken on its own

    [start_health_check] never reaches its loop from a world of the program
    (see above); the loop itself is still code of the repository, and what
    it would do with a complete dict of loggers is recorded here. *)

Definition step_exit (o : RunOutcome) : LoopExit :=
  match o with
  | Ran _ _ => Continue
  | TimeoutExpired | RunRaises _ => Break
  end.

Definition step_report (i : nat) (o : RunOutcome) : Level * string :=
  match o with
  | Ran returncode _ =>
      if (returncode =? 0)%Z
      then (INFO, "Command " +:+ pretty i +:+ " completed successfully.")
      else (ERROR, "Command " +:+ pretty i +:+ " failed with error code: "
                   +:+ pretty returncode)
  | TimeoutExpired => (ERROR, "Command " +:+ pretty i +:+ " timed out.")
  | RunRaises e => (ERROR, "Error executing command " +:+ pretty i +:+ ": " +:+ e)
  end.

Definition output_lines (o : RunOutcome) : list string :=
  match o with
  | Ran _ stdout =>
      if Py.truthy stdout then map Py.strip (Py.splitlines stdout) else []
  | TimeoutExpired | RunRaises _ => []
  end.

(** The world after one turn of the loop. *)
Definition stepped (env : Env) (t : Thread) (logger : string) (total : nat)
    (progress_increment : float) (i : nat) (command : string) (w : World) : World :=
  let o := subprocess_run env command in
  let w1 :=
    with_launched (launched w ++ [command])
      (with_gui_queue
         (gui_queue w
          ++ [Ev_update_info_panel SystemHealthCheck
                ("Executing command " +:+ pretty i +:+ "/" +:+ pretty total
                 +:+ ": " +:+ command)]) w) in
  let w2 := foldl (fun w line => emit logger INFO line w) w1 (output_lines o) in
  let w3 :=
    emit logger (step_report i o).1 (step_report i o).2
      (with_gui_queue
         (gui_queue w2 ++ [Ev_update_info_panel SystemHealthCheck (step_report i o).2])
         w2) in
  exec (advance_progress t progress_increment) w3.

Lemma for_each_log logger lvl (lines : list string) w :
  for_each (fun line => Logger_log logger lvl (Py.strip line)) lines w =
    (Returns tt, foldl (fun w line => emit logger lvl line w) w (map Py.strip lines)).
Proof.
  revert w. induction lines as [|l lines IH]; intros w; [reflexivity|].
  simpl. unfold bind at 1. unfold Logger_log at 1, modify. by rewrite IH.
Qed.

Lemma health_check_step_eq env t loggers total inc i name command w el :
  Py.dict_get (self_loggers w) "error_logger" = Some el ->
  health_check_step env t loggers total inc i name command w =
    (Returns (step_exit (subprocess_run env command)),
     stepped env t (default el (Py.dict_get loggers name)) total inc i command w).
Proof.
  intros Hel. unfold health_check_step, stepped.
  erewrite bind_returns by reflexivity.
  erewrite bind_returns by (by apply self_loggers_item_eq).
  unfold run. erewrite bind_returns by reflexivity.
  set (logger := default el (Py.dict_get loggers name)).
  set (w1 := with_launched _ _).
  destruct (subprocess_run env command) as [rc out| |e]; cbn [output_lines step_report].
  - rewrite (bind_returns _ _ w1 tt
               (if Py.truthy out
                then foldl (fun w line => emit logger INFO line w) w1
                       (map Py.strip (Py.splitlines out))
                else w1))
      by (destruct (Py.truthy out); [apply for_each_log | reflexivity]).
    assert (Hw2 : (if Py.truthy out
                   then foldl (fun w line => emit logger INFO line w) w1
                          (map Py.strip (Py.splitlines out))
                   else w1)
                  = foldl (fun w line => emit logger INFO line w) w1
                      (if Py.truthy out then map Py.strip (Py.splitlines out) else []))
      by (by destruct (Py.truthy out)).
    rewrite Hw2. by destruct (rc =? 0)%Z.
  - reflexivity.
  - reflexivity.
Qed.

Lemma handlers_of_with_gui_queue k q w :
  handlers_of k (with_gui_queue q w) = handlers_of k w.
Proof. reflexivity. Qed.

Lemma logged_lines_fields logger lvl (lines : list string) w :
  let w' := foldl (fun w line => emit logger lvl line w) w lines in
  gui_queue w' = gui_queue w /\ launched w' = launched w /\
  tk_calls w' = tk_calls w /\ progress_value w' = progress_value w /\
  progress_maximum w' = progress_maximum w /\ self_loggers w' = self_loggers w /\
  logging_handlers w' = logging_handlers w /\ disk w' = disk w /\
  timers w' = timers w /\ info_panel w' = info_panel w.
Proof.
  revert w. induction lines as [|l lines IH]; intros w; [by repeat split|].
  simpl. destruct (IH (emit logger lvl l w)) as (H1&H2&H3&H4&H5&H6&H7&H8&H9&H10).
  rewrite H1, H2, H3, H4, H5, H6, H7, H8, H9, H10. autorewrite with world.
  by repeat split.
Qed.

Lemma log_dir_logged_lines logger file lvl (lines : list string) w :
  handlers_of logger w = [file] -> lvl <> DEBUG ->
  log_dir (foldl (fun w line => emit logger lvl line w) w lines)
    = logged file (map (fun line => (lvl, line)) lines) (log_dir w).
Proof.
  revert w. induction lines as [|l lines IH]; intros w Hh Hlvl; simpl.
  - by rewrite logged_nil.
  - rewrite IH by (by autorewrite with world).
    rewrite (log_dir_emit logger file) by done. by rewrite logged_logged.
Qed.

(** One turn of the loop, field by field: the command is started, two
    entries are queued, the bar moves by one increment whatever the outcome,
    and with a handler on [file] the output and the report are appended to
    that file. *)
Lemma stepped_fields env t logger total inc i command w :
  let w' := stepped env t logger total inc i command w in
  let o := subprocess_run env command in
  launched w' = launched w ++ [command] /\
  gui_queue w' =
    gui_queue w
    ++ [ Ev_update_info_panel SystemHealthCheck
           ("Executing command " +:+ pretty i +:+ "/" +:+ pretty total
            +:+ ": " +:+ command);
         Ev_update_info_panel SystemHealthCheck (step_report i o).2 ] /\
  progress_value w' =
    wset SystemHealthCheck (wget SystemHealthCheck (progress_value w) + inc)%float
      (progress_value w) /\
  tk_calls w' =
    tk_calls w
    ++ [ (t, Tk_progress_set_value SystemHealthCheck
                (wget SystemHealthCheck (progress_value w) + inc)%float);
         (t, Tk_update_idletasks) ] /\
  self_loggers w' = self_loggers w /\
  logging_handlers w' = logging_handlers w /\
  (forall file, handlers_of logger w = [file] ->
     log_dir w' =
       logged file (map (fun line => (INFO, line)) (output_lines o) ++ [step_report i o])
         (log_dir w)).
Proof.
  intros w' o. subst w'. unfold stepped. fold o.
  set (w1 := with_launched _ _).
  destruct (logged_lines_fields logger INFO (output_lines o) w1)
    as (H1&H2&H3&H4&H5&H6&H7&H8&H9&H10).
  unfold advance_progress, exec. fields. rewrite H1, H2, H3, H4, H6, H7.
  subst w1. simpl. rewrite <- !app_assoc. simpl.
  repeat split; try reflexivity.
  intros file Hh.
  rewrite (log_dir_emit logger file);
    [| by rewrite handlers_of_with_gui_queue; unfold handlers_of; rewrite H7 | ].
  - simpl. rewrite (log_dir_logged_lines logger file) by done.
    rewrite logged_logged. simpl. by destruct (step_report i o).
  - unfold step_report. destruct o as [rc out| |e]; [by destruct (rc =? 0)%Z|done|done].
Qed.

(** The turns the loop makes: up to and including the first command that
    times out or raises. *)
Fixpoint attempted (env : Env) (steps : list (nat * (string * string)))
    : list (nat * (string * string)) :=
  match steps with
  | [] => []
  | s :: rest =>
      match step_exit (subprocess_run env s.2.2) with
      | Continue => s :: attempted env rest
      | Break => [s]
      end
  end.

Definition loop_world (env : Env) (t : Thread) (loggers : list (string * string))
    (el : string) (total : nat) (inc : float) (w : World)
    (turns : list (nat * (string * string))) : World :=
  foldl (fun w s =>
           stepped env t (default el (Py.dict_get loggers s.2.1)) total inc s.1 s.2.2 w)
    w turns.

Lemma health_check_loop_eq env t loggers total inc steps w el :
  Py.dict_get (self_loggers w) "error_logger" = Some el ->
  health_check_loop env t loggers total inc steps w =
    (Returns tt, loop_world env t loggers el total inc w (attempted env steps)).
Proof.
  revert w. induction steps as [|[i [name command]] rest IH]; intros w Hel.
  - reflexivity.
  - simpl health_check_loop.
    rewrite (bind_returns _ _ _ _ _
               (health_check_step_eq env t loggers total inc i name command w el Hel)).
    simpl attempted.
    destruct (step_exit (subprocess_run env command)); [|reflexivity].
    rewrite IH; [reflexivity|].
    by destruct (stepped_fields env t (default el (Py.dict_get loggers name))
                   total inc i command w) as (_ & _ & _ & _ & -> & _).
Qed.

Lemma loop_world_launched env t loggers el total inc w turns :
  launched (loop_world env t loggers el total inc w turns)
    = launched w ++ map (fun s => s.2.2) turns.
Proof.
  unfold loop_world. revert w. induction turns as [|s turns IH]; intros w; simpl.
  - by rewrite app_nil_r.
  - rewrite IH.
    destruct (stepped_fields env t (default el (Py.dict_get loggers s.2.1))
                total inc s.1 s.2.2 w) as (-> & _).
    by rewrite <- app_assoc.
Qed.

(** The loop stops at the first command that does not run to an exit
    status: with a complete dict of loggers, when the command at position
    [k] (counting from 0) times out or raises and the earlier ones ran, the
    commands started are the first [k + 1] and no other. *)
Lemma health_check_loop_stops_at_break env t loggers total inc steps w el k s :
  Py.dict_get (self_loggers w) "error_logger" = Some el ->
  steps !! k = Some s ->
  step_exit (subprocess_run env s.2.2) = Break ->
  (forall j s', j < k -> steps !! j = Some s' ->
     step_exit (subprocess_run env s'.2.2) = Continue) ->
  outcome (health_check_loop env t loggers total inc steps) w = Returns tt /\
  launched (exec (health_check_loop env t loggers total inc steps) w)
    = launched w ++ map (fun s => s.2.2) (take (S k) steps).
Proof.
  intros Hel Hk Hbreak Hbefore. unfold outcome, exec.
  rewrite (health_check_loop_eq _ _ _ _ _ _ _ el) by done. simpl.
  split; [reflexivity|]. rewrite loop_world_launched. f_equal. f_equal.
  clear Hel w. revert k Hk Hbefore.
  induction steps as [|s0 rest IH]; intros k Hk Hbefore; [done|].
  destruct k as [|k]; simpl in *.
  - injection Hk as ->. rewrite Hbreak. by rewrite take_0.
  - rewrite (Hbefore 0 s0) by (lia || done).
    f_equal. apply IH; [done|].
    intros j s' Hj Hs'. apply (Hbefore (S j) s'); [lia | done].
Qed.

(** And it goes through every command when each one runs to an exit
    status, zero or not. *)
Lemma health_check_loop_runs_all env t loggers total inc steps w el :
  Py.dict_get (self_loggers w) "error_logger" = Some el ->
  Forall (fun s => step_exit (subprocess_run env s.2.2) = Continue) steps ->
  launched (exec (health_check_loop env t loggers total inc steps) w)
    = launched w ++ map (fun s => s.2.2) steps.
Proof.
  intros Hel Hall. unfold exec.
  rewrite (health_check_loop_eq _ _ _ _ _ _ _ el) by done. simpl.
  rewrite loop_world_launched. f_equal. f_equal.
  induction Hall as [|s rest Hs _ IH]; [reflexivity|].
  simpl. by rewrite Hs, IH.
Qed.

(** * The rest of the program

    What follows covers the code around the three operations: how the
    loggers are made, what the Tk thread does with the queue and the timers,
    the log viewer, and what the operations leave alone. *)

(** ** Commands that return, related to the world they start in *)

Section Doing.

Variable R : World -> World -> Prop.
Hypothesis R_refl : forall w, R w w.
Hypothesis R_trans : forall w1 w2 w3, R w1 w2 -> R w2 w3 -> R w1 w3.

Definition does {A} (m : M A) : Prop :=
  forall w, exists a w', m w = (Returns a, w') /\ R w w'.

Lemma does_ret {A} (a : A) : does (ret a).
Proof. intros w. exists a, w. split; [reflexivity | apply R_refl]. Qed.

Lemma does_bind {A B} (m : M A) (k : A -> M B) :
  does m -> (forall a, does (k a)) -> does (bind m k).
Proof.
  intros Hm Hk w. destruct (Hm w) as (a & w1 & E1 & S1).
  destruct (Hk a w1) as (b & w2 & E2 & S2).
  exists b, w2. split.
  - by rewrite (bind_returns _ _ _ _ _ E1).
  - by eapply R_trans.
Qed.

Lemma does_modify (f : World -> World) :
  (forall w, R w (f w)) -> does (modify f).
Proof. intros Hf w. exists tt, (f w). split; [reflexivity | apply Hf]. Qed.

Lemma does_get_world : does get_world.
Proof. intros w. exists w, w. split; [reflexivity | apply R_refl]. Qed.


End Doing.

(** ** Making a logger *)

(** The log directory once [log_file] has been opened for appending. *)
Definition opened (log_file : string) (d : gmap string (list LogRecord))
    : gmap string (list LogRecord) :=
  match d !! log_file with
  | Some _ => d
  | None => <[log_file := []]> d
  end.

(** The handler table once [get_logger name log_file] has been called. *)
Definition attached (name log_file : string) (h : gmap string (list string))
    : gmap string (list string) :=
  match default [] (h !! name) with
  | [] => <[name := [log_file]]> h
  | _ :: _ => h
  end.

Definition got (name log_file : string) (w : World) : World :=
  match handlers_of name w with
  | [] =>
      with_logging_handlers (<[name := [log_file]]> (logging_handlers w))
        (with_log_dir (opened log_file (log_dir w)) w)
  | _ :: _ => w
  end.

Lemma get_logger_eq name log_file w :
  get_logger name log_file w = (Returns name, got name log_file w).
Proof.
  unfold get_logger, got. rewrite (bind_returns get_world _ w w w eq_refl).
  destruct (handlers_of name w) as [|h hs] eqn:E; [|reflexivity].
  unfold FileHandler, addHandler, bind, modify, ret, opened.
  destruct (log_dir w !! log_file); cbn [fst snd]; unfold handlers_of in *;
    project; by rewrite E.
Qed.

Lemma got_fields name log_file w :
  let w' := got name log_file w in
  logging_handlers w' = attached name log_file (logging_handlers w) /\
  log_dir w' =
    match handlers_of name w with
    | [] => opened log_file (log_dir w)
    | _ :: _ => log_dir w
    end /\
  self_loggers w' = self_loggers w /\
  root_has_handlers w' = root_has_handlers w /\
  console w' = console w /\
  gui_queue w' = gui_queue w /\
  info_panel w' = info_panel w /\
  progress_value w' = progress_value w /\
  progress_maximum w' = progress_maximum w /\
  timers w' = timers w /\
  tk_calls w' = tk_calls w /\
  launched w' = launched w /\
  slept_ms w' = slept_ms w /\
  disk w' = disk w.
Proof.
  unfold got, attached, handlers_of.
  destruct (default [] (logging_handlers w !! name)); project; by repeat split.
Qed.

Lemma handlers_of_attached name log_file k w :
  default [] (attached name log_file (logging_handlers w) !! k) =
    if decide (k = name)
    then match handlers_of name w with
         | [] => [log_file]
         | h :: hs => h :: hs
         end
    else handlers_of k w.
Proof.
  unfold attached, handlers_of.
  destruct (decide (k = name)) as [->|Hne].
  - destruct (default [] (logging_handlers w !! name)) as [|h hs] eqn:E.
    + by rewrite lookup_insert_eq.
    + by rewrite E.
  - destruct (default [] (logging_handlers w !! name)); [|done].
    by rewrite lookup_insert_ne.
Qed.

Lemma lookup_opened log_file (d : gmap string (list LogRecord)) f :
  opened log_file d !! f =
    if decide (f = log_file)
    then Some (default [] (d !! log_file))
    else d !! f.
Proof.
  unfold opened. destruct (decide (f = log_file)) as [->|Hne].
  - destruct (d !! log_file) as [c|] eqn:E; [by rewrite E|].
    by rewrite lookup_insert_eq.
  - destruct (d !! log_file); [done|]. by rewrite lookup_insert_ne.
Qed.

(** X1. [get_logger] from any state of the [logging] module.  It returns
    the logger asked for.  A logger without a handler gets exactly one, on
    [log_file], opened for appending: a file that exists keeps its content, a
    missing one is created empty.  A logger that has a handler is left as it
    is, so a second call changes nothing.  No other logger and no other file
    is touched. *)
Theorem get_logger_attaches_one_appending_handler name log_file w :
  let w' := exec (get_logger name log_file) w in
  outcome (get_logger name log_file) w = Returns name /\
  handlers_of name w' =
    match handlers_of name w with
    | [] => [log_file]
    | h :: hs => h :: hs
    end /\
  (handlers_of name w = [] ->
   log_dir w' !! log_file = Some (default [] (log_dir w !! log_file))) /\
  (handlers_of name w <> [] -> log_dir w' = log_dir w) /\
  (forall f, f <> log_file -> log_dir w' !! f = log_dir w !! f) /\
  (forall k, k <> name -> handlers_of k w' = handlers_of k w) /\
  exec (get_logger name log_file) w' = w'.
Proof.
  intros w'. subst w'. unfold outcome, exec. rewrite !get_logger_eq. cbn [fst snd].
  destruct (got_fields name log_file w) as (Hh & Hd & _).
  assert (Hn : handlers_of name (got name log_file w) =
               match handlers_of name w with
               | [] => [log_file]
               | h :: hs => h :: hs
               end).
  { unfold handlers_of at 1. rewrite Hh, handlers_of_attached.
    by rewrite decide_True. }
  split; [reflexivity|]. split; [exact Hn|].
  split; [|split; [|split; [|split]]].
  - intros E. rewrite Hd, E, lookup_opened. by rewrite decide_True.
  - intros E. rewrite Hd. by destruct (handlers_of name w).
  - intros f Hf. rewrite Hd. destruct (handlers_of name w); [|done].
    rewrite lookup_opened. by rewrite decide_False.
  - intros k Hk. unfold handlers_of at 1. rewrite Hh, handlers_of_attached.
    by rewrite decide_False.
  - unfold got at 1. rewrite Hn. by destruct (handlers_of name w).
Qed.

(** ** Making all the loggers *)

(** One [self.loggers[logger_name] = get_logger(logger_name, log_file)]
    with the [print] that follows it. *)
Definition registered (name log_file line : string) (w : World) : World :=
  let w1 := got name log_file w in
  let w2 := with_self_loggers (Py.dict_set (self_loggers w1) name name) w1 in
  with_console (console w2 ++ [Stdout line]) w2.

Lemma register_eq name log_file line w :
  (logger <- get_logger name log_file ;;
   self_loggers_setitem name logger ;;
   print line) w = (Returns tt, registered name log_file line w).
Proof. by rewrite (bind_returns _ _ _ _ _ (get_logger_eq name log_file w)). Qed.

Definition section_logger_name (section : string) : string :=
  if String.eqb section "Defragment and Optimize Drives"
  then "defragment"
  else Py.replace " " "_" (Py.lower section).

Definition command_logger_name (command : string) : string :=
  Py.replace "/" "_" (Py.lower command).

Definition register_all (logger_name : string -> string)
    (files : list (string * string)) (w : World) : World :=
  foldl (fun w p =>
           registered (logger_name p.1) p.2
             ("Initialized logger: " +:+ logger_name p.1) w) w files.

Definition initialized (w : World) : World :=
  registered "error_logger" "error.log" "Initialized error_logger"
    (register_all command_logger_name COMMAND_LOG_FILES
       (register_all section_logger_name SECTION_LOG_FILES
          (with_self_loggers [] w))).

Lemma for_each_returns {A} (body : A -> M unit) (f : A -> World -> World) l w :
  (forall x w, body x w = (Returns tt, f x w)) ->
  for_each body l w = (Returns tt, foldl (fun w x => f x w) w l).
Proof.
  intros Hb. revert w. induction l as [|x l IH]; intros w; [reflexivity|].
  simpl. by rewrite (bind_returns _ _ _ _ _ (Hb x w)), IH.
Qed.

Lemma initialize_loggers_eq w :
  initialize_loggers w = (Returns tt, initialized w).
Proof.
  unfold initialize_loggers, initialized, register_all.
  rewrite (bind_returns _ _ w tt (with_self_loggers [] w)) by reflexivity.
  erewrite bind_returns; cycle 1.
  { apply (for_each_returns _
             (fun p => registered (section_logger_name p.1) p.2
                         ("Initialized logger: " +:+ section_logger_name p.1))).
    intros [section log_file] w0. apply register_eq. }
  erewrite bind_returns; cycle 1.
  { apply (for_each_returns _
             (fun p => registered (command_logger_name p.1) p.2
                         ("Initialized logger: " +:+ command_logger_name p.1))).
    intros [command log_file] w0. apply register_eq. }
  apply register_eq.
Qed.

(** What making loggers leaves alone: a logger that has a handler keeps
    it, a file that exists keeps its content, and nothing outside the
    [logging] module, [self.loggers] and the console moves. *)
Record keeps_logs (w w' : World) : Prop := mkKeepsLogs {
  kl_held : forall k, handlers_of k w <> [] -> handlers_of k w' = handlers_of k w;
  kl_files : forall f c, log_dir w !! f = Some c -> log_dir w' !! f = Some c;
  kl_root : root_has_handlers w' = root_has_handlers w;
  kl_gui_queue : gui_queue w' = gui_queue w;
  kl_info_panel : info_panel w' = info_panel w;
  kl_progress_value : progress_value w' = progress_value w;
  kl_progress_maximum : progress_maximum w' = progress_maximum w;
  kl_timers : timers w' = timers w;
  kl_tk_calls : tk_calls w' = tk_calls w;
  kl_launched : launched w' = launched w;
  kl_slept_ms : slept_ms w' = slept_ms w;
  kl_disk : disk w' = disk w
}.

Lemma keeps_logs_refl w : keeps_logs w w.
Proof. by split. Qed.

Lemma keeps_logs_trans w1 w2 w3 :
  keeps_logs w1 w2 -> keeps_logs w2 w3 -> keeps_logs w1 w3.
Proof.
  intros [A1 A2 ? ? ? ? ? ? ? ? ? ?] [B1 B2 ? ? ? ? ? ? ? ? ? ?].
  split; try congruence.
  - intros k Hk. rewrite B1; rewrite A1; done.
  - intros f c Hf. by apply B2, A2.
Qed.

Lemma registered_fields name log_file line w :
  let w' := registered name log_file line w in
  self_loggers w' = Py.dict_set (self_loggers w) name name /\
  logging_handlers w' = attached name log_file (logging_handlers w) /\
  log_dir w' =
    match handlers_of name w with
    | [] => opened log_file (log_dir w)
    | _ :: _ => log_dir w
    end.
Proof.
  destruct (got_fields name log_file w) as (H1 & H2 & H3 & _).
  unfold registered. project. by rewrite H1, H2, H3.
Qed.

Lemma keeps_logs_registered name log_file line w :
  keeps_logs w (registered name log_file line w).
Proof.
  destruct (got_fields name log_file w)
    as (H1 & H2 & H3 & H4 & H5 & H6 & H7 & H8 & H9 & H10 & H11 & H12 & H13 & H14).
  unfold registered. split; project; try done.
  - intros k Hk. unfold handlers_of at 1. project.
    rewrite H1, handlers_of_attached.
    destruct (decide (k = name)) as [->|Hne]; [|done].
    by destruct (handlers_of name w).
  - intros f c Hf. rewrite H2. destruct (handlers_of name w); [|done].
    rewrite lookup_opened. destruct (decide (f = log_file)) as [->|Hne]; [|done].
    by rewrite Hf.
Qed.

Lemma keeps_logs_register_all logger_name files w :
  keeps_logs w (register_all logger_name files w).
Proof.
  unfold register_all. revert w.
  induction files as [|p files IH]; intros w; [apply keeps_logs_refl|].
  simpl. eapply keeps_logs_trans; [apply keeps_logs_registered | apply IH].
Qed.

Lemma keeps_logs_reset w : keeps_logs w (with_self_loggers [] w).
Proof. by split. Qed.

Lemma keeps_logs_initialized w : keeps_logs w (initialized w).
Proof.
  unfold initialized.
  eapply keeps_logs_trans; [apply keeps_logs_reset|].
  eapply keeps_logs_trans; [apply keeps_logs_register_all|].
  eapply keeps_logs_trans; [apply keeps_logs_register_all|].
  apply keeps_logs_registered.
Qed.

Lemma self_loggers_register_all logger_name files w :
  self_loggers (register_all logger_name files w) =
    foldl (fun d p => Py.dict_set d (logger_name p.1) (logger_name p.1))
      (self_loggers w) files.
Proof.
  unfold register_all. revert w.
  induction files as [|p files IH]; intros w; [reflexivity|].
  simpl. rewrite IH.
  by destruct (registered_fields (logger_name p.1) p.2
                 ("Initialized logger: " +:+ logger_name p.1) w) as (-> & _).
Qed.

Lemma logging_handlers_register_all logger_name files w :
  logging_handlers (register_all logger_name files w) =
    foldl (fun h p => attached (logger_name p.1) p.2 h) (logging_handlers w) files.
Proof.
  unfold register_all. revert w.
  induction files as [|p files IH]; intros w; [reflexivity|].
  simpl. rewrite IH.
  by destruct (registered_fields (logger_name p.1) p.2
                 ("Initialized logger: " +:+ logger_name p.1) w) as (_ & -> & _).
Qed.

Lemma self_loggers_initialized w : self_loggers (initialized w) = app_loggers.
Proof.
  unfold initialized.
  destruct (registered_fields "error_logger" "error.log" "Initialized error_logger"
              (register_all command_logger_name COMMAND_LOG_FILES
                 (register_all section_logger_name SECTION_LOG_FILES
                    (with_self_loggers [] w)))) as (-> & _).
  rewrite !self_loggers_register_all. reflexivity.
Qed.

(** A logger that was registered has a handler. *)
Lemma registered_handler name log_file line w :
  handlers_of name (registered name log_file line w) <> [].
Proof.
  destruct (registered_fields name log_file line w) as (_ & H & _).
  unfold handlers_of at 1. rewrite H, handlers_of_attached, decide_True by done.
  by destruct (handlers_of name w).
Qed.

Lemma register_all_handler logger_name files w k :
  (exists p, p ∈ files /\ logger_name p.1 = k) \/ handlers_of k w <> [] ->
  handlers_of k (register_all logger_name files w) <> [].
Proof.
  unfold register_all. revert w.
  induction files as [|p files IH]; intros w [(q & Hq & Hk)|Hk]; simpl.
  - by apply elem_of_nil in Hq.
  - done.
  - apply elem_of_cons in Hq as [->|Hq].
    + apply IH. right. subst k. apply registered_handler.
    + apply IH. left. by exists q.
  - apply IH. right.
    rewrite (kl_held _ _ (keeps_logs_registered _ _ _ w)); done.
Qed.

Lemma app_loggers_names :
  map fst app_loggers =
    map (fun p => section_logger_name p.1) SECTION_LOG_FILES
    ++ map (fun p => command_logger_name p.1) COMMAND_LOG_FILES
    ++ ["error_logger"].
Proof. reflexivity. Qed.

(** X2. [initialize_loggers] from any state at all, whatever [self.loggers]
    and the handlers were before.  It returns; [self.loggers] is rebuilt from
    nothing and ends as the same ten entries, each filed under the
    lower-cased name of its logger; each of the ten loggers has a handler
    afterwards; no log file loses a record (files are opened for appending,
    never truncated); a logger that had a handler keeps exactly that handler;
    and the queue, the widgets, the timers and the directories are left
    alone. *)
Theorem initialize_loggers_rebuilds_the_registry w :
  let w' := exec initialize_loggers w in
  outcome initialize_loggers w = Returns tt /\
  self_loggers w' =
    [ ("system_health_check", "system_health_check");
      ("disk_cleanup", "disk_cleanup");
      ("defragment", "defragment");
      ("checkhealth", "checkhealth");
      ("scanhealth", "scanhealth");
      ("restorehealth", "restorehealth");
      ("sfc_scannow", "sfc_scannow");
      ("analyzecomponentstore", "analyzecomponentstore");
      ("startcomponentcleanup", "startcomponentcleanup");
      ("error_logger", "error_logger") ] /\
  (forall name, name ∈ map fst (self_loggers w') -> handlers_of name w' <> []) /\
  (forall f content, log_dir w !! f = Some content -> log_dir w' !! f = Some content) /\
  (forall k, handlers_of k w <> [] -> handlers_of k w' = handlers_of k w) /\
  gui_queue w' = gui_queue w /\
  info_panel w' = info_panel w /\
  progress_value w' = progress_value w /\
  timers w' = timers w /\
  tk_calls w' = tk_calls w /\
  disk w' = disk w.
Proof.
  intros w'. subst w'. unfold outcome, exec. rewrite initialize_loggers_eq.
  cbn [fst snd].
  destruct (keeps_logs_initialized w) as [K1 K2 _ K4 K5 K6 _ K8 K9 _ _ K12].
  split; [reflexivity|]. split; [apply self_loggers_initialized|].
  split; [|by repeat split].
  rewrite self_loggers_initialized. intros name Hin.
  assert (Hname : (exists p, p ∈ SECTION_LOG_FILES /\ section_logger_name p.1 = name) \/
                  (exists p, p ∈ COMMAND_LOG_FILES /\ command_logger_name p.1 = name) \/
                  name = "error_logger").
  { rewrite app_loggers_names in Hin.
    apply elem_of_app in Hin as [Hin|Hin]; [left|right].
    - apply list_elem_of_fmap in Hin as (p & -> & Hp). by exists p.
    - apply elem_of_app in Hin as [Hin|Hin]; [left|right].
      + apply list_elem_of_fmap in Hin as (p & -> & Hp). by exists p.
      + by apply list_elem_of_singleton in Hin. }
  unfold initialized.
  set (w1 := register_all section_logger_name SECTION_LOG_FILES (with_self_loggers [] w)).
  set (w2 := register_all command_logger_name COMMAND_LOG_FILES w1).
  assert (H2 : name <> "error_logger" -> handlers_of name w2 <> []).
  { intros Hne. destruct Hname as [Hs|[Hc|He]]; [| |done].
    - apply register_all_handler. right. apply register_all_handler. by left.
    - apply register_all_handler. by left. }
  destruct (decide (name = "error_logger")) as [->|Hne].
  - apply registered_handler.
  - rewrite (kl_held _ _ (keeps_logs_registered _ _ _ w2)); by apply H2.
Qed.

(** ** Start-up over the logs of an earlier run *)

Lemma handlers_of_registered name log_file line w k :
  k <> name -> handlers_of k (registered name log_file line w) = handlers_of k w.
Proof.
  intros Hne. destruct (registered_fields name log_file line w) as (_ & H & _).
  unfold handlers_of at 1. by rewrite H, handlers_of_attached, decide_False.
Qed.

Lemma handlers_of_register_all logger_name files w k :
  k ∉ map (fun p => logger_name p.1) files ->
  handlers_of k (register_all logger_name files w) = handlers_of k w.
Proof.
  unfold register_all. revert w.
  induction files as [|p files IH]; intros w Hk; [reflexivity|].
  simpl in *. apply not_elem_of_cons in Hk as [Hne Hk].
  rewrite IH by done. by apply handlers_of_registered.
Qed.

Lemma log_dir_register_all logger_name files w :
  NoDup (map (fun p => logger_name p.1) files) ->
  (forall p, p ∈ files -> handlers_of (logger_name p.1) w = []) ->
  log_dir (register_all logger_name files w) =
    foldl (fun d p => opened p.2 d) (log_dir w) files.
Proof.
  unfold register_all. revert w.
  induction files as [|p files IH]; intros w Hnd Hno; [reflexivity|].
  simpl in *. apply NoDup_cons in Hnd as [Hp Hnd].
  rewrite IH.
  - destruct (registered_fields (logger_name p.1) p.2
                ("Initialized logger: " +:+ logger_name p.1) w) as (_ & _ & ->).
    rewrite (Hno p); [reflexivity | by left].
  - done.
  - intros q Hq. rewrite handlers_of_registered.
    + apply Hno. by right.
    + intros E. apply Hp. rewrite <- E.
      apply list_elem_of_fmap. by exists q.
Qed.

Lemma lookup_foldl_opened (files : list (string * string))
    (d : gmap string (list LogRecord)) f :
  foldl (fun d p => opened p.2 d) d files !! f =
    if bool_decide (f ∈ map snd files)
    then Some (default [] (d !! f))
    else d !! f.
Proof.
  revert d. induction files as [|p files IH]; intros d; [reflexivity|].
  simpl. rewrite IH, lookup_opened.
  destruct (decide (f = p.2)) as [->|Hne].
  - rewrite (bool_decide_eq_true_2 (p.2 ∈ p.2 :: map snd files)) by (by left).
    by destruct (bool_decide (p.2 ∈ map snd files)).
  - destruct (bool_decide (f ∈ map snd files)) eqn:E.
    + apply bool_decide_eq_true in E.
      by rewrite (bool_decide_eq_true_2 (f ∈ p.2 :: map snd files)) by (by right).
    + apply bool_decide_eq_false in E.
      rewrite (bool_decide_eq_false_2 (f ∈ p.2 :: map snd files)); [done|].
      by intros [?|?]%elem_of_cons.
Qed.

(** The ten log files of the program. *)
Definition log_file_names : list string :=
  map snd SECTION_LOG_FILES ++ map snd COMMAND_LOG_FILES ++ ["error.log"].

Lemma started_handlers :
  attached "error_logger" "error.log"
    (foldl (fun h p => attached (command_logger_name p.1) p.2 h)
       (foldl (fun h p => attached (section_logger_name p.1) p.2 h) ∅
          SECTION_LOG_FILES) COMMAND_LOG_FILES)
  = logging_handlers (boot ∅).
Proof. apply (bool_decide_unpack _). by vm_compute. Qed.

Lemma app_handlers_files : map snd app_handlers = log_file_names.
Proof. reflexivity. Qed.

Lemma log_dir_started w :
  logging_handlers w = ∅ ->
  forall f,
    log_dir (initialized w) !! f =
      if bool_decide (f ∈ log_file_names)
      then Some (default [] (log_dir w !! f))
      else log_dir w !! f.
Proof.
  intros Hh f. unfold initialized.
  set (w0 := with_self_loggers [] w).
  set (w1 := register_all section_logger_name SECTION_LOG_FILES w0).
  set (w2 := register_all command_logger_name COMMAND_LOG_FILES w1).
  assert (H0 : forall k, handlers_of k w0 = []).
  { intros k. unfold handlers_of, w0. project. by rewrite Hh, lookup_empty. }
  assert (D1 : log_dir w1 = foldl (fun d p => opened p.2 d) (log_dir w) SECTION_LOG_FILES).
  { unfold w1. rewrite log_dir_register_all; [reflexivity | | by intros].
    apply (bool_decide_unpack _). by vm_compute. }
  assert (D2 : log_dir w2 = foldl (fun d p => opened p.2 d) (log_dir w1) COMMAND_LOG_FILES).
  { unfold w2. apply log_dir_register_all.
    - apply (bool_decide_unpack _). by vm_compute.
    - intros p Hp. unfold w1. rewrite handlers_of_register_all; [apply H0|].
      revert p Hp. apply Forall_forall. unfold COMMAND_LOG_FILES.
      repeat (apply List.Forall_cons || apply List.Forall_nil);
        apply (bool_decide_unpack _); by vm_compute. }
  assert (He : handlers_of "error_logger" w2 = []).
  { unfold w2, w1. rewrite !handlers_of_register_all; [apply H0 | |];
      apply (bool_decide_unpack _); by vm_compute. }
  destruct (registered_fields "error_logger" "error.log" "Initialized error_logger" w2)
    as (_ & _ & ->).
  rewrite He, lookup_opened, D2, D1, !lookup_foldl_opened.
  unfold log_file_names.
  destruct (decide (f = "error.log")) as [->|Hne]; [reflexivity|].
  rewrite (bool_decide_ext (f ∈ _ ++ _ ++ ["error.log"])
             (f ∈ map snd SECTION_LOG_FILES ∨ f ∈ map snd COMMAND_LOG_FILES)).
  2:{ rewrite !elem_of_app, list_elem_of_singleton. tauto. }
  destruct (bool_decide (f ∈ map snd SECTION_LOG_FILES)) eqn:E1;
    destruct (bool_decide (f ∈ map snd COMMAND_LOG_FILES)) eqn:E2;
    try apply bool_decide_eq_true in E1; try apply bool_decide_eq_false in E1;
    try apply bool_decide_eq_true in E2; try apply bool_decide_eq_false in E2.
  - rewrite bool_decide_eq_true_2 by tauto. by destruct (log_dir w !! f).
  - by rewrite bool_decide_eq_true_2 by tauto.
  - by rewrite bool_decide_eq_true_2 by tauto.
  - by rewrite bool_decide_eq_false_2 by tauto.
Qed.

(** X3. Start-up in a new process, over whatever an earlier run left in the
    log directory.  When no logger has a handler yet, [initialize_loggers]
    ends in a world the program can run from; each of the ten log files
    exists afterwards with the content it already had, or empty if it was
    missing; a file that is not one of the ten is neither created nor
    changed. *)
Theorem start_up_keeps_the_logs_of_earlier_runs w :
  logging_handlers w = ∅ ->
  let w' := exec initialize_loggers w in
  wf w' /\
  (forall f, f ∈ log_file_names ->
     log_dir w' !! f = Some (default [] (log_dir w !! f))) /\
  (forall f, f ∉ log_file_names -> log_dir w' !! f = log_dir w !! f).
Proof.
  intros Hh w'. subst w'. unfold exec. rewrite initialize_loggers_eq. cbn [snd].
  pose proof (log_dir_started w Hh) as Hd.
  split; [split|split].
  - apply self_loggers_initialized.
  - unfold initialized.
    destruct (registered_fields "error_logger" "error.log" "Initialized error_logger"
                (register_all command_logger_name COMMAND_LOG_FILES
                   (register_all section_logger_name SECTION_LOG_FILES
                      (with_self_loggers [] w)))) as (_ & -> & _).
    rewrite !logging_handlers_register_all. project. rewrite Hh.
    apply started_handlers.
  - intros name file Hin. rewrite Hd, bool_decide_eq_true_2; [eauto|].
    rewrite <- app_handlers_files. apply list_elem_of_fmap. by exists (name, file).
  - intros f Hf. by rewrite Hd, bool_decide_eq_true_2.
  - intros f Hf. by rewrite Hd, bool_decide_eq_false_2.
Qed.

(** The log directory of an earlier run that was denied once and has lost
    two of its files since. *)
Definition earlier_logs : gmap string (list LogRecord) :=
  {[ "error.log" := [(ERROR, "Admin privileges are required to perform this operation.")];
     "disk_cleanup.log" := [];
     "notes.txt" := [(INFO, "kept by hand")] ]}.

Lemma start_up_keeps_the_logs_witness :
  let w := with_log_dir earlier_logs (blank ∅) in
  logging_handlers w = ∅ /\
  wf (exec initialize_loggers w) /\
  log_dir (exec initialize_loggers w) !! "error.log" = Some [(ERROR, "Admin privileges are required to perform this operation.")] /\
  log_dir (exec initialize_loggers w) !! "defragment.log" = Some [] /\
  log_dir (exec initialize_loggers w) !! "notes.txt" = Some [(INFO, "kept by hand")].
Proof.
  intros w.
  destruct (start_up_keeps_the_logs_of_earlier_runs w eq_refl) as (H1 & H2 & H3).
  split; [reflexivity|]. split; [exact H1|].
  split; [|split].
  - rewrite H2; [reflexivity|]. unfold log_file_names. simpl. repeat constructor.
  - rewrite H2; [reflexivity|]. unfold log_file_names. simpl. repeat constructor.
  - rewrite H3; [reflexivity|]. apply (bool_decide_unpack _). by vm_compute.
Defined.

(** ** What the operations leave alone *)

(** [confined F P]: the loggers and their handlers stay as they are; every
    log file keeps its records and can only grow at its end, and no file is
    created or removed; from a world of the program only the files [F] grow;
    no directory appears or disappears, and only the directories [P] can
    lose entries. *)
Record confined (F P : list string) (w w' : World) : Prop := mkConfined {
  cf_loggers : self_loggers w' = self_loggers w;
  cf_handlers : logging_handlers w' = logging_handlers w;
  cf_grows : forall f, exists more,
    log_dir w' !! f = (fun old => old ++ more) <$> (log_dir w !! f);
  cf_apart : wf w -> forall f, f ∉ F -> log_dir w' !! f = log_dir w !! f;
  cf_paths : forall p, is_Some (disk w' !! p) <-> is_Some (disk w !! p);
  cf_disk : forall p, p ∉ P -> disk w' !! p = disk w !! p
}.

Lemma confined_wf F P w w' : confined F P w w' -> wf w -> wf w'.
Proof.
  intros [C1 C2 C3 _ _ _] [H1 H2 H3]. split; [congruence | congruence |].
  intros name file Hin. destruct (C3 file) as [more ->].
  destruct (H3 name file Hin) as [old ->]. simpl. eauto.
Qed.

Lemma confined_refl F P w : confined F P w w.
Proof.
  split; try done. intros f. exists [].
  destruct (log_dir w !! f); simpl; by rewrite ?app_nil_r.
Qed.

Lemma confined_trans F P w1 w2 w3 :
  confined F P w1 w2 -> confined F P w2 w3 -> confined F P w1 w3.
Proof.
  intros A B. pose proof (confined_wf _ _ _ _ A) as Hwf.
  destruct A as [A1 A2 A3 A4 A5 A6], B as [B1 B2 B3 B4 B5 B6].
  split; try congruence.
  - intros f. destruct (A3 f) as [m1 E1], (B3 f) as [m2 E2].
    exists (m1 ++ m2). rewrite E2, E1.
    destruct (log_dir w1 !! f); simpl; by rewrite ?app_assoc.
  - intros H f Hf. rewrite B4, A4; auto.
  - intros p. by rewrite B5.
  - intros p Hp. rewrite B6, A6; auto.
Qed.

(** A step that does not touch the logs or the directories. *)
Lemma confined_same F P w w' :
  self_loggers w' = self_loggers w ->
  logging_handlers w' = logging_handlers w ->
  log_dir w' = log_dir w ->
  disk w' = disk w ->
  confined F P w w'.
Proof.
  intros H1 H2 H3 H4. split; try done; rewrite ?H3, ?H4; try done.
  intros f. exists []. destruct (log_dir w !! f); simpl; by rewrite ?app_nil_r.
Qed.

Lemma append_to_grows r hs (d : gmap string (list LogRecord)) f :
  exists more, append_to r hs d !! f = (fun old => old ++ more) <$> (d !! f).
Proof.
  revert d. induction hs as [|h hs IH]; intros d.
  - exists []. simpl. destruct (d !! f); simpl; by rewrite ?app_nil_r.
  - simpl. destruct (IH (alter (fun content => content ++ [r]) h d)) as [more E].
    fold (append_to r hs (alter (fun content => content ++ [r]) h d)). rewrite E.
    destruct (decide (h = f)) as [->|Hne].
    + exists ([r] ++ more). rewrite lookup_alter_eq.
      destruct (d !! f) as [old|]; [|done].
      cbn [fmap option_fmap option_map]. by rewrite <- app_assoc.
    + exists more. by rewrite lookup_alter_ne.
Qed.

(** A record written through a logger of the program whose file is in
    [F]. *)
Lemma confined_emit F P name file lvl msg w :
  (name, file) ∈ app_handlers -> file ∈ F ->
  confined F P w (emit name lvl msg w).
Proof.
  intros Hin HF. split; autorewrite with world; try done.
  - intros f. rewrite emit_eq. project. unfold emit_log_dir.
    destruct (levelno lvl <? levelno INFO)%nat; [|apply append_to_grows].
    exists []. destruct (log_dir w !! f); simpl; by rewrite ?app_nil_r.
  - intros Hwf f Hf. rewrite emit_eq. project. unfold emit_log_dir.
    destruct (levelno lvl <? levelno INFO)%nat; [done|].
    rewrite (handlers_of_wf w name file) by done. simpl.
    apply lookup_alter_ne. intros ->. done.
Qed.

Definition stays (F P : list string) {A} (m : M A) : Prop :=
  does (confined F P) m.

Lemma stays_ret F P {A} (a : A) : stays F P (ret a).
Proof. apply does_ret, confined_refl. Qed.

Lemma stays_bind F P {A B} (m : M A) (k : A -> M B) :
  stays F P m -> (forall a, stays F P (k a)) -> stays F P (bind m k).
Proof. apply does_bind, confined_trans. Qed.


Lemma stays_modify F P (f : World -> World) :
  (forall w, self_loggers (f w) = self_loggers w /\
             logging_handlers (f w) = logging_handlers w /\
             log_dir (f w) = log_dir w /\
             disk (f w) = disk w) ->
  stays F P (modify f).
Proof.
  intros Hf. apply does_modify. intros w.
  destruct (Hf w) as (H1 & H2 & H3 & H4). by apply confined_same.
Qed.

Lemma stays_log F P name file lvl msg :
  (name, file) ∈ app_handlers -> file ∈ F ->
  stays F P (Logger_log name lvl msg).
Proof.
  intros Hin HF. apply does_modify. intros w.
  by apply (confined_emit _ _ _ file).
Qed.

Lemma stays_exec F P {A} (m : M A) w :
  stays F P m -> confined F P w (exec m w).
Proof. intros H. destruct (H w) as (a & w' & E & C). unfold exec. by rewrite E. Qed.

Lemma stays_outcome F P {A} (m : M A) w :
  stays F P m -> exists a, outcome m w = Returns a.
Proof. intros H. destruct (H w) as (a & w' & E & C). exists a. unfold outcome. by rewrite E. Qed.

(** Widget calls, queue entries, sleeping and starting a process do not
    touch the logs or the directories. *)
Ltac stays_quiet :=
  repeat first
    [ apply stays_ret
    | apply stays_bind; [|intros ?]
    | apply stays_modify; intros ?; by repeat split ].

Lemma stays_tell F P panel message :
  stays F P (thread_safe_update_info_panel panel message).
Proof. unfold thread_safe_update_info_panel, gui_queue_put. stays_quiet. Qed.

Lemma stays_gui_queue_put F P ev : stays F P (gui_queue_put ev).
Proof. unfold gui_queue_put. stays_quiet. Qed.

Lemma stays_tk F P t c : stays F P (tk t c).
Proof. unfold tk. stays_quiet. Qed.

Lemma stays_progress_set_value F P t bar v : stays F P (progress_set_value t bar v).
Proof. unfold progress_set_value, tk. stays_quiet. Qed.


Lemma stays_clear_info_panel F P t panel : stays F P (clear_info_panel t panel).
Proof. unfold clear_info_panel, panel_delete_all, tk. stays_quiet. Qed.

Lemma stays_update_info_panel F P t panel message :
  stays F P (update_info_panel t panel message).
Proof. unfold update_info_panel, panel_insert_end, tk. stays_quiet. Qed.

Lemma stays_root_after F P t delay cb : stays F P (root_after t delay cb).
Proof. unfold root_after, tk. stays_quiet. Qed.



Lemma stays_run F P env command : stays F P (run env command).
Proof. unfold run. stays_quiet. Qed.

(** *** Defragment and optimize drives *)









(** *** Disk cleanup *)

Lemma confined_mono F P P' w w' :
  (forall p, p ∈ P -> p ∈ P') -> confined F P w w' -> confined F P' w w'.
Proof. intros HP [C1 C2 C3 C4 C5 C6]. split; auto. Qed.

Section Sweeping.

Variable env : Env.
Variable F : list string.
Hypothesis F_disk_cleanup : "disk_cleanup.log" ∈ F.

Lemma stays_cleanup_log P lvl msg : stays F P (Logger_log "disk_cleanup" lvl msg).
Proof. by apply (stays_log _ _ _ _ _ _ disk_cleanup_handler). Qed.

Lemma stays_record_removal P what path r tl :
  stays F P (record_removal "disk_cleanup" what path r tl).
Proof.
  destruct r; simpl;
    repeat first
      [ apply stays_ret
      | apply stays_cleanup_log
      | apply stays_tell
      | apply stays_bind; [|intros ?] ].
Qed.

Lemma stays_unlink_files P root_dir entries tl :
  stays F P (unlink_files "disk_cleanup" root_dir entries tl).
Proof.
  revert tl. induction entries as [|[name r|name r sub] rest IH]; intros tl; simpl.
  - apply stays_ret.
  - apply stays_bind; [apply stays_record_removal|]. intros tl'.
    apply stays_bind; [apply IH|]. intros [rest' tl'']. apply stays_ret.
  - apply stays_bind; [apply IH|]. intros [rest' tl']. apply stays_ret.
Qed.

Lemma stays_rmdir_dirs P root_dir entries tl :
  stays F P (rmdir_dirs "disk_cleanup" root_dir entries tl).
Proof.
  revert tl. induction entries as [|[name r|name r sub] rest IH]; intros tl; simpl.
  - apply stays_ret.
  - apply stays_bind; [apply IH|]. intros [rest' tl']. apply stays_ret.
  - apply stays_bind; [apply stays_record_removal|]. intros tl'.
    apply stays_bind; [apply IH|]. intros [rest' tl'']. apply stays_ret.
Qed.

Lemma stays_sweep_node P n :
  forall root_dir tl, stays F P (sweep_node "disk_cleanup" root_dir n tl).
Proof.
  induction n as [name r|name r sub IH] using Node_tree_ind; intros root_dir tl.
  - apply stays_ret.
  - simpl. apply stays_bind.
    + generalize tl. clear tl.
      induction IH as [|c cs Hc _ IHcs]; intros tl; [apply stays_ret|].
      apply stays_bind; [apply Hc|]. intros [c' tl'].
      apply stays_bind; [apply IHcs|]. intros [cs' tl'']. apply stays_ret.
    + intros [sub1 tl1]. apply stays_bind; [apply stays_unlink_files|].
      intros [sub2 tl2]. apply stays_bind; [apply stays_rmdir_dirs|].
      intros [sub3 tl3]. apply stays_ret.
Qed.

Lemma stays_sweep_nodes P root_dir l tl :
  stays F P (sweep_nodes "disk_cleanup" root_dir l tl).
Proof.
  revert tl. induction l as [|c cs IH]; intros tl; simpl; [apply stays_ret|].
  apply stays_bind; [apply stays_sweep_node|]. intros [c' tl'].
  apply stays_bind; [apply IH|]. intros [cs' tl'']. apply stays_ret.
Qed.

(** Putting back what is left of a directory that is there. *)
Lemma confined_swept P p entries w :
  p ∈ P -> is_Some (disk w !! p) ->
  confined F P w (with_disk (<[p := entries]> (disk w)) w).
Proof.
  intros Hp Hsome. split; project; try done.
  - intros f. exists []. destruct (log_dir w !! f); simpl; by rewrite ?app_nil_r.
  - intros q. destruct (decide (q = p)) as [->|Hne].
    + rewrite lookup_insert_eq. split; eauto.
    + by rewrite lookup_insert_ne.
  - intros q Hq. apply lookup_insert_ne. by intros ->.
Qed.

Lemma stays_sweep_path P tl path :
  (forall p, path = Some p -> p ∈ P) ->
  stays F P (sweep_path env "disk_cleanup" tl path).
Proof.
  intros HP w. unfold sweep_path. rewrite (bind_returns get_world _ w w w eq_refl).
  assert (Hmiss : forall text1 text2,
    stays F P (thread_safe_update_info_panel DiskCleanup text1 ;;
               Logger_log "disk_cleanup" WARNING text2 ;; ret tl)).
  { intros. apply stays_bind; [apply stays_tell|]. intros _.
    apply stays_bind; [apply stays_cleanup_log|]. intros _. apply stays_ret. }
  destruct path as [p|]; [|apply Hmiss].
  destruct (Py.truthy p); [|apply Hmiss].
  destruct (disk w !! p) as [entries|] eqn:Ep;
    [|destruct (plain_file env p); [apply stays_ret | apply Hmiss]].
  destruct (stays_sweep_nodes [] p entries tl w) as ([e1 tl1] & w1 & E1 & C1).
  rewrite (bind_returns _ _ _ _ _ E1). cbn beta iota.
  destruct (stays_unlink_files [] p e1 tl1 w1) as ([e2 tl2] & w2 & E2 & C2).
  rewrite (bind_returns _ _ _ _ _ E2). cbn beta iota.
  destruct (stays_rmdir_dirs [] p e2 tl2 w2) as ([e3 tl3] & w3 & E3 & C3).
  rewrite (bind_returns _ _ _ _ _ E3). cbn beta iota.
  eexists _, _. split; [reflexivity|]. cbn [snd].
  pose proof (confined_trans _ _ _ _ _ (confined_trans _ _ _ _ _ C1 C2) C3) as C.
  eapply confined_trans.
  - eapply confined_mono; [|exact C]. intros q Hq. by apply elem_of_nil in Hq.
  - apply confined_swept; [by apply HP|].
    rewrite (cf_disk _ _ _ _ C p) by apply not_elem_of_nil. by rewrite Ep.
Qed.

Lemma stays_sweep_paths P paths tl :
  (forall p, Some p ∈ paths -> p ∈ P) ->
  stays F P (sweep_paths env "disk_cleanup" tl paths).
Proof.
  revert tl. induction paths as [|path rest IH]; intros tl HP; simpl.
  - apply stays_ret.
  - apply stays_bind.
    + apply stays_sweep_path. intros p ->. apply HP. by left.
    + intros tl'. apply IH. intros p Hp. apply HP. by right.
Qed.

End Sweeping.

(** The directories named by the three cleanup paths. *)
Definition cleanup_dirs (env : Env) : list string := omap id (cleanup_paths env).

Lemma cleanup_dirs_spec env p : p ∈ cleanup_dirs env <-> Some p ∈ cleanup_paths env.
Proof.
  unfold cleanup_dirs. rewrite list_elem_of_omap. split.
  - intros ([q|] & Hq & E); simpl in E; [|done]. by injection E as ->.
  - intros H. by exists (Some p).
Qed.

Lemma confined_probed F P env w : confined F P w (probed env w).
Proof.
  unfold probed. destruct (IsUserAnAdmin env); [apply confined_refl|].
  by apply confined_same.
Qed.

Lemma confined_denied P env w : confined ["error.log"] P w (denied env w).
Proof.
  unfold denied.
  eapply confined_trans; [apply confined_probed|].
  apply (confined_trans _ _ _
           (emit "error_logger" ERROR "Admin privileges are required to perform this operation." (probed env w))).
  - apply (confined_emit _ _ _ _ _ _ _ error_logger_handler). by left.
  - by apply confined_same.
Qed.

Lemma confined_cleanup_prelude F P t w : confined F P w (cleanup_prelude t w).
Proof.
  unfold cleanup_prelude. apply stays_exec.
  apply stays_bind; [apply stays_clear_info_panel | intros _; apply stays_tell].
Qed.

Lemma confined_cleanup_epilogue P t tl w :
  confined ["disk_cleanup.log"] P w (cleanup_epilogue t tl w).
Proof.
  assert (HF : "disk_cleanup.log" ∈ ["disk_cleanup.log"]) by (by left).
  unfold cleanup_epilogue. apply stays_exec.
  do 4 (apply stays_bind; [by apply stays_cleanup_log | intros _]).
  apply stays_bind; [apply stays_tell | intros _].
  apply stays_bind; [apply stays_progress_set_value | intros _].
  apply stays_bind; [apply stays_tk | intros _].
  apply stays_gui_queue_put.
Qed.

(** The file a disk cleanup writes to: the log of the section when the
    gate lets the run through, the error log when it does not. *)
Definition cleanup_log (env : Env) : string :=
  if admin env then "disk_cleanup.log" else "error.log".

Lemma disk_cleanup_wf env t w :
  wf w ->
  exists w',
    disk_cleanup env t w = (Returns tt, w') /\
    confined [cleanup_log env] (cleanup_dirs env) w w' /\
    launched w' = launched w.
Proof.
  intros Hwf. unfold cleanup_log. destruct (admin env) eqn:Hadm.
  - assert (HF : "disk_cleanup.log" ∈ ["disk_cleanup.log"]) by (by left).
    destruct (disk_cleanup_admin env t w Hwf Hadm) as (tl & w2 & E & S & ->).
    eexists. split; [reflexivity|]. split.
    + eapply confined_trans; [apply confined_cleanup_prelude|].
      eapply confined_trans; [|apply confined_cleanup_epilogue].
      destruct (stays_sweep_paths env _ HF (cleanup_dirs env) (cleanup_paths env)
                  (mkTally [] [] []) (fun p => proj2 (cleanup_dirs_spec env p))
                  (cleanup_prelude t w)) as (tl' & w2' & E' & C).
      rewrite E in E'. by injection E' as <- <-.
    + unfold cleanup_epilogue, exec. fields.
      rewrite (so_launched _ _ S). unfold cleanup_prelude, exec. by fields.
  - exists (denied env w). split; [|split].
    + unfold disk_cleanup, bind. by rewrite ensure_admin_eq, Hadm.
    + apply confined_denied.
    + unfold denied, probed. destruct (IsUserAnAdmin env); by fields.
Qed.

(** X5. Disk cleanup and the logs.  From any world of the program, with or
    without administrative rights and whatever the directories hold, the run
    returns and leaves a world of the program.  Every log file still holds
    the records it held, in order, with new records only after them; no log
    file is created or removed; and exactly one file can grow:
    [disk_cleanup.log] when the gate lets the run through, [error.log] when
    it does not. *)
Theorem disk_cleanup_writes_only_its_own_log env t w :
  wf w ->
  let w' := exec (disk_cleanup env t) w in
  outcome (disk_cleanup env t) w = Returns tt /\
  wf w' /\
  (forall f, exists more,
     log_dir w' !! f = (fun old => old ++ more) <$> (log_dir w !! f)) /\
  (forall f,
     f <> (if admin env then "disk_cleanup.log" else "error.log") ->
     log_dir w' !! f = log_dir w !! f).
Proof.
  intros Hwf w'. subst w'. unfold outcome, exec.
  destruct (disk_cleanup_wf env t w Hwf) as (w' & -> & C & _). cbn [fst snd].
  split; [reflexivity|]. split; [by apply (confined_wf _ _ _ _ C)|].
  split; [apply (cf_grows _ _ _ _ C)|].
  intros f Hf. apply (cf_apart _ _ _ _ C Hwf).
  by intros ?%list_elem_of_singleton.
Qed.

Lemma disk_cleanup_writes_witness :
  wf (boot temp_dir) /\
  outcome (disk_cleanup administrator WorkerThread) (boot temp_dir) = Returns tt /\
  log_dir (exec (disk_cleanup administrator WorkerThread) (boot temp_dir))
    !! "error.log" = log_dir (boot temp_dir) !! "error.log".
Proof.
  destruct (disk_cleanup_writes_only_its_own_log administrator WorkerThread
              (boot temp_dir) (wf_boot temp_dir)) as (H1 & _ & _ & H4).
  split; [apply wf_boot|]. split; [exact H1|].
  apply H4. discriminate.
Defined.




(** ** The queue, the panels and the timers *)

Lemma string_app_assoc (a b c : string) : (a +:+ b) +:+ c = a +:+ (b +:+ c).
Proof.
  induction a as [|x a IH]; [reflexivity|].
  change (String x ((a +:+ b) +:+ c) = String x (a +:+ (b +:+ c))). by f_equal.
Qed.

(** The text [update_info_panel] adds for the messages [ms], in order. *)
Fixpoint shown_text (ms : list string) : string :=
  match ms with
  | [] => ""
  | m :: ms => (m +:+ Py.nl +:+ Py.nl) +:+ shown_text ms
  end.

Lemma string_app_empty_r (a : string) : a +:+ "" = a.
Proof.
  induction a as [|x a IH]; [reflexivity|].
  change (String x (a +:+ "") = String x a). by f_equal.
Qed.

Lemma for_each_tell panel ms w :
  for_each (thread_safe_update_info_panel panel) ms w =
    (Returns tt,
     with_gui_queue (gui_queue w ++ map (Ev_update_info_panel panel) ms) w).
Proof.
  revert w. induction ms as [|m ms IH]; intros w; simpl.
  - by rewrite app_nil_r, with_gui_queue_id.
  - unfold bind at 1, thread_safe_update_info_panel at 1, gui_queue_put, modify.
    rewrite IH. project. by rewrite <- app_assoc.
Qed.

Lemma for_each_update t panel ms w :
  outcome (for_each (update_info_panel t panel) ms) w = Returns tt /\
  info_panel (exec (for_each (update_info_panel t panel) ms) w) =
    foldl show (info_panel w) (map (Ev_update_info_panel panel) ms) /\
  tk_calls (exec (for_each (update_info_panel t panel) ms) w) =
    tk_calls w ++ map (fun m => (t, Tk_panel_insert panel (m +:+ Py.nl +:+ Py.nl))) ms.
Proof.
  revert w. induction ms as [|m ms IH]; intros w.
  - simpl. by rewrite app_nil_r.
  - set (w1 := exec (update_info_panel t panel m) w).
    destruct (IH w1) as (H1 & H2 & H3).
    assert (E : for_each (update_info_panel t panel) (m :: ms) w =
                for_each (update_info_panel t panel) ms w1) by reflexivity.
    unfold outcome, exec in *. rewrite E, H1, H2, H3.
    split; [done|]. subst w1. unfold exec. simpl. by rewrite <- app_assoc.
Qed.

Lemma shown_messages panel ms (p : Widgets string) :
  let p' := foldl show p (map (Ev_update_info_panel panel) ms) in
  wget panel p' = wget panel p +:+ shown_text ms /\
  (forall other, other <> panel -> wget other p' = wget other p).
Proof.
  revert p. induction ms as [|m ms IH]; intros p; simpl.
  - by rewrite string_app_empty_r.
  - destruct (IH (wset panel (wget panel p +:+ (m +:+ Py.nl +:+ Py.nl)) p))
      as [H1 H2].
    split.
    + rewrite H1, wget_wset. apply string_app_assoc.
    + intros other Hne. rewrite H2 by done. by apply wget_wset_ne.
Qed.

(** X7. Messages for a panel go through the queue unchanged.  When a
    worker queues the messages [ms] for a panel, nothing is shown yet and no
    Tk call is made; the next tick of [process_gui_queue] empties the queue
    and leaves every panel reading what it would read had the Tk thread
    taken the tick first and then called [update_info_panel] itself on each
    message: the panel addressed gains each message followed by a blank
    line, in the order queued and after everything queued earlier, and the
    two other panels are as they would be without the messages. *)
Theorem queued_messages_reach_their_panel panel ms w :
  let w1 := exec (for_each (thread_safe_update_info_panel panel) ms) w in
  let w2 := exec process_gui_queue w1 in
  let ticked := exec process_gui_queue w in
  info_panel w1 = info_panel w /\
  tk_calls w1 = tk_calls w /\
  gui_queue w2 = [] /\
  info_panel w2 =
    info_panel (exec (for_each (update_info_panel UIThread panel) ms) ticked) /\
  wget panel (info_panel w2) = wget panel (info_panel ticked) +:+ shown_text ms /\
  (forall other, other <> panel ->
     wget other (info_panel w2) = wget other (info_panel ticked)).
Proof.
  intros w1 w2 ticked.
  assert (E1 : w1 = with_gui_queue
                      (gui_queue w ++ map (Ev_update_info_panel panel) ms) w).
  { subst w1. unfold exec. by rewrite for_each_tell. }
  assert (E2 : info_panel w2 =
               foldl show (info_panel ticked) (map (Ev_update_info_panel panel) ms)).
  { subst w2 ticked. rewrite !process_gui_queue_panels, E1. project.
    by rewrite foldl_app. }
  destruct (shown_messages panel ms (info_panel ticked)) as [S1 S2].
  destruct (for_each_update UIThread panel ms ticked) as (_ & U & _).
  split; [by rewrite E1|]. split; [by rewrite E1|].
  split; [subst w2; by destruct (process_gui_queue_fifo w1) as (_ & -> & _)|].
  split; [by rewrite E2, U|].
  rewrite E2. by split.
Qed.

(** X8. Resetting a bar, from the queue entry to the timer.  When the
    queue is empty and a run ends by queueing
    [reset_progress_bar_with_delay(bar, delay)]: the next tick of
    [process_gui_queue] leaves every bar as it is and books two callbacks
    behind the pending ones, the reset after [delay] ms and then its own
    next tick; when the main loop runs the reset, the Tk thread sets that bar
    to 0, the other bars and the maxima keep their values, and the reset is
    no longer pending. *)
Theorem queued_reset_sets_the_bar_to_zero bar delay w :
  gui_queue w = [] ->
  let w1 := exec (gui_queue_put (Ev_reset_progress_bar_with_delay bar delay)) w in
  let w2 := exec process_gui_queue w1 in
  let w3 := exec (mainloop_fire (length (timers w))) w2 in
  progress_value w2 = progress_value w /\
  timers w2 =
    timers w ++ [(delay, Cb_progress_config_value_0 bar); (100, Cb_process_gui_queue)] /\
  outcome (mainloop_fire (length (timers w))) w2 = Returns tt /\
  progress_value w3 = wset bar 0%float (progress_value w) /\
  progress_maximum w3 = progress_maximum w /\
  timers w3 = timers w ++ [(100, Cb_process_gui_queue)] /\
  last (tk_calls w3) = Some (UIThread, Tk_progress_set_value bar 0%float).
Proof.
  intros Hq w1 w2 w3.
  assert (Q1 : gui_queue w1 = [Ev_reset_progress_bar_with_delay bar delay]).
  { subst w1. unfold exec. simpl. by rewrite Hq. }
  assert (T2 : timers w2 =
    timers w ++ [(delay, Cb_progress_config_value_0 bar); (100, Cb_process_gui_queue)]).
  { subst w2. destruct (process_gui_queue_fifo w1) as (_ & _ & _ & ->).
    rewrite Q1. reflexivity. }
  assert (P2 : progress_value w2 = progress_value w /\
               progress_maximum w2 = progress_maximum w).
  { subst w2. unfold exec. rewrite process_gui_queue_eq. cbn [snd].
    unfold exec, root_after, tk, bind, modify. project.
    destruct (drained_fields (gui_queue w1) w1 eq_refl)
      as (_ & _ & _ & _ & -> & -> & _).
    done. }
  destruct P2 as [P2 M2].
  assert (L : timers w2 !! length (timers w)
              = Some (delay, Cb_progress_config_value_0 bar)).
  { rewrite T2. rewrite lookup_app_r by reflexivity. by rewrite Nat.sub_diag. }
  assert (E3 : mainloop_fire (length (timers w)) w2 =
    (Returns tt,
     exec (progress_set_value UIThread bar 0%float)
       (with_timers (take (length (timers w)) (timers w2)
                     ++ drop (S (length (timers w))) (timers w2)) w2))).
  { unfold mainloop_fire. rewrite (bind_returns get_world _ w2 w2 w2 eq_refl), L.
    reflexivity. }
  split; [exact P2|]. split; [exact T2|].
  unfold outcome. subst w3. unfold exec at 1 2 3 4. rewrite E3. cbn [fst snd].
  assert (D : drop (S (length (timers w)))
                 (timers w ++ [(delay, Cb_progress_config_value_0 bar);
                               (100, Cb_process_gui_queue)])
               = [(100, Cb_process_gui_queue)]).
  { change [(delay, Cb_progress_config_value_0 bar); (100, Cb_process_gui_queue)]
      with ([(delay, Cb_progress_config_value_0 bar)] ++ [(100, Cb_process_gui_queue)]).
    rewrite app_assoc. apply drop_app_length'. rewrite length_app. simpl. lia. }
  unfold exec. simpl. rewrite P2, M2, T2, last_snoc, take_app_length, D.
  by repeat split.
Qed.

Lemma queued_reset_witness :
  gui_queue (boot ∅) = [] /\
  progress_value
    (exec (mainloop_fire (length (timers (boot ∅))))
       (exec process_gui_queue
          (exec (gui_queue_put (Ev_reset_progress_bar_with_delay Defragment 1000))
             (boot ∅))))
  = wset Defragment 0%float (progress_value (boot ∅)).
Proof.
  assert (Hq : gui_queue (boot ∅) = []) by reflexivity.
  split; [exact Hq|].
  pose proof (queued_reset_sets_the_bar_to_zero Defragment 1000 (boot ∅) Hq) as H.
  cbv zeta in H. destruct H as (_ & _ & _ & H & _). exact H.
Defined.

(** ** The log viewer

    [open_log] and [clear_log_content] run on the Tk thread, from the
    "See Log" button of a section and the "Clear Log" button of a log window.
    The window that [open_log] builds is returned as a value, and the Tk
    calls that build it are not recorded among [tk_calls]; a log file that
    exists in the model can be read and truncated, so the two
    [except Exception] branches of the source have no counterpart. *)

(** [str.capitalize]: the first character upper-cased, the rest
    lower-cased. *)
Definition upper_ascii (c : ascii) : ascii :=
  let n := nat_of_ascii c in
  if (97 <=? n)%nat && (n <=? 122)%nat then ascii_of_nat (n - 32) else c.

Definition capitalize (s : string) : string :=
  match s with
  | EmptyString => EmptyString
  | String c r => String (upper_ascii c) (Py.lower r)
  end.

(** What a [ScrolledText] of a log window shows. *)
Inductive Shown :=
| Content (records : list LogRecord)    (* the text read from the file *)
| Text (text : string).                 (* a notice put in its place *)

Inductive LogView :=
| NoWindow
| Notebook (title : string) (tabs : list (string * Shown))
| LogWindow (title : string) (shown : Shown) (clear_log_button : bool).

(** One tab of the System Health Check notebook. *)
Definition log_tab (w : World) (entry : string * string) : string * Shown :=
  let '(command_name, log_file_name) := entry in
  let tab_display_name := capitalize (Py.replace "_" " " command_name) in
  (tab_display_name,
   match log_dir w !! log_file_name with
   | Some log_content => Content log_content
   | None => Text ("No log file found for " +:+ command_name +:+ ".")
   end).

Definition open_log (t : Thread) (label : string) : M LogView :=
  match Py.dict_get SECTION_LOG_FILES label with
  | Some (String _ _ as log_file) =>
      if String.eqb label "System Health Check"
      then
        w <- get_world ;;
        ret (Notebook (label +:+ " Log") (map (log_tab w) COMMAND_LOG_FILES))
      else
        w <- get_world ;;
        match log_dir w !! log_file with
        | Some log_content =>
            ret (LogWindow (label +:+ " Log") (Content log_content)
                   (negb (String.eqb label "System Health Check")))
        | None =>
            messagebox t "showwarning" "Log Not Found"
              ("No log file found for " +:+ label +:+ ".") ;;
            ret NoWindow
        end
  | _ =>
      messagebox t "showwarning" "Log Not Found"
        ("No log file mapping found for " +:+ label +:+ ".") ;;
      ret NoWindow
  end.


Lemma dict_get_elem {V} (d : list (string * V)) k v :
  Py.dict_get d k = Some v -> (k, v) ∈ d.
Proof.
  induction d as [|[k' v'] d IH]; [done|]. cbn [Py.dict_get].
  destruct (String.eqb k' k) eqn:E.
  - apply String.eqb_eq in E. subst k'. intros [= ->]. by left.
  - intros H. right. by apply IH.
Qed.

Lemma section_label label file :
  Py.dict_get SECTION_LOG_FILES label = Some file ->
  (label, file) ∈ SECTION_LOG_FILES.
Proof. apply dict_get_elem. Qed.


(** The warning box, as the only thing that happened. *)
Definition warned (t : Thread) (text : string) (w : World) : World :=
  with_tk_calls (tk_calls w ++ [(t, Tk_messagebox "showwarning" "Log Not Found" text)]) w.

Lemma open_log_eq t label w :
  open_log t label w =
    match Py.dict_get SECTION_LOG_FILES label with
    | Some (String _ _ as log_file) =>
        if String.eqb label "System Health Check"
        then (Returns (Notebook (label +:+ " Log") (map (log_tab w) COMMAND_LOG_FILES)), w)
        else
          match log_dir w !! log_file with
          | Some log_content =>
              (Returns (LogWindow (label +:+ " Log") (Content log_content) true), w)
          | None =>
              (Returns NoWindow, warned t ("No log file found for " +:+ label +:+ ".") w)
          end
    | _ =>
        (Returns NoWindow,
         warned t ("No log file mapping found for " +:+ label +:+ ".") w)
    end.
Proof.
  unfold open_log.
  destruct (Py.dict_get SECTION_LOG_FILES label) as [[|c file]|]; try reflexivity.
  destruct (String.eqb label "System Health Check") eqn:E; [reflexivity|].
  rewrite (bind_returns get_world _ w w w eq_refl).
  by destruct (log_dir w !! String c file).
Qed.


(** *** What a logger writes is what the viewer shows *)








(** *** The logs that no view shows *)

(** The files [open_log] can read. *)
Definition viewed_files : list string :=
  ["disk_cleanup.log"; "defragment.log"] ++ map snd COMMAND_LOG_FILES.

Lemma log_tab_agree w1 w2 entry :
  log_dir w1 !! entry.2 = log_dir w2 !! entry.2 ->
  log_tab w1 entry = log_tab w2 entry.
Proof. destruct entry as [c f]. unfold log_tab. cbn [snd]. by intros ->. Qed.

Lemma open_log_agree t label w1 w2 :
  (forall f, f ∈ viewed_files -> log_dir w1 !! f = log_dir w2 !! f) ->
  outcome (open_log t label) w1 = outcome (open_log t label) w2.
Proof.
  intros Hsame. unfold outcome. rewrite !open_log_eq.
  destruct (Py.dict_get SECTION_LOG_FILES label) as [file|] eqn:Hget; [|reflexivity].
  apply section_label in Hget. unfold SECTION_LOG_FILES in Hget.
  apply elem_of_cons in Hget as [[= -> ->]|Hget].
  { cbn [fst]. change (String.eqb "System Health Check" "System Health Check") with true.
    cbn iota. cbn [fst]. do 2 f_equal.
    apply map_ext_in. intros entry Hin. apply log_tab_agree, Hsame.
    unfold viewed_files. apply elem_of_app. right.
    apply list_elem_of_fmap. exists entry. split; [done|].
    by apply list_elem_of_In. }
  apply elem_of_cons in Hget as [[= -> ->]|Hget].
  { change (String.eqb "Disk Cleanup" "System Health Check") with false.
    cbn iota. rewrite (Hsame "disk_cleanup.log") by (unfold viewed_files; repeat constructor).
    by destruct (log_dir w2 !! "disk_cleanup.log"). }
  apply elem_of_cons in Hget as [[= -> ->]|Hget].
  { change (String.eqb "Defragment and Optimize Drives" "System Health Check") with false.
    cbn iota. rewrite (Hsame "defragment.log") by (unfold viewed_files; repeat constructor).
    by destruct (log_dir w2 !! "defragment.log"). }
  by apply elem_of_nil in Hget.
Qed.

Lemma log_dir_written_elsewhere name file lvl msg w f :
  wf w -> (name, file) ∈ app_handlers -> f <> file ->
  log_dir (exec (Logger_log name lvl msg) w) !! f = log_dir w !! f.
Proof.
  intros Hwf Hin Hne. rewrite exec_Logger_log.
  apply (cf_apart [file] [] _ _
           (confined_emit [file] [] name file lvl msg w Hin (list_elem_of_here _ _)) Hwf).
  by intros ?%list_elem_of_singleton.
Qed.

Lemma system_health_check_handler :
  ("system_health_check", "system_health_check.log") ∈ app_handlers.
Proof. unfold app_handlers. repeat constructor. Qed.

(** X12. Two logs are written and never shown.  From any world of the
    program, a record written through the error logger (which takes every
    privilege denial) or through the logger of the System Health Check
    section changes what no log view shows: for every label, [open_log]
    gives the same window or the same warning after the write as before
    it. *)
Theorem error_log_is_shown_by_no_view t label lvl msg w :
  wf w ->
  outcome (open_log t label) (exec (Logger_log "error_logger" lvl msg) w)
    = outcome (open_log t label) w /\
  outcome (open_log t label) (exec (Logger_log "system_health_check" lvl msg) w)
    = outcome (open_log t label) w.
Proof.
  intros Hwf. split; apply open_log_agree; intros f Hf.
  - apply (log_dir_written_elsewhere _ "error.log"); [done | apply error_logger_handler |].
    intros ->. revert Hf. apply (bool_decide_unpack _). by vm_compute.
  - apply (log_dir_written_elsewhere _ "system_health_check.log");
      [done | apply system_health_check_handler |].
    intros ->. revert Hf. apply (bool_decide_unpack _). by vm_compute.
Qed.

Lemma error_log_is_shown_by_no_view_witness :
  wf (boot ∅) /\
  outcome (open_log UIThread "System Health Check")
    (exec (Logger_log "error_logger" ERROR
             "Admin privileges are required to perform this operation.") (boot ∅))
    = outcome (open_log UIThread "System Health Check") (boot ∅).
Proof.
  split; [apply wf_boot|].
  destruct (error_log_is_shown_by_no_view UIThread "System Health Check" ERROR
              "Admin privileges are required to perform this operation." (boot ∅)
              (wf_boot ∅)) as [H _].
  exact H.
Defined.

(** *** Clearing one log *)





(** ** The loop of the health check and the bar *)

Lemma attempted_all env steps :
  Forall (fun s => step_exit (subprocess_run env s.2.2) = Continue) steps ->
  attempted env steps = steps.
Proof.
  intros Hall. induction Hall as [|s rest Hs _ IH]; [reflexivity|].
  simpl. by rewrite Hs, IH.
Qed.

Lemma loop_world_progress env t loggers el total inc w turns :
  wget SystemHealthCheck
    (progress_value (loop_world env t loggers el total inc w turns))
  = foldl (fun v _ => (v + inc)%float) (wget SystemHealthCheck (progress_value w)) turns.
Proof.
  unfold loop_world. revert w. induction turns as [|s turns IH]; intros w; [reflexivity|].
  cbn [foldl]. rewrite IH.
  destruct (stepped_fields env t (default el (Py.dict_get loggers s.2.1))
              total inc s.1 s.2.2 w) as (_ & _ & -> & _).
  by rewrite wget_wset.
Qed.

(** X15. The loop of [start_health_check] (lines 592 to 653), run on its
    own with the increment [100 / len(commands)] that the method computes.
    When every command runs to an exit status, zero or not, and the bar
    starts at 0, the loop starts the six commands in the order of the dict
    and adds the increment six times in Python's float arithmetic: the bar
    ends at 100.00000000000001, one unit in the last place above its
    maximum of 100. *)
Theorem health_check_loop_overshoots_the_maximum env t loggers w el :
  Py.dict_get (self_loggers w) "error_logger" = Some el ->
  Forall (fun s => step_exit (subprocess_run env s.2.2) = Continue)
    (enumerate 1 commands) ->
  wget SystemHealthCheck (progress_value w) = 0%float ->
  let progress_increment := (100 / float_of_nat (length commands))%float in
  let w' :=
    exec (health_check_loop env t loggers (length commands) progress_increment
            (enumerate 1 commands)) w in
  outcome (health_check_loop env t loggers (length commands) progress_increment
             (enumerate 1 commands)) w = Returns tt /\
  launched w' = launched w ++ map snd commands /\
  wget SystemHealthCheck (progress_value w') = 0x1.9000000000001p+6%float /\
  (100 <? wget SystemHealthCheck (progress_value w'))%float = true.
Proof.
  intros Hel Hall H0 inc w'. subst w'. unfold outcome, exec.
  rewrite (health_check_loop_eq _ _ _ _ _ _ _ el) by done. cbn [fst snd].
  rewrite (attempted_all _ _ Hall), loop_world_launched, loop_world_progress, H0.
  split; [reflexivity|]. split; [reflexivity|].
  assert (E : foldl (fun v _ => (v + inc)%float) 0%float (enumerate 1 commands)
              = 0x1.9000000000001p+6%float) by (by vm_compute).
  rewrite E. split; reflexivity.
Qed.

Lemma health_check_loop_overshoots_witness :
  let w' :=
    exec (health_check_loop fourth_fails WorkerThread []
            (length commands) (100 / float_of_nat (length commands))%float
            (enumerate 1 commands)) (boot ∅) in
  Py.dict_get (self_loggers (boot ∅)) "error_logger" = Some "error_logger" /\
  wget SystemHealthCheck (progress_value (boot ∅)) = 0%float /\
  (100 <? wget SystemHealthCheck (progress_value w'))%float = true.
Proof.
  intros w'.
  assert (Hel : Py.dict_get (self_loggers (boot ∅)) "error_logger" = Some "error_logger")
    by reflexivity.
  assert (H0 : wget SystemHealthCheck (progress_value (boot ∅)) = 0%float)
    by reflexivity.
  assert (Hall : Forall (fun s => step_exit (subprocess_run fourth_fails s.2.2) = Continue)
                   (enumerate 1 commands)).
  { unfold commands. cbn [enumerate]. repeat constructor. }
  pose proof (health_check_loop_overshoots_the_maximum fourth_fails WorkerThread []
                (boot ∅) "error_logger" Hel Hall H0) as H.
  cbv zeta in H. destruct H as (_ & _ & _ & H4).
  split; [exact Hel|]. split; [exact H0 | exact H4].
Defined.
